(** * The S32K FlexCAN media layer of libuavcan v1 (s32k_libuavcan.cpp)

    A shallow embedding of the driver: the peripheral registers are a register
    file reached through logged bus accesses, the reception FIFOs and the
    discard counters are the driver's own arrays, and every C++ function is a
    computation over that machine.  The peripherals' own behaviour (timers that
    count, flags that the hardware raises or clears) is a parameter of the
    development: results are proved for every behaviour of the hardware unless
    a theorem says otherwise. *)

From Stdlib Require Import ZArith List Bool Lia.
From stdpp Require Import base decidable option list.
Import ListNotations.

Local Open Scope Z_scope.

(** ** Fixed-width integers *)

Definition u8 (z : Z) : Z := z mod 2 ^ 8.
Definition u32 (z : Z) : Z := z mod 2 ^ 32.
Definition u64 (z : Z) : Z := z mod 2 ^ 64.

(** ** Target selection

    The sources select the target with the preprocessor symbols
    MCU_S32K142 ... MCU_S32K148 ([#if defined(MCU_S32K146) || ...]). *)

Inductive MCU : Type := MCU_S32K142 | MCU_S32K144 | MCU_S32K146 | MCU_S32K148.

(** Modelled from the spec: the driver header s32k_libuavcan.hpp, which defines
    TARGET_S32K_CANFD_COUNT and DISCARD_COUNT_ARRAY per target, is not among
    the sources; one CAN-FD instance on S32K142/144, two on S32K146, three on
    S32K148 (the interrupt handlers at the end of the source file are compiled
    under the same conditions). *)
Definition TARGET_S32K_CANFD_COUNT (mcu : MCU) : Z :=
  match mcu with
  | MCU_S32K142 | MCU_S32K144 => 1
  | MCU_S32K146 => 2
  | MCU_S32K148 => 3
  end.

(** Modelled from the spec: DISCARD_COUNT_ARRAY of the absent driver header,
    one zero per instance. *)
Definition DISCARD_COUNT_ARRAY (mcu : MCU) : list Z :=
  replicate (Z.to_nat (TARGET_S32K_CANFD_COUNT mcu)) 0.

(** ** namespace S32K: constants of the source file *)

Module S32K.
Definition Frame_Capacity : Z := 40.
Definition Filter_Count : Z := 5.
Definition PCC_FlexCAN_Index : list Z := [36; 37; 43].
Definition FlexCAN_NVIC_Indices : list (Z * Z) :=
  [(2, 0x20000); (2, 0x1000000); (2, 0x80000000)].
Definition MB_Size_Words : Z := 18.
Definition MB_Data_Offset : Z := 2.
Definition cycles_timeout : Z := 0xFFFFFF.

(** enum MB_bit_to_index *)
Definition MessageBuffer0 : Z := 0x1.
Definition MessageBuffer1 : Z := 0x2.
Definition MessageBuffer2 : Z := 0x4.
Definition MessageBuffer3 : Z := 0x8.
Definition MessageBuffer4 : Z := 0x10.
Definition MessageBuffer5 : Z := 0x20.
Definition MessageBuffer6 : Z := 0x40.
End S32K.

(** ** The device header

    Modelled from the spec: the vendor's device header (S32K14x.h) is not among
    the sources.  The spec fixes the 29-bit identifier, the 4-bit DLC field and
    the codes 0x4 and 0xC of the control word; the remaining bit positions are
    those of the FlexCAN, SCG, PCC, LPIT and PORT register maps.  A field macro
    [X(v)] is [(v << X_SHIFT) & X_MASK]. *)

Definition field (shift mask v : Z) : Z := Z.land (Z.shiftl v shift) mask.

Definition CAN_RAMn_COUNT : Z := 128.
Definition CAN_RXIMR_COUNT : Z := 16.
Definition LPIT_TMR_COUNT : Z := 4.
Definition PCC_PCCn_COUNT : Z := 116.
Definition PORT_PCR_COUNT : Z := 32.
Definition S32_NVIC_ISER_COUNT : Z := 8.
Definition CAN_WMBn_ID_ID_MASK : Z := 0x1FFFFFFF.
Definition CAN_WMBn_CS_DLC_MASK : Z := 0xF0000.
Definition CAN_WMBn_CS_DLC_SHIFT : Z := 16.
Definition CAN_WMBn_CS_DLC : Z -> Z := field 16 0xF0000.
Definition CAN_RAMn_DATA_BYTE_0 : Z -> Z := field 24 0xFF000000.
Definition CAN_RAMn_DATA_BYTE_1 : Z -> Z := field 16 0xFF0000.

Definition CAN_MCR_MAXMB_MASK : Z := 0x7F.
Definition CAN_MCR_MAXMB : Z -> Z := field 0 0x7F.
Definition CAN_MCR_FDEN_MASK : Z := 0x800.
Definition CAN_MCR_IRMQ_MASK : Z := 0x10000.
Definition CAN_MCR_SRXDIS_MASK : Z := 0x20000.
Definition CAN_MCR_LPMACK_MASK : Z := 0x100000.
Definition CAN_MCR_FRZACK_MASK : Z := 0x1000000.
Definition CAN_MCR_NOTRDY_MASK : Z := 0x8000000.
Definition CAN_MCR_HALT_MASK : Z := 0x10000000.
Definition CAN_MCR_FRZ_MASK : Z := 0x40000000.
Definition CAN_MCR_MDIS_MASK : Z := 0x80000000.
Definition CAN_CTRL1_CLKSRC_MASK : Z := 0x2000.
Definition CAN_CTRL2_ISOCANFDEN_MASK : Z := 0x1000.
Definition CAN_ESR2_IMB_MASK : Z := 0x2000.
Definition CAN_ESR2_VPS_MASK : Z := 0x4000.
Definition CAN_ESR2_LPTM_MASK : Z := 0x7F0000.
Definition CAN_ESR2_LPTM_SHIFT : Z := 16.
Definition CAN_IMASK1_BUF31TO0M : Z -> Z := field 0 0xFFFFFFFF.
Definition CAN_CBT_BTF_MASK : Z := 0x80000000.
Definition CAN_CBT_EPRESDIV : Z -> Z := field 21 0x7FE00000.
Definition CAN_CBT_ERJW : Z -> Z := field 16 0x1F0000.
Definition CAN_CBT_EPROPSEG : Z -> Z := field 10 0xFC00.
Definition CAN_CBT_EPSEG1 : Z -> Z := field 5 0x3E0.
Definition CAN_CBT_EPSEG2 : Z -> Z := field 0 0x1F.
Definition CAN_FDCBT_FPRESDIV : Z -> Z := field 20 0x3FF00000.
Definition CAN_FDCBT_FRJW : Z -> Z := field 16 0x70000.
Definition CAN_FDCBT_FPROPSEG : Z -> Z := field 10 0x7C00.
Definition CAN_FDCBT_FPSEG1 : Z -> Z := field 5 0xE0.
Definition CAN_FDCBT_FPSEG2 : Z -> Z := field 0 0x7.
Definition CAN_FDCTRL_FDRATE_MASK : Z := 0x80000000.
Definition CAN_FDCTRL_MBDSR0 : Z -> Z := field 16 0x30000.
Definition CAN_FDCTRL_TDCEN_MASK : Z := 0x8000.
Definition CAN_FDCTRL_TDCOFF : Z -> Z := field 8 0x1F00.

Definition LPIT_TMR_CVAL_TMR_CUR_VAL_MASK : Z := 0xFFFFFFFF.
Definition LPIT_TMR_TVAL_TMR_VAL_MASK : Z := 0xFFFFFFFF.
Definition LPIT_MCR_M_CEN : Z -> Z := field 0 0x1.
Definition LPIT_MCR_M_CEN_MASK : Z := 0x1.
Definition LPIT_MCR_SW_RST : Z -> Z := field 1 0x2.
Definition LPIT_MCR_SW_RST_MASK : Z := 0x2.
Definition LPIT_TMR_TCTRL_MODE : Z -> Z := field 2 0xC.
Definition LPIT_TMR_TCTRL_CHAIN : Z -> Z := field 1 0x2.
Definition LPIT_SETTEN_SET_T_EN_0 : Z -> Z := field 0 0x1.
Definition LPIT_SETTEN_SET_T_EN_1 : Z -> Z := field 1 0x2.
Definition LPIT_SETTEN_SET_T_EN_2 : Z -> Z := field 2 0x4.
Definition LPIT_SETTEN_SET_T_EN_3 : Z -> Z := field 3 0x8.
Definition LPIT_CLRTEN_CLR_T_EN_2 : Z -> Z := field 2 0x4.
Definition LPIT_CLRTEN_CLR_T_EN_3 : Z -> Z := field 3 0x8.

Definition SCG_SOSCCSR_SOSCEN_MASK : Z := 0x1.
Definition SCG_SOSCCSR_LK_MASK : Z := 0x800000.
Definition SCG_SOSCCSR_SOSCVLD_MASK : Z := 0x1000000.
Definition SCG_SOSCCFG_EREFS_MASK : Z := 0x4.
Definition SCG_SOSCCFG_RANGE : Z -> Z := field 4 0x30.
Definition SCG_SPLLCSR_SPLLEN_MASK : Z := 0x1.
Definition SCG_SPLLCSR_LK_MASK : Z := 0x800000.
Definition SCG_SPLLCSR_SPLLVLD_MASK : Z := 0x1000000.
Definition SCG_SPLLCFG_MULT : Z -> Z := field 16 0x1F0000.
Definition SCG_SPLLDIV_SPLLDIV2 : Z -> Z := field 8 0x700.
Definition SCG_RCCR_SCS : Z -> Z := field 24 0xF000000.
Definition SCG_RCCR_DIVCORE : Z -> Z := field 16 0xF0000.
Definition SCG_RCCR_DIVBUS : Z -> Z := field 4 0xF0.
Definition SCG_RCCR_DIVSLOW : Z -> Z := field 0 0xF.

Definition PCC_LPIT_INDEX : Z := 55.
Definition PCC_PORTA_INDEX : Z := 73.
Definition PCC_PORTB_INDEX : Z := 74.
Definition PCC_PORTE_INDEX : Z := 77.
Definition PCC_PCCn_PCS : Z -> Z := field 24 0x7000000.
Definition PCC_PCCn_CGC : Z -> Z := field 30 0x40000000.
Definition PCC_PCCn_CGC_MASK : Z := 0x40000000.
Definition PORT_PCR_MUX : Z -> Z := field 8 0x700.

(** [REV_BYTES_32(a, b)]: [b] receives [a] with its four bytes reversed (the
    REV instruction). *)
Definition REV_BYTES_32 (a : Z) : Z :=
  Z.lor (Z.lor (Z.shiftl (Z.land a 0xFF) 24) (Z.shiftl (Z.land a 0xFF00) 8))
        (Z.lor (Z.land (Z.shiftr a 8) 0xFF00) (Z.land (Z.shiftr a 24) 0xFF)).

(** ** The transport library's types (libuavcan)

    Modelled from the spec: the frame, filter and result types belong to the
    transport library, which is not among the sources.  A frame holds a 29-bit
    identifier, a 64-byte data array, its length code and a timestamp in
    microseconds; DLC 0..8 map to as many bytes, DLC 9..15 to
    12, 16, 20, 24, 32, 48 and 64. *)

Inductive Result : Type :=
| Success | SuccessNothing | SuccessTimeout | Failure | BufferFull | BadArgument.

Definition isSuccess (r : Result) : bool :=
  match r with
  | Success | SuccessNothing | SuccessTimeout => true
  | Failure | BufferFull | BadArgument => false
  end.

Module CAN.
Definition MaxFrameSizeBytes : Z := 64.

Definition FrameDLC (raw : Z) : Z := u8 raw.

Definition dlcToLength (dlc : Z) : Z :=
  if dlc <=? 8 then dlc
  else match dlc with
       | 9 => 12 | 10 => 16 | 11 => 20 | 12 => 24 | 13 => 32 | 14 => 48
       | _ => 64
       end.

Record Frame : Type := mkFrame {
  id : Z;
  data : list Z;
  dlc_ : Z;
  timestamp : Z
}.

Definition MaskExtID : Z := 0x1FFFFFFF.

(** The constructor [Frame(can_id, can_data, in_dlc, timestamp)]: the
    identifier is masked, the data array is zeroed and the first
    [dlcToLength in_dlc] bytes are copied from [can_data]. *)
Definition Frame_ctor (can_id : Z) (can_data : list Z) (in_dlc : Z) (ts : Z) : Frame :=
  let len := Z.to_nat (dlcToLength in_dlc) in
  {| id := Z.land can_id MaskExtID;
     data := take len can_data ++ replicate (Z.to_nat MaxFrameSizeBytes - len) 0;
     dlc_ := in_dlc;
     timestamp := ts |}.

Definition getDLC (f : Frame) : Z := dlc_ f.
Definition getDataLength (f : Frame) : Z := dlcToLength (dlc_ f).

Record Filter : Type := mkFilter { filter_id : Z; mask : Z }.
End CAN.

(** [libuavcan::time::Monotonic::fromMicrosecond]: the value object holds the
    microsecond count. *)
Definition fromMicrosecond (us : Z) : Z := us.

(** [libuavcan::duration::Monotonic::toMicrosecond]: a duration is its
    microsecond count. *)
Definition toMicrosecond (timeout : Z) : Z := timeout.

(** ** Peripheral registers

    One constructor per register the driver touches; [i] is the index into
    [S32K::FlexCAN[]], [j] and [k] index a register array. *)

Inductive Reg : Type :=
| CAN_MCR (i : Z) | CAN_CTRL1 (i : Z) | CAN_TIMER (i : Z) | CAN_ESR2 (i : Z)
| CAN_IFLAG1 (i : Z) | CAN_IMASK1 (i : Z) | CAN_CTRL2 (i : Z) | CAN_CBT (i : Z)
| CAN_FDCTRL (i : Z) | CAN_FDCBT (i : Z)
| CAN_RAMn (i j : Z) | CAN_RXIMR (i j : Z)
| LPIT0_MCR | LPIT0_SETTEN | LPIT0_CLRTEN
| LPIT0_TVAL (k : Z) | LPIT0_CVAL (k : Z) | LPIT0_TCTRL (k : Z)
| SCG_SOSCCSR | SCG_SOSCCFG | SCG_SPLLCSR | SCG_SPLLCFG | SCG_SPLLDIV | SCG_RCCR
| PCC_PCCn (k : Z)
| S32_NVIC_ISER (k : Z)
| PORTA_PCR (k : Z) | PORTB_PCR (k : Z) | PORTE_PCR (k : Z)
| PTE_PDDR | PTE_PCOR.

#[global] Instance Reg_eq_dec : EqDecision Reg.
Proof. solve_decision. Defined.

Definition is_RAMn (r : Reg) : bool :=
  match r with CAN_RAMn _ _ => true | _ => false end.

(** One access of the CPU to a peripheral register, with the value read or
    written. *)
Inductive Access : Type :=
| Rd (r : Reg) (v : Z)
| Wr (r : Reg) (v : Z).

Definition Regs : Type := Reg -> Z.

Definition upd (r : Reg) (v : Z) (f : Regs) : Regs :=
  fun r' => if decide (r = r') then v else f r'.

(** The handle stored in [out_group]: null, or the address of the manager's
    group object. *)
Inductive InterfaceGroupPtrType : Type :=
| nullptr
| addr_S32K_InterfaceGroupObj_.

(** ** The machine *)

Record Machine : Type := mkMachine {
  regs : Regs;
  g_frame_ISRbuffer : list (list CAN.Frame);
  g_discarded_frames_count : list Z;
  interrupts_enabled : bool;
  trace : list Access          (* newest access first *)
}.

(** A computation ends with a value and a machine, or in an access outside an
    array (undefined behaviour in the source), or is still looping when its
    fuel is spent. *)
Inductive Outcome (A : Type) : Type :=
| Done (a : A) (m : Machine)
| Fault
| OutOfFuel.
Arguments Done {A} a m.
Arguments Fault {A}.
Arguments OutOfFuel {A}.

Definition M (A : Type) : Type := Machine -> Outcome A.

Definition ret {A} (a : A) : M A := fun m => Done a m.

Definition bind {A B} (c : M A) (k : A -> M B) : M B :=
  fun m => match c m with
           | Done a m' => k a m'
           | Fault => Fault
           | OutOfFuel => OutOfFuel
           end.

Declare Scope drv_scope.
Delimit Scope drv_scope with drv.
Notation "x <- c ;; k" := (bind c (fun x => k))
  (at level 100, c at next level, right associativity) : drv_scope.
Notation "c ;; k" := (bind c (fun _ => k))
  (at level 100, right associativity) : drv_scope.
Local Open Scope drv_scope.

Definition fault {A} : M A := fun _ => Fault.

(** [at_index l i] is [l[i]] for an index computed in the source; outside the
    array there is no element. *)
Definition at_index {A} (l : list A) (i : Z) : option A :=
  if 0 <=? i then l !! Z.to_nat i else None.

Definition set_index {A} (l : list A) (i : Z) (x : A) : list A :=
  <[Z.to_nat i := x]> l.

(** Loops.  [iter] runs [step] until it answers [inr]; [for_loop] is a counted
    loop whose bound is known on entry and fits its counter. *)
Fixpoint iter {I R} (fuel : nat) (step : I -> M (I + R)) (i : I) : M R :=
  match fuel with
  | O => fun _ => OutOfFuel
  | S fuel' =>
      r <- step i ;;
      match r with
      | inl i' => iter fuel' step i'
      | inr x => ret x
      end
  end.

Fixpoint for_loop {S} (n : nat) (i : Z) (body : Z -> S -> M S) (s : S) : M S :=
  match n with
  | O => ret s
  | S n' => s' <- body i s ;; for_loop n' (i + 1) body s'
  end.

Definition for_range (bound : Z) (body : Z -> M unit) : M unit :=
  for_loop (Z.to_nat bound) 0 (fun i _ => body i) tt.

(** [for (std::uint8_t j = 0; j < bound; j++)] with a [bound] that need not fit
    the counter: [j] wraps at 256. *)
Definition for_u8 (fuel : nat) (bound : Z) (body : Z -> M unit) : M unit :=
  iter fuel
       (fun j => if j <? bound then (body j ;; ret (inl (u8 (j + 1))))
                 else ret (inr tt))
       0.

(** A counted loop whose body may [return] from the enclosing function: the
    loop stops at the first [Some]. *)
Fixpoint for_until {R} (n : nat) (i : Z) (body : Z -> M (option R)) : M (option R) :=
  match n with
  | O => ret None
  | S n' =>
      r <- body i ;;
      match r with
      | Some x => ret (Some x)
      | None => for_until n' (i + 1) body
      end
  end.

(** The target the driver is compiled for: the MCU symbol and the value of
    UAVCAN_NODE_BOARD_USED. *)
Class Target : Type := mkTarget {
  mcu : MCU;
  UAVCAN_NODE_BOARD_USED : bool
}.

(** The peripherals: what the register file becomes after an access of the
    CPU.  The message-buffer RAM is memory: a word of it changes only when the
    CPU writes it (a reception fills a mailbox between two calls of the driver,
    not during one), so for RAM words the answer of [react] is not consulted. *)
Class Peripherals : Type := react : Access -> Regs -> Regs.

Infix ".|." := Z.lor (at level 50, left associativity) : Z_scope.
Infix ".&." := Z.land (at level 40, left associativity) : Z_scope.

Section Driver.

Context {target : Target} {peripherals : Peripherals}.

Definition CANFD_Count : Z := TARGET_S32K_CANFD_COUNT mcu.

(** Indices the register arrays admit. *)
Definition FlexCAN_ok (i : Z) : bool := (0 <=? i) && (i <? CANFD_Count).

Definition reg_ok (r : Reg) : bool :=
  match r with
  | CAN_MCR i | CAN_CTRL1 i | CAN_TIMER i | CAN_ESR2 i | CAN_IFLAG1 i
  | CAN_IMASK1 i | CAN_CTRL2 i | CAN_CBT i | CAN_FDCTRL i | CAN_FDCBT i =>
      FlexCAN_ok i
  | CAN_RAMn i j => FlexCAN_ok i && (0 <=? j) && (j <? CAN_RAMn_COUNT)
  | CAN_RXIMR i j => FlexCAN_ok i && (0 <=? j) && (j <? CAN_RXIMR_COUNT)
  | LPIT0_TVAL k | LPIT0_CVAL k | LPIT0_TCTRL k => (0 <=? k) && (k <? LPIT_TMR_COUNT)
  | PCC_PCCn k => (0 <=? k) && (k <? PCC_PCCn_COUNT)
  | S32_NVIC_ISER k => (0 <=? k) && (k <? S32_NVIC_ISER_COUNT)
  | PORTA_PCR k | PORTB_PCR k | PORTE_PCR k => (0 <=? k) && (k <? PORT_PCR_COUNT)
  | _ => true
  end.

Definition next_regs (a : Access) (rs : Regs) : Regs :=
  let reacted := react a rs in
  fun r =>
    if is_RAMn r then
      match a with
      | Wr r' v => if decide (r' = r) then v else rs r
      | Rd _ _ => rs r
      end
    else reacted r.

Definition access (a : Access) (m : Machine) : Machine :=
  {| regs := next_regs a (regs m);
     g_frame_ISRbuffer := g_frame_ISRbuffer m;
     g_discarded_frames_count := g_discarded_frames_count m;
     interrupts_enabled := interrupts_enabled m;
     trace := a :: trace m |}.

(** A volatile read and a volatile write of a 32-bit register. *)
Definition rd (r : Reg) : M Z :=
  fun m => if reg_ok r
           then let v := u32 (regs m r) in Done v (access (Rd r v) m)
           else Fault.

Definition wr (r : Reg) (v : Z) : M unit :=
  fun m => if reg_ok r then Done tt (access (Wr r (u32 v)) m) else Fault.

(** [REG |= bits], [REG &= ~bits]. *)
Definition set_bits (r : Reg) (bits : Z) : M unit :=
  v <- rd r ;; wr r (Z.lor v bits).

Definition clear_bits (r : Reg) (bits : Z) : M unit :=
  v <- rd r ;; wr r (Z.land v (u32 (Z.lnot bits))).

(** DISABLE_INTERRUPTS() and ENABLE_INTERRUPTS(). *)
Definition set_interrupts (b : bool) : M unit :=
  fun m => Done tt {| regs := regs m;
                      g_frame_ISRbuffer := g_frame_ISRbuffer m;
                      g_discarded_frames_count := g_discarded_frames_count m;
                      interrupts_enabled := b;
                      trace := trace m |}.
Definition DISABLE_INTERRUPTS : M unit := set_interrupts false.
Definition ENABLE_INTERRUPTS : M unit := set_interrupts true.

(** The reception FIFO [S32K::g_frame_ISRbuffer[i]] as a deque: a sequence
    with [push_back] at its end and [pop_front] at its head.  The pool
    allocator behind the deque is not modelled: [push_back] always finds
    room. *)
Definition with_queues (qs : list (list CAN.Frame)) (m : Machine) : Machine :=
  {| regs := regs m;
     g_frame_ISRbuffer := qs;
     g_discarded_frames_count := g_discarded_frames_count m;
     interrupts_enabled := interrupts_enabled m;
     trace := trace m |}.

Definition with_discarded (cs : list Z) (m : Machine) : Machine :=
  {| regs := regs m;
     g_frame_ISRbuffer := g_frame_ISRbuffer m;
     g_discarded_frames_count := cs;
     interrupts_enabled := interrupts_enabled m;
     trace := trace m |}.

Definition deque (i : Z) : M (list CAN.Frame) :=
  fun m => match at_index (g_frame_ISRbuffer m) i with
           | Some q => Done q m
           | None => Fault
           end.

Definition deque_size (i : Z) : M Z :=
  q <- deque i ;; ret (Z.of_nat (length q)).

Definition deque_empty (i : Z) : M bool :=
  q <- deque i ;; ret (match q with [] => true | _ => false end).

Definition deque_push_back (i : Z) (f : CAN.Frame) : M unit :=
  q <- deque i ;;
  fun m => Done tt (with_queues (set_index (g_frame_ISRbuffer m) i (q ++ [f])) m).

(** [front()] and [pop_front()] are called on a non-empty deque only. *)
Definition deque_front (i : Z) : M CAN.Frame :=
  q <- deque i ;;
  match q with
  | f :: _ => ret f
  | [] => fault
  end.

Definition deque_pop_front (i : Z) : M unit :=
  q <- deque i ;;
  match q with
  | _ :: q' => fun m => Done tt (with_queues (set_index (g_frame_ISRbuffer m) i q') m)
  | [] => fault
  end.

(** [S32K::g_discarded_frames_count[i]++] on a [std::uint32_t]. *)
Definition discarded_incr (i : Z) : M unit :=
  fun m => match at_index (g_discarded_frames_count m) i with
           | Some c => Done tt (with_discarded
                                  (set_index (g_discarded_frames_count m) i (u32 (c + 1))) m)
           | None => Fault
           end.

Definition element {A} (l : list A) (i : Z) : M A :=
  match at_index l i with
  | Some x => ret x
  | None => fault
  end.

(** [while (cond(REG)) {}]: spin on a register. *)
Definition spin_while (fuel : nat) (r : Reg) (cond : Z -> bool) : M unit :=
  iter fuel (fun _ : unit => v <- rd r ;; ret (if cond v then inl tt else inr tt)) tt.

(** *** namespace S32K: timed polls *)

Definition flagPollTimeout_Set (fuel : nat) (flagRegister : Reg) (flag_Mask : Z) : M Result :=
  let delta := 0 in
  set_bits LPIT0_CLRTEN (LPIT_CLRTEN_CLR_T_EN_2 1) ;;
  wr (LPIT0_TVAL 2) LPIT_TMR_CVAL_TMR_CUR_VAL_MASK ;;
  set_bits LPIT0_SETTEN (LPIT_SETTEN_SET_T_EN_2 1) ;;
  iter fuel
       (fun delta =>
          if delta <? S32K.cycles_timeout then
            flag <- rd flagRegister ;;
            if negb (flag .&. flag_Mask =? 0) then ret (inr Success)
            else cval <- rd (LPIT0_CVAL 2) ;;
                 ret (inl (u32 (LPIT_TMR_CVAL_TMR_CUR_VAL_MASK - cval)))
          else ret (inr Failure))
       delta.

Definition flagPollTimeout_Clear (fuel : nat) (flagRegister : Reg) (flag_Mask : Z) : M Result :=
  let delta := 0 in
  set_bits LPIT0_CLRTEN (LPIT_CLRTEN_CLR_T_EN_2 1) ;;
  wr (LPIT0_TVAL 2) LPIT_TMR_CVAL_TMR_CUR_VAL_MASK ;;
  set_bits LPIT0_SETTEN (LPIT_SETTEN_SET_T_EN_2 1) ;;
  iter fuel
       (fun delta =>
          if delta <? S32K.cycles_timeout then
            flag <- rd flagRegister ;;
            if flag .&. flag_Mask =? 0 then ret (inr Success)
            else cval <- rd (LPIT0_CVAL 2) ;;
                 ret (inl (u32 (LPIT_TMR_CVAL_TMR_CUR_VAL_MASK - cval)))
          else ret (inr Failure))
       delta.

(** *** S32K_InterfaceGroup *)

(** Modelled from the spec: TxFramesLen and RxFramesLen are template arguments
    fixed in the absent driver header; one frame per call in either direction
    ("capacity for one call is exactly one frame", and the source's comments on
    [out_frames_written] and [out_frames_read]). *)
Definition TxFramesLen : Z := 1.
Definition RxFramesLen : Z := 1.

(** [native_FrameData[i]]: the frame's data array read as 32-bit words on the
    little-endian core. *)
Definition native_FrameData (frame : CAN.Frame) (i : Z) : Z :=
  let b k := nth (Z.to_nat (4 * i + k)) (CAN.data frame) 0 in
  b 0 .|. Z.shiftl (b 1) 8 .|. Z.shiftl (b 2) 16 .|. Z.shiftl (b 3) 24.

(** A word array seen through a [std::uint8_t*]. *)
Definition word_bytes (w : Z) : list Z :=
  [w .&. 0xFF; Z.shiftr w 8 .&. 0xFF; Z.shiftr w 16 .&. 0xFF; Z.shiftr w 24 .&. 0xFF].

Definition words_bytes (ws : list Z) : list Z := concat (map word_bytes ws).

(** Number of payload words: [(len >> 2) + std::min(1, len & 0x3)]. *)
Definition payload_words (payloadLength : Z) : Z :=
  Z.shiftr payloadLength 2 + Z.min 1 (u8 payloadLength .&. 0x3).

Definition messageBuffer_Transmit (fuel : nat) (iface_index TX_MB_index : Z)
           (frame : CAN.Frame) : M Result :=
  let payloadLength := CAN.getDataLength frame in
  for_range (payload_words payloadLength)
            (fun i =>
               wr (CAN_RAMn iface_index
                            (TX_MB_index * S32K.MB_Size_Words + S32K.MB_Data_Offset + i))
                  (REV_BYTES_32 (native_FrameData frame i))) ;;
  wr (CAN_RAMn iface_index (TX_MB_index * S32K.MB_Size_Words + 1))
     (CAN.id frame .&. CAN_WMBn_ID_ID_MASK) ;;
  wr (CAN_RAMn iface_index (TX_MB_index * S32K.MB_Size_Words))
     (CAN_RAMn_DATA_BYTE_1 0x20 .|. CAN_WMBn_CS_DLC (CAN.getDLC frame)
      .|. CAN_RAMn_DATA_BYTE_0 0xCC) ;;
  Status <- flagPollTimeout_Set fuel (CAN_IFLAG1 iface_index) (Z.shiftl 1 TX_MB_index) ;;
  set_bits (CAN_IFLAG1 iface_index) (Z.shiftl 1 TX_MB_index) ;;
  ret Status.

(** The two halves of the software clock are read left to right. *)
Definition resolve_Timestamp (frame_timestamp : Z) (instance : Z) : M Z :=
  FlexCAN_timestamp <- rd (CAN_TIMER instance) ;;
  cval1 <- rd (LPIT0_CVAL 1) ;;
  cval0 <- rd (LPIT0_CVAL 0) ;;
  let target_source :=
    u64 (Z.shiftl (u32 (0xFFFFFFFF - cval1)) 32 .|. u32 (0xFFFFFFFF - cval0)) in
  let source_delta :=
    if FlexCAN_timestamp >? frame_timestamp
    then FlexCAN_timestamp - frame_timestamp
    else frame_timestamp - FlexCAN_timestamp in
  let resolved_timestamp_ISR := u64 (target_source - source_delta) / 80 in
  ret (fromMicrosecond resolved_timestamp_ISR).

Definition S32K_libuavcan_ISR_handler (instance : Z) : M unit :=
  DISABLE_INTERRUPTS ;;
  iflag1 <- rd (CAN_IFLAG1 instance) ;;
  let MB_index :=
    let sel := iflag1 .&. 124 in
    if sel =? S32K.MessageBuffer2 then 2
    else if sel =? S32K.MessageBuffer3 then 3
    else if sel =? S32K.MessageBuffer4 then 4
    else if sel =? S32K.MessageBuffer5 then 5
    else if sel =? S32K.MessageBuffer6 then 6
    else 0 in
  (if negb (MB_index =? 0) then
     size <- deque_size instance ;;
     (if size <=? S32K.Frame_Capacity then
        cs <- rd (CAN_RAMn instance (MB_index * S32K.MB_Size_Words)) ;;
        let dlc_ISR_raw := Z.shiftr (cs .&. CAN_WMBn_CS_DLC_MASK) CAN_WMBn_CS_DLC_SHIFT in
        let dlc_ISR := CAN.FrameDLC dlc_ISR_raw in
        let payloadLength_ISR := u8 (CAN.dlcToLength dlc_ISR) in
        idw <- rd (CAN_RAMn instance (MB_index * S32K.MB_Size_Words + 1)) ;;
        let id_ISR := idw .&. CAN_WMBn_ID_ID_MASK in
        let words := Z.to_nat (payload_words payloadLength_ISR) in
        data_ISR_word <-
          for_loop words 0
                   (fun i data_ISR_word =>
                      w <- rd (CAN_RAMn instance
                                        (MB_index * S32K.MB_Size_Words
                                         + S32K.MB_Data_Offset + i)) ;;
                      ret (set_index data_ISR_word i (REV_BYTES_32 w)))
                   (replicate words 0) ;;
        ts <- rd (CAN_RAMn instance (MB_index * S32K.MB_Size_Words)) ;;
        let MB_timestamp := ts .&. 0xFFFF in
        timestamp_ISR <- resolve_Timestamp MB_timestamp instance ;;
        let FrameISR :=
          CAN.Frame_ctor id_ISR (words_bytes data_ISR_word) dlc_ISR timestamp_ISR in
        deque_push_back instance FrameISR
      else
        discarded_incr instance) ;;
     set_bits (CAN_IFLAG1 instance) (Z.shiftl 1 MB_index)
   else ret tt) ;;
  ENABLE_INTERRUPTS.

Definition getInterfaceCount : Z := CANFD_Count.

(** [frames] is the reference to the array of [TxFramesLen] frames; the
    result carries the status and [out_frames_written]. *)
Definition write (fuel : nat) (interface_index : Z) (frames : list CAN.Frame)
           (frames_len : Z) (out_frames_written : Z) : M (Result * Z) :=
  let Status := BufferFull in
  let Status :=
    if (frames_len >? TxFramesLen) || (interface_index >? CANFD_Count)
    then BadArgument else Status in
  imb <- rd (CAN_ESR2 (interface_index - 1)) ;;
  ready <- (if negb (imb .&. CAN_ESR2_IMB_MASK =? 0)
            then vps <- rd (CAN_ESR2 (interface_index - 1)) ;;
                 ret (negb (vps .&. CAN_ESR2_VPS_MASK =? 0))
            else ret false) ;;
  if ready : bool then
    esr2 <- rd (CAN_ESR2 (interface_index - 1)) ;;
    let mb_index := u8 (Z.shiftr (esr2 .&. CAN_ESR2_LPTM_MASK) CAN_ESR2_LPTM_SHIFT) in
    frame0 <- element frames 0 ;;
    Status <- messageBuffer_Transmit fuel (interface_index - 1) mb_index frame0 ;;
    ret (Status, if isSuccess Status then TxFramesLen else 0)
  else
    ret (Status, out_frames_written).

(** [out_frames] is the reference to the array of [RxFramesLen] frames; the
    result carries the status, the array and [out_frames_read]. *)
Definition read (interface_index : Z) (out_frames : list CAN.Frame)
  : M (Result * list CAN.Frame * Z) :=
  let Status := SuccessNothing in
  let out_frames_read := 0 in
  let Status := if interface_index >? CANFD_Count then BadArgument else Status in
  if isSuccess Status then
    empty <- deque_empty (interface_index - 1) ;;
    if negb empty then
      front <- deque_front (interface_index - 1) ;;
      let out_frames := set_index out_frames 0 front in
      deque_pop_front (interface_index - 1) ;;
      let out_frames_read := RxFramesLen in
      let Status := Success in
      ret (Status, out_frames, out_frames_read)
    else ret (Status, out_frames, out_frames_read)
  else ret (Status, out_frames, out_frames_read).

(** The three statements that program reception mailbox [j + 2] from
    [filter_config[j]], shared by reconfigureFilters and
    startInterfaceGroup. *)
Definition program_filter (i : Z) (filter_config : list CAN.Filter) (j : Z) : M unit :=
  filter <- element filter_config j ;;
  wr (CAN_RXIMR i (j + 2)) (CAN.mask filter) ;;
  wr (CAN_RAMn i ((j + 2) * S32K.MB_Size_Words))
     (CAN_RAMn_DATA_BYTE_0 0xC4 .|. CAN_RAMn_DATA_BYTE_1 0x20) ;;
  wr (CAN_RAMn i ((j + 2) * S32K.MB_Size_Words + 1)) (CAN.filter_id filter).

Definition reconfigureFilters (fuel : nat) (filter_config : list CAN.Filter)
           (filter_config_length : Z) : M Result :=
  let Status := Success in
  let Status := if filter_config_length >? S32K.Filter_Count then BadArgument else Status in
  if isSuccess Status then
    for_loop (Z.to_nat CANFD_Count) 0
      (fun i Status =>
         set_bits (CAN_MCR i) (CAN_MCR_HALT_MASK .|. CAN_MCR_FRZ_MASK) ;;
         if isSuccess Status then
           for_range CAN_RAMn_COUNT (fun j => wr (CAN_RAMn i j) 0) ;;
           for_range CAN_RXIMR_COUNT (fun j => wr (CAN_RXIMR i j) 0) ;;
           for_u8 fuel filter_config_length (program_filter i filter_config) ;;
           clear_bits (CAN_MCR i) (CAN_MCR_HALT_MASK .|. CAN_MCR_FRZ_MASK) ;;
           if isSuccess Status then
             Status <- flagPollTimeout_Clear fuel (CAN_MCR i) CAN_MCR_FRZACK_MASK ;;
             if isSuccess Status then
               flagPollTimeout_Clear fuel (CAN_MCR i) CAN_MCR_NOTRDY_MASK
             else ret Status
           else ret Status
         else ret Status)
      Status
  else ret Status.

(** [select]: the timeout is compared in timer ticks against the microsecond
    count of [timeout], as the source does. *)
Definition select (fuel : nat) (timeout : Z) (ignore_write_available : bool) : M Result :=
  let cycles_timeout := u32 (toMicrosecond timeout) in
  let delta := 0 in
  set_bits LPIT0_CLRTEN (LPIT_CLRTEN_CLR_T_EN_3 1) ;;
  wr (LPIT0_TVAL 3) LPIT_TMR_CVAL_TMR_CUR_VAL_MASK ;;
  set_bits LPIT0_SETTEN (LPIT_SETTEN_SET_T_EN_3 1) ;;
  iter fuel
       (fun delta =>
          if delta <? cycles_timeout then
            found <-
              for_until (Z.to_nat CANFD_Count) 0
                (fun i =>
                   empty <- deque_empty i ;;
                   if negb empty then ret (Some Success)
                   else if negb ignore_write_available then
                     imb <- rd (CAN_ESR2 i) ;;
                     if negb (imb .&. CAN_ESR2_IMB_MASK =? 0) then
                       vps <- rd (CAN_ESR2 i) ;;
                       if negb (vps .&. CAN_ESR2_VPS_MASK =? 0) then ret (Some Success)
                       else ret None
                     else ret None
                   else ret None) ;;
            match found with
            | Some Status => ret (inr Status)
            | None =>
                cval <- rd (LPIT0_CVAL 3) ;;
                ret (inl (u32 (LPIT_TMR_CVAL_TMR_CUR_VAL_MASK - cval)))
            end
          else ret (inr SuccessTimeout))
       delta.

(** *** S32K_InterfaceManager *)

Definition startInterfaceGroup (fuel : nat) (filter_config : list CAN.Filter)
           (filter_config_length : Z) (out_group : InterfaceGroupPtrType)
  : M (Result * InterfaceGroupPtrType) :=
  let Status := Success in
  let out_group := nullptr in
  let Status := if filter_config_length >? S32K.Filter_Count then BadArgument else Status in
  (* System oscillator *)
  clear_bits SCG_SOSCCSR SCG_SOSCCSR_LK_MASK ;;
  clear_bits SCG_SOSCCSR SCG_SOSCCSR_SOSCEN_MASK ;;
  wr SCG_SOSCCFG (SCG_SOSCCFG_EREFS_MASK .|. SCG_SOSCCFG_RANGE 2) ;;
  wr SCG_SOSCCSR SCG_SOSCCSR_SOSCEN_MASK ;;
  set_bits SCG_SOSCCSR SCG_SOSCCSR_LK_MASK ;;
  spin_while fuel SCG_SOSCCSR (fun v => v .&. SCG_SOSCCSR_SOSCVLD_MASK =? 0) ;;
  (* System PLL *)
  clear_bits SCG_SPLLCSR SCG_SPLLCSR_LK_MASK ;;
  clear_bits SCG_SPLLCSR SCG_SPLLCSR_SPLLEN_MASK ;;
  wr SCG_SPLLCFG (SCG_SPLLCFG_MULT 24) ;;
  set_bits SCG_SPLLDIV (SCG_SPLLDIV_SPLLDIV2 1) ;;
  set_bits SCG_SPLLCSR SCG_SPLLCSR_SPLLEN_MASK ;;
  set_bits SCG_SPLLCSR SCG_SPLLCSR_LK_MASK ;;
  spin_while fuel SCG_SPLLCSR (fun v => v .&. SCG_SPLLCSR_SPLLVLD_MASK =? 0) ;;
  wr SCG_RCCR (SCG_RCCR_SCS 6 .|. SCG_RCCR_DIVCORE 1 .|. SCG_RCCR_DIVBUS 1
               .|. SCG_RCCR_DIVSLOW 2) ;;
  (* Timestamping timer: chained LPIT channels 0 and 1 *)
  set_bits (PCC_PCCn PCC_LPIT_INDEX) (PCC_PCCn_PCS 6) ;;
  set_bits (PCC_PCCn PCC_LPIT_INDEX) (PCC_PCCn_CGC 1) ;;
  set_bits LPIT0_MCR (LPIT_MCR_M_CEN 1) ;;
  set_bits (LPIT0_TCTRL 0) (LPIT_TMR_TCTRL_MODE 0) ;;
  set_bits (LPIT0_TCTRL 1) (LPIT_TMR_TCTRL_MODE 0) ;;
  set_bits (LPIT0_TCTRL 2) (LPIT_TMR_TCTRL_MODE 0) ;;
  set_bits (LPIT0_TCTRL 1) (LPIT_TMR_TCTRL_CHAIN 1) ;;
  wr (LPIT0_TVAL 0) LPIT_TMR_TVAL_TMR_VAL_MASK ;;
  wr (LPIT0_TVAL 1) LPIT_TMR_TVAL_TMR_VAL_MASK ;;
  set_bits LPIT0_SETTEN (LPIT_SETTEN_SET_T_EN_0 1 .|. LPIT_SETTEN_SET_T_EN_1 1) ;;
  spin_while fuel (LPIT0_CVAL 0) (fun v => v =? LPIT_TMR_CVAL_TMR_CUR_VAL_MASK) ;;
  (* FlexCAN instances *)
  for_range CANFD_Count
    (fun i =>
       pcc <- element S32K.PCC_FlexCAN_Index i ;;
       wr (PCC_PCCn pcc) PCC_PCCn_CGC_MASK ;;
       set_bits (CAN_MCR i) CAN_MCR_MDIS_MASK ;;
       clear_bits (CAN_CTRL1 i) CAN_CTRL1_CLKSRC_MASK ;;
       set_bits (CAN_CTRL1 i) CAN_CTRL1_CLKSRC_MASK ;;
       clear_bits (CAN_MCR i) CAN_MCR_MDIS_MASK ;;
       set_bits (CAN_MCR i) (CAN_MCR_HALT_MASK .|. CAN_MCR_FRZ_MASK) ;;
       spin_while fuel (CAN_MCR i) (fun v => v .&. CAN_MCR_FRZACK_MASK =? 0) ;;
       set_bits (CAN_MCR i) (CAN_MCR_FDEN_MASK .|. CAN_MCR_FRZ_MASK) ;;
       set_bits (CAN_CTRL2 i) CAN_CTRL2_ISOCANFDEN_MASK ;;
       set_bits (CAN_CBT i)
                (CAN_CBT_BTF_MASK .|. CAN_CBT_EPRESDIV 0 .|. CAN_CBT_EPROPSEG 46
                 .|. CAN_CBT_EPSEG1 18 .|. CAN_CBT_EPSEG2 12 .|. CAN_CBT_ERJW 12) ;;
       set_bits (CAN_FDCBT i)
                (CAN_FDCBT_FPRESDIV 0 .|. CAN_FDCBT_FPROPSEG 7 .|. CAN_FDCBT_FPSEG1 6
                 .|. CAN_FDCBT_FPSEG2 4 .|. CAN_FDCBT_FRJW 4) ;;
       set_bits (CAN_FDCTRL i)
                (CAN_FDCTRL_FDRATE_MASK .|. CAN_FDCTRL_TDCEN_MASK .|. CAN_FDCTRL_TDCOFF 5
                 .|. CAN_FDCTRL_MBDSR0 3) ;;
       for_range CAN_RAMn_COUNT (fun j => wr (CAN_RAMn i j) 0) ;;
       for_range CAN_RXIMR_COUNT (fun j => wr (CAN_RXIMR i j) 0) ;;
       clear_bits (CAN_MCR i) CAN_MCR_MAXMB_MASK ;;
       set_bits (CAN_MCR i) (CAN_MCR_MAXMB 6 .|. CAN_MCR_SRXDIS_MASK .|. CAN_MCR_IRMQ_MASK) ;;
       for_u8 fuel filter_config_length (program_filter i filter_config) ;;
       nvic <- element S32K.FlexCAN_NVIC_Indices i ;;
       wr (S32_NVIC_ISER (fst nvic)) (snd nvic) ;;
       wr (CAN_IMASK1 i) (CAN_IMASK1_BUF31TO0M 124) ;;
       clear_bits (CAN_MCR i) (CAN_MCR_HALT_MASK .|. CAN_MCR_FRZ_MASK) ;;
       spin_while fuel (CAN_MCR i) (fun v => negb (v .&. CAN_MCR_FRZACK_MASK =? 0)) ;;
       spin_while fuel (CAN_MCR i) (fun v => negb (v .&. CAN_MCR_NOTRDY_MASK =? 0))) ;;
  (* Pins *)
  set_bits (PCC_PCCn PCC_PORTE_INDEX) PCC_PCCn_CGC_MASK ;;
  set_bits (PORTE_PCR 4) (PORT_PCR_MUX 5) ;;
  set_bits (PORTE_PCR 5) (PORT_PCR_MUX 5) ;;
  (match mcu with
   | MCU_S32K146 | MCU_S32K148 =>
       set_bits (PCC_PCCn PCC_PORTA_INDEX) PCC_PCCn_CGC_MASK ;;
       set_bits (PORTA_PCR 12) (PORT_PCR_MUX 3) ;;
       set_bits (PORTA_PCR 13) (PORT_PCR_MUX 3) ;;
       if UAVCAN_NODE_BOARD_USED then
         set_bits (PORTE_PCR 11) (PORT_PCR_MUX 1) ;;
         set_bits PTE_PDDR (Z.shiftl 1 11) ;;
         set_bits PTE_PCOR (Z.shiftl 1 11) ;;
         set_bits (PORTE_PCR 10) (PORT_PCR_MUX 1) ;;
         set_bits PTE_PDDR (Z.shiftl 1 10) ;;
         set_bits PTE_PCOR (Z.shiftl 1 10)
       else ret tt
   | _ => ret tt
   end) ;;
  (match mcu with
   | MCU_S32K148 =>
       set_bits (PCC_PCCn PCC_PORTB_INDEX) PCC_PCCn_CGC_MASK ;;
       set_bits (PORTB_PCR 12) (PORT_PCR_MUX 4) ;;
       set_bits (PORTB_PCR 13) (PORT_PCR_MUX 4)
   | _ => ret tt
   end) ;;
  let out_group := addr_S32K_InterfaceGroupObj_ in
  ret (Status, out_group).

Definition stopInterfaceGroup (fuel : nat) (inout_group : InterfaceGroupPtrType)
  : M (Result * InterfaceGroupPtrType) :=
  let Status := Success in
  Status <-
    for_loop (Z.to_nat CANFD_Count) 0
      (fun i Status =>
         set_bits (CAN_MCR i) CAN_MCR_MDIS_MASK ;;
         if isSuccess Status then
           Status <- flagPollTimeout_Set fuel (CAN_MCR i) CAN_MCR_LPMACK_MASK ;;
           if isSuccess Status then
             pcc <- element S32K.PCC_FlexCAN_Index i ;;
             clear_bits (PCC_PCCn pcc) PCC_PCCn_CGC_MASK ;;
             ret Status
           else ret Status
         else ret Status)
      Status ;;
  set_bits LPIT0_MCR (LPIT_MCR_SW_RST 1) ;;
  spin_while fuel (LPIT0_CVAL 0) (fun v => negb (v =? LPIT_TMR_CVAL_TMR_CUR_VAL_MASK)) ;;
  clear_bits LPIT0_MCR LPIT_MCR_SW_RST_MASK ;;
  clear_bits LPIT0_MCR LPIT_MCR_M_CEN_MASK ;;
  clear_bits (PCC_PCCn PCC_LPIT_INDEX) PCC_PCCn_CGC_MASK ;;
  let inout_group := nullptr in
  ret (Status, inout_group).

Definition getMaxFrameFilters : Z := S32K.Filter_Count.

(** The interrupt vector entries. *)
Definition CAN0_ORed_0_15_MB_IRQHandler : M unit := S32K_libuavcan_ISR_handler 0.
Definition CAN1_ORed_0_15_MB_IRQHandler : M unit := S32K_libuavcan_ISR_handler 1.
Definition CAN2_ORed_0_15_MB_IRQHandler : M unit := S32K_libuavcan_ISR_handler 2.

End Driver.

(** ** Specification vocabulary *)

(** Weakest preconditions: [wp] asks the computation to end with a value,
    [wlp] lets it fault or run out of fuel. *)
Definition wp {A} (c : M A) (Q : A -> Machine -> Prop) (m : Machine) : Prop :=
  match c m with
  | Done a m' => Q a m'
  | _ => False
  end.

Definition wlp {A} (c : M A) (Q : A -> Machine -> Prop) (m : Machine) : Prop :=
  match c m with
  | Done a m' => Q a m'
  | _ => True
  end.

(** Hoare triples, partial and total. *)
Definition hoare {A} (P : Machine -> Prop) (c : M A) (Q : A -> Machine -> Prop) : Prop :=
  forall m, P m -> wlp c Q m.

Definition total {A} (P : Machine -> Prop) (c : M A) (Q : A -> Machine -> Prop) : Prop :=
  forall m, P m -> wp c Q m.

(** [io m m']: [m'] differs from [m] at most in the registers outside the
    message-buffer RAM and in the trace. *)
Record io (m m' : Machine) : Prop := mk_io {
  io_ram : forall i j, regs m' (CAN_RAMn i j) = regs m (CAN_RAMn i j);
  io_queues : g_frame_ISRbuffer m' = g_frame_ISRbuffer m;
  io_discarded : g_discarded_frames_count m' = g_discarded_frames_count m
}.

(** A property of machines that no bus access and no masking of interrupts
    disturbs. *)
Definition access_stable {peripherals : Peripherals} (P : Machine -> Prop) : Prop :=
  (forall a m, P m -> P (access a m)) /\
  (forall b m, P m -> P {| regs := regs m;
                           g_frame_ISRbuffer := g_frame_ISRbuffer m;
                           g_discarded_frames_count := g_discarded_frames_count m;
                           interrupts_enabled := b;
                           trace := trace m |}).

(** A property of machines that no change of the reception queues disturbs. *)
Definition queue_stable (P : Machine -> Prop) : Prop :=
  forall qs m, P m -> P {| regs := regs m;
                           g_frame_ISRbuffer := qs;
                           g_discarded_frames_count := g_discarded_frames_count m;
                           interrupts_enabled := interrupts_enabled m;
                           trace := trace m |}.

(** The value a computation ends with, if it ends. *)
Definition value_of {A} (o : Outcome A) : option A :=
  match o with
  | Done a _ => Some a
  | _ => None
  end.

(** The discard counters hold [D]. *)
Definition counters_are (D : list Z) (m : Machine) : Prop :=
  g_discarded_frames_count m = D.

(** The discard counters hold [D], or [D] with the counter of [instance] one
    further (modulo 2^32). *)
Definition counters_stepped (D : list Z) (instance : Z) (m : Machine) : Prop :=
  g_discarded_frames_count m = D \/
  exists c, at_index D instance = Some c /\
            g_discarded_frames_count m = set_index D instance (u32 (c + 1)).

(** Byte [k] of a word, least significant first. *)
Definition byte_at (w k : Z) : Z := (w / 2 ^ (8 * k)) mod 2 ^ 8.

(** The bus accesses a computation makes from machine [m], oldest first. *)
Definition accesses_of {A} (c : M A) (m : Machine) : list Access :=
  let m' := match c m with Done _ m' => m' | _ => m end in
  rev (take (length (trace m') - length (trace m)) (trace m')).

(** No read of a module configuration register shows the freeze
    acknowledge. *)
Definition FRZACK_unseen (a : Access) : bool :=
  match a with
  | Rd (CAN_MCR _) v => v .&. CAN_MCR_FRZACK_MASK =? 0
  | _ => true
  end.

Definition is_RAMn_write (a : Access) : bool :=
  match a with
  | Wr (CAN_RAMn _ _) _ => true
  | _ => false
  end.

(** The trace ends (oldest accesses last) with [T]. *)
Definition trace_extends (T : list Access) (m : Machine) : Prop :=
  exists later, trace m = later ++ T.

(** The machine a computation leaves behind (the machine itself when it does
    not end). *)
Definition after {A} (c : M A) (m : Machine) : Machine :=
  match c m with
  | Done _ m' => m'
  | _ => m
  end.

(** A frame as the transport library hands it to the driver. *)
Definition frame_ok (f : CAN.Frame) : Prop :=
  0 <= CAN.id f < 2 ^ 29 /\
  0 <= CAN.dlc_ f <= 15 /\
  length (CAN.data f) = Z.to_nat CAN.MaxFrameSizeBytes /\
  Forall (fun b => 0 <= b < 256) (CAN.data f).

(** The frame the reception handler builds from mailbox [mb] of instance [i],
    given the register file [rs] and the reconciled timestamp [ts]. *)
Definition mailbox_words (rs : Regs) (i mb : Z) (n : nat) : list Z :=
  map (fun k => REV_BYTES_32
                  (u32 (rs (CAN_RAMn i (mb * S32K.MB_Size_Words + S32K.MB_Data_Offset
                                        + Z.of_nat k)))))
      (seq 0 n).

Definition mailbox_frame (rs : Regs) (i mb : Z) (ts : Z) : CAN.Frame :=
  let cs := u32 (rs (CAN_RAMn i (mb * S32K.MB_Size_Words))) in
  let dlc := CAN.FrameDLC (Z.shiftr (cs .&. CAN_WMBn_CS_DLC_MASK) CAN_WMBn_CS_DLC_SHIFT) in
  let n := Z.to_nat (payload_words (u8 (CAN.dlcToLength dlc))) in
  CAN.Frame_ctor (u32 (rs (CAN_RAMn i (mb * S32K.MB_Size_Words + 1))) .&. CAN_WMBn_ID_ID_MASK)
                 (words_bytes (mailbox_words rs i mb n)) dlc ts.

(** The bus carries a frame from transmit mailbox [tx] of instance [i] in
    machine [ms] to reception mailbox [rx] of instance [j] in machine [mr]:
    the identifier word, the payload words and the DLC field of the control
    word arrive unchanged (code and time stamp are the receiver's own). *)
Definition delivered (ms : Machine) (i tx : Z) (mr : Machine) (j rx : Z) : Prop :=
  regs mr (CAN_RAMn j (rx * S32K.MB_Size_Words + 1))
  = regs ms (CAN_RAMn i (tx * S32K.MB_Size_Words + 1)) /\
  (forall k, 0 <= k < 16 ->
             regs mr (CAN_RAMn j (rx * S32K.MB_Size_Words + S32K.MB_Data_Offset + k))
             = regs ms (CAN_RAMn i (tx * S32K.MB_Size_Words + S32K.MB_Data_Offset + k))) /\
  u32 (regs mr (CAN_RAMn j (rx * S32K.MB_Size_Words))) .&. CAN_WMBn_CS_DLC_MASK
  = u32 (regs ms (CAN_RAMn i (tx * S32K.MB_Size_Words))) .&. CAN_WMBn_CS_DLC_MASK.

(** The five reception flags, one at a time. *)
Definition one_rx_flag (sel mb : Z) : Prop :=
  (sel = 4 /\ mb = 2) \/ (sel = 8 /\ mb = 3) \/ (sel = 16 /\ mb = 4)
  \/ (sel = 32 /\ mb = 5) \/ (sel = 64 /\ mb = 6).

(** The 64-bit software clock built from the two chained down-counters, given
    the values read from their CVAL registers. *)
Definition software_clock (cval1 cval0 : Z) : Z :=
  (2 ^ 32 - 1 - cval1) * 2 ^ 32 + (2 ^ 32 - 1 - cval0).

(** [n] successive calls of [read] with the caller's one-frame array
    [out_frames], collecting the frames handed out. *)
Fixpoint read_n {target : Target} (n : nat) (interface_index : Z)
         (out_frames : list CAN.Frame) : M (list CAN.Frame) :=
  match n with
  | O => ret []
  | S n' =>
      r <- read interface_index out_frames ;;
      rest <- read_n n' interface_index r.1.2 ;;
      ret (take (Z.to_nat r.2) r.1.2 ++ rest)
  end.

(** ** Peripheral models used to run the driver on concrete machines *)

(** Registers that keep what was written and never change by themselves. *)
Definition quiet : Peripherals :=
  fun a rs => match a with
              | Wr r v => upd r v rs
              | Rd _ _ => rs
              end.

(** A FlexCAN/LPIT/SCG model: interrupt flags are write-one-to-clear, an
    enabled timer channel has counted [sim_tick] cycles further each time it is
    read, the clock sources report valid once enabled, a transmit mailbox
    raises its flag when its control word is written with code 0xC, and the
    module status bits of MCR follow the requests ([freeze_acks] tells whether
    the module acknowledges a freeze request at all). *)
Definition sim_tick : Z := 0x100000.

Definition sim_mcr (freeze_acks : bool) (v : Z) : Z :=
  let requested := negb (v .&. CAN_MCR_HALT_MASK =? 0) && negb (v .&. CAN_MCR_FRZ_MASK =? 0) in
  let frozen := freeze_acks && requested in
  let disabled := negb (v .&. CAN_MCR_MDIS_MASK =? 0) in
  (v .&. u32 (Z.lnot (CAN_MCR_FRZACK_MASK .|. CAN_MCR_NOTRDY_MASK .|. CAN_MCR_LPMACK_MASK)))
  .|. (if frozen then CAN_MCR_FRZACK_MASK else 0)
  .|. (if frozen || disabled then CAN_MCR_NOTRDY_MASK else 0)
  .|. (if disabled then CAN_MCR_LPMACK_MASK else 0).

Definition sim_clock_status (v : Z) : Z :=
  if v .&. 1 =? 0 then v .&. u32 (Z.lnot 0x1000000) else v .|. 0x1000000.

Definition sim (freeze_acks : bool) : Peripherals :=
  fun a rs =>
    match a with
    | Rd (LPIT0_CVAL k) v =>
        if negb (Z.testbit (rs LPIT0_SETTEN) k) || Z.testbit (rs LPIT0_MCR) 1 then rs
        else upd (LPIT0_CVAL k) (u32 (v - sim_tick)) rs
    | Rd _ _ => rs
    | Wr (CAN_IFLAG1 i) v => upd (CAN_IFLAG1 i) (rs (CAN_IFLAG1 i) .&. u32 (Z.lnot v)) rs
    | Wr (CAN_MCR i) v => upd (CAN_MCR i) (sim_mcr freeze_acks v) rs
    | Wr SCG_SOSCCSR v => upd SCG_SOSCCSR (sim_clock_status v) rs
    | Wr SCG_SPLLCSR v => upd SCG_SPLLCSR (sim_clock_status v) rs
    | Wr (LPIT0_TVAL k) v => upd (LPIT0_TVAL k) v (upd (LPIT0_CVAL k) v rs)
    | Wr LPIT0_SETTEN v => upd LPIT0_SETTEN (rs LPIT0_SETTEN .|. v) rs
    | Wr LPIT0_CLRTEN v => upd LPIT0_SETTEN (rs LPIT0_SETTEN .&. u32 (Z.lnot v)) rs
    | Wr LPIT0_MCR v =>
        if Z.testbit v 1
        then upd LPIT0_MCR v (upd LPIT0_SETTEN 0 (fun r => match r with
                                                           | LPIT0_CVAL _ => 0xFFFFFFFF
                                                           | _ => rs r
                                                           end))
        else upd LPIT0_MCR v rs
    | Wr (CAN_RAMn i j) v =>
        if (j mod S32K.MB_Size_Words =? 0) && (Z.shiftr v 24 .&. 0xF =? 0xC)
        then upd (CAN_IFLAG1 i) (rs (CAN_IFLAG1 i) .|. Z.shiftl 1 (j / S32K.MB_Size_Words)) rs
        else rs
    | Wr r v => upd r v rs
    end.

(** The UCANS32K146 node board. *)
Definition S32K146_board : Target :=
  {| mcu := MCU_S32K146; UAVCAN_NODE_BOARD_USED := true |}.

(** The machine after reset: registers zero, timers at their maximum, both
    transmit mailboxes free, queues empty, counters as initialised. *)
Definition power_on {target : Target} : Machine :=
  {| regs := fun r => match r with
                      | CAN_ESR2 _ => CAN_ESR2_IMB_MASK .|. CAN_ESR2_VPS_MASK
                      | LPIT0_CVAL _ => 0xFFFFFFFF
                      | _ => 0
                      end;
     g_frame_ISRbuffer := replicate (Z.to_nat CANFD_Count) [];
     g_discarded_frames_count := DISCARD_COUNT_ARRAY mcu;
     interrupts_enabled := true;
     trace := [] |}.

Definition with_regs (rs : Regs) (m : Machine) : Machine :=
  {| regs := rs;
     g_frame_ISRbuffer := g_frame_ISRbuffer m;
     g_discarded_frames_count := g_discarded_frames_count m;
     interrupts_enabled := interrupts_enabled m;
     trace := trace m |}.

Fixpoint store_words (i : Z) (j : Z) (ws : list Z) (rs : Regs) : Regs :=
  match ws with
  | [] => rs
  | w :: ws' => store_words i (j + 1) ws' (upd (CAN_RAMn i j) w rs)
  end.

(** The hardware stores a received frame (control word, identifier word,
    payload words) in mailbox [mb] of instance [i] and raises its flag. *)
Definition hw_receive (i mb : Z) (cs idw : Z) (payload : list Z) (m : Machine) : Machine :=
  with_regs (upd (CAN_IFLAG1 i) (regs m (CAN_IFLAG1 i) .|. Z.shiftl 1 mb)
                 (store_words i (mb * S32K.MB_Size_Words) (cs :: idw :: payload) (regs m)))
            m.

(** The hardware copies transmit mailbox [tx] of instance [i] into reception
    mailbox [rx] of instance [j] and raises its flag. *)
Definition hw_loopback (i tx j rx : Z) (m : Machine) : Machine :=
  hw_receive j rx (regs m (CAN_RAMn i (tx * S32K.MB_Size_Words)))
             (regs m (CAN_RAMn i (tx * S32K.MB_Size_Words + 1)))
             (map (fun k => regs m (CAN_RAMn i (tx * S32K.MB_Size_Words + S32K.MB_Data_Offset
                                                + Z.of_nat k)))
                  (seq 0 16))
             m.

(** [n] receptions in mailbox 2 of instance [i], each followed by its
    interrupt. *)
Fixpoint receive_n {target : Target} {peripherals : Peripherals}
         (n : nat) (i : Z) (cs idw : Z) (payload : list Z) (m : Machine) : Machine :=
  match n with
  | O => m
  | S n' => receive_n n' i cs idw payload
                      (after (S32K_libuavcan_ISR_handler i) (hw_receive i 2 cs idw payload m))
  end.

(** Sample data. *)
Definition sample_frame (len_dlc : Z) : CAN.Frame :=
  CAN.Frame_ctor 0x1234567 (map Z.of_nat (seq 1 64)) len_dlc 0.

Definition sample_filters : list CAN.Filter :=
  [CAN.mkFilter 0x100 0x7FF; CAN.mkFilter 0x200 0x7FF; CAN.mkFilter 0x300 0x7FF;
   CAN.mkFilter 0x400 0x7FF; CAN.mkFilter 0x500 0x7FF; CAN.mkFilter 0x600 0x7FF].

(** The node board with [n] frames queued on instance 0, the reception flags
    [iflag1] pending there, and [c] frames discarded so far. *)
Definition queued (n : nat) (iflag1 : Z) (c : Z) : Machine :=
  {| regs := upd (CAN_IFLAG1 0) iflag1 (regs (@power_on S32K146_board));
     g_frame_ISRbuffer := [replicate n (CAN.Frame_ctor 0x55 [] 0 0); []];
     g_discarded_frames_count := [c; 0];
     interrupts_enabled := true;
     trace := [] |}.

(** A scenario on the node board: the group is started; 42 frames arrive on
    instance 0 and nobody reads; one more frame is pending; the group is
    stopped. *)
Definition started : Machine :=
  after (@startInterfaceGroup S32K146_board (sim true) 100 sample_filters 5 nullptr)
        (@power_on S32K146_board).

Definition overrun : Machine :=
  @receive_n S32K146_board (sim true) 42 0 0 0x55 [] started.

Definition overrun_pending : Machine := hw_receive 0 2 0 0x55 [] overrun.

Definition stopped : Machine :=
  after (@stopInterfaceGroup S32K146_board (sim true) 100 addr_S32K_InterfaceGroupObj_)
        overrun.

(** A 20-byte frame is transmitted from mailbox 0 of instance 0 and arrives in
    mailbox 3 of instance 1. *)
Definition transmitted : Machine :=
  after (@messageBuffer_Transmit S32K146_board (sim true) 100 0 0 (sample_frame 11)) started.

Definition looped_back : Machine := hw_loopback 0 0 1 3 transmitted.

(** The calls evaluated at the inputs where the driver departs from its
    description. *)
Definition refilter_unacknowledged : M Result :=
  @reconfigureFilters S32K146_board (sim false) 100 sample_filters 5.

Definition refilter_too_many : M Result :=
  @reconfigureFilters S32K146_board (sim true) 100 sample_filters 6.

Definition write_two_frames : M (Result * Z) :=
  @write S32K146_board (sim true) 100 1 [sample_frame 8] 2 0.

Definition start_six_filters : M (Result * InterfaceGroupPtrType) :=
  @startInterfaceGroup S32K146_board (sim true) 100 sample_filters 6 nullptr.

(** ** Vocabulary of the further properties *)

(** Since the trace was [T], every write went to a register of [ws]. *)
Definition writes_within (ws : list Reg) (T : list Access) (m : Machine) : Prop :=
  exists later,
    trace m = later ++ T /\
    Forall (fun a => match a with Wr r _ => r ∈ ws | Rd _ _ => True end) later.

(** Instance [i] holds the filters: mailbox [k + 2] carries the reception
    code and the identifier of filter [k], and every other word of its
    message-buffer RAM is zero. *)
Definition programmed (filter_config : list CAN.Filter) (len : Z) (i : Z) (m : Machine) : Prop :=
  (forall k, 0 <= k < len ->
             exists f, at_index filter_config k = Some f /\
                       regs m (CAN_RAMn i ((k + 2) * S32K.MB_Size_Words))
                       = u32 (CAN_RAMn_DATA_BYTE_0 0xC4 .|. CAN_RAMn_DATA_BYTE_1 0x20) /\
                       regs m (CAN_RAMn i ((k + 2) * S32K.MB_Size_Words + 1))
                       = u32 (CAN.filter_id f)) /\
  (forall j, 0 <= j < CAN_RAMn_COUNT ->
             (forall k, 0 <= k < len ->
                        j <> (k + 2) * S32K.MB_Size_Words /\
                        j <> (k + 2) * S32K.MB_Size_Words + 1) ->
             regs m (CAN_RAMn i j) = 0).

(** Every instance below [k] holds the filters. *)
Definition programmed_below (filter_config : list CAN.Filter) (len : Z) (k : Z)
           (m : Machine) : Prop :=
  forall i, 0 <= i < k -> programmed filter_config len i m.

(** The message-buffer RAM of instance [i] is zero. *)
Definition zeroed (i : Z) (m : Machine) : Prop :=
  forall j, 0 <= j < CAN_RAMn_COUNT -> regs m (CAN_RAMn i j) = 0.

(** The machine with interrupts masked. *)
Definition masked (m : Machine) : Machine :=
  {| regs := regs m;
     g_frame_ISRbuffer := g_frame_ISRbuffer m;
     g_discarded_frames_count := g_discarded_frames_count m;
     interrupts_enabled := false;
     trace := trace m |}.

(** The node board after reset, except that instance 0 reports no inactive
    message buffer. *)
Definition mailboxes_busy : Machine :=
  with_regs (upd (CAN_ESR2 0) 0 (regs (@power_on S32K146_board))) (@power_on S32K146_board).

(** The FlexCAN/LPIT/SCG model with modules that never leave freeze mode:
    every module configuration register shows the freeze acknowledge. *)
Definition sim_stuck : Peripherals :=
  fun a rs =>
    let reacted := sim true a rs in
    fun r => match r with
             | CAN_MCR _ => reacted r .|. CAN_MCR_FRZACK_MASK
             | _ => reacted r
             end.

(** Hardware without a clock: every register reads zero and the timers stay
    at their maximum. *)
Definition unclocked : Peripherals :=
  fun _ _ r => match r with
               | LPIT0_CVAL _ => 0xFFFFFFFF
               | _ => 0
               end.

(** * Properties *)

(** ** Arithmetic of the fixed-width integers *)

Lemma u32_range z : 0 <= u32 z < 2 ^ 32.
Proof. unfold u32. apply Z.mod_pos_bound. lia. Qed.

Lemma u32_small z : 0 <= z < 2 ^ 32 -> u32 z = z.
Proof. intros. unfold u32. apply Z.mod_small. lia. Qed.

Lemma u32_idem z : u32 (u32 z) = u32 z.
Proof. apply u32_small, u32_range. Qed.

Lemma u64_small z : 0 <= z < 2 ^ 64 -> u64 z = z.
Proof. intros. unfold u64. apply Z.mod_small. lia. Qed.

Lemma u8_small z : 0 <= z < 2 ^ 8 -> u8 z = z.
Proof. intros. unfold u8. apply Z.mod_small. lia. Qed.

Lemma gtb_false a b : a <= b -> (a >? b) = false.
Proof. intros. rewrite Z.gtb_ltb. apply Z.ltb_ge. lia. Qed.

Lemma gtb_true a b : b < a -> (a >? b) = true.
Proof. intros. rewrite Z.gtb_ltb. apply Z.ltb_lt. lia. Qed.

(** ** The program logic *)

Section Logic.

Context {target : Target} {peripherals : Peripherals}.

Lemma wp_ret {A} (a : A) Q m : Q a m -> wp (ret a) Q m.
Proof. exact (fun H => H). Qed.

Lemma wp_bind {A B} (c : M A) (k : A -> M B) Q m :
  wp c (fun a m' => wp (k a) Q m') m -> wp (bind c k) Q m.
Proof. unfold wp, bind. destruct (c m); auto. Qed.

Lemma wp_weaken {A} (c : M A) (Q Q' : A -> Machine -> Prop) m :
  wp c Q m -> (forall a m', Q a m' -> Q' a m') -> wp c Q' m.
Proof. unfold wp. destruct (c m); auto. Qed.

Lemma wp_elim {A} (c : M A) Q m :
  wp c Q m -> exists a m', c m = Done a m' /\ Q a m'.
Proof. unfold wp. destruct (c m); [eauto | tauto | tauto]. Qed.

Lemma wlp_ret {A} (a : A) Q m : Q a m -> wlp (ret a) Q m.
Proof. exact (fun H => H). Qed.

Lemma wlp_bind {A B} (c : M A) (k : A -> M B) Q m :
  wlp c (fun a m' => wlp (k a) Q m') m -> wlp (bind c k) Q m.
Proof. unfold wlp, bind. destruct (c m); auto. Qed.

Lemma wlp_weaken {A} (c : M A) (Q Q' : A -> Machine -> Prop) m :
  wlp c Q m -> (forall a m', Q a m' -> Q' a m') -> wlp c Q' m.
Proof. unfold wlp. destruct (c m); auto. Qed.

Lemma wlp_elim {A} (c : M A) Q m a m' :
  wlp c Q m -> c m = Done a m' -> Q a m'.
Proof. unfold wlp. intros H E. now rewrite E in H. Qed.

Lemma wp_wlp {A} (c : M A) Q m : wp c Q m -> wlp c Q m.
Proof. unfold wp, wlp. destruct (c m); auto. Qed.

Lemma wlp_fault {A} (Q : A -> Machine -> Prop) m : wlp fault Q m.
Proof. exact I. Qed.

(** *** Bus accesses *)

Lemma regs_access_ram a m i j :
  regs (access a m) (CAN_RAMn i j)
  = match a with
    | Wr r v => if decide (r = CAN_RAMn i j) then v else regs m (CAN_RAMn i j)
    | Rd _ _ => regs m (CAN_RAMn i j)
    end.
Proof. reflexivity. Qed.

Lemma io_refl m : io m m.
Proof. now constructor. Qed.

Lemma io_trans m1 m2 m3 : io m1 m2 -> io m2 m3 -> io m1 m3.
Proof.
  intros [R1 Q1 D1] [R2 Q2 D2].
  constructor; [intros i j; now rewrite R2, R1 | congruence..].
Qed.

Lemma io_access_rd r v m : io m (access (Rd r v) m).
Proof. now constructor. Qed.

Lemma io_access_wr r v m : is_RAMn r = false -> io m (access (Wr r v) m).
Proof.
  intros Hr. constructor; try reflexivity.
  intros i j. rewrite regs_access_ram. destruct (decide _) as [->|]; [discriminate | reflexivity].
Qed.

Lemma wp_rd r Q m :
  reg_ok r = true ->
  (forall m', io m m' -> trace m' = Rd r (u32 (regs m r)) :: trace m -> Q (u32 (regs m r)) m') ->
  wp (rd r) Q m.
Proof.
  intros Hok HQ. unfold wp, rd. rewrite Hok. apply HQ; [apply io_access_rd | reflexivity].
Qed.

Lemma wp_wr r v Q m :
  reg_ok r = true -> is_RAMn r = false ->
  (forall m', io m m' -> trace m' = Wr r (u32 v) :: trace m -> Q tt m') ->
  wp (wr r v) Q m.
Proof.
  intros Hok Hr HQ. unfold wp, wr. rewrite Hok. apply HQ; [now apply io_access_wr | reflexivity].
Qed.

Lemma wp_set_bits r bits Q m :
  reg_ok r = true -> is_RAMn r = false ->
  (forall m' v, io m m' ->
                trace m' = Wr r (u32 (u32 (regs m r) .|. bits)) :: Rd r (u32 (regs m r)) :: trace m ->
                v = u32 (regs m r) -> Q tt m') ->
  wp (set_bits r bits) Q m.
Proof.
  intros Hok Hr HQ. unfold set_bits. apply wp_bind, wp_rd; [done|]. intros m1 H1 T1.
  apply wp_wr; [done..|]. intros m2 H2 T2.
  apply (HQ m2 (u32 (regs m r))); [eapply io_trans; eauto | now rewrite T2, T1 | reflexivity].
Qed.

(** *** Counted loops *)

Lemma wp_for_loop {S} (I : nat -> S -> Machine -> Prop) n (i0 : Z)
      (body : Z -> S -> M S) s m :
  I 0%nat s m ->
  (forall k s m, (k < n)%nat -> I k s m ->
                 wp (body (i0 + Z.of_nat k) s) (fun s' m' => I (Datatypes.S k) s' m') m) ->
  wp (for_loop n i0 body s) (fun s' m' => I n s' m') m.
Proof.
  revert I i0 s m. induction n as [|n IH]; intros I i0 s m H0 Hstep.
  - exact H0.
  - simpl. apply wp_bind.
    eapply wp_weaken.
    + specialize (Hstep 0%nat s m). rewrite Z.add_0_r in Hstep. apply Hstep; [lia | exact H0].
    + intros s' m' H1. cbv beta in H1.
      apply (IH (fun k => I (Datatypes.S k))); [exact H1|].
      intros k s1 m1 Hk HI.
      replace (i0 + 1 + Z.of_nat k) with (i0 + Z.of_nat (Datatypes.S k)) by lia.
      apply Hstep; [lia | exact HI].
Qed.

Lemma wlp_hoare_step {A} (P : Machine -> Prop) (c : M A) (Q : A -> Machine -> Prop) m :
  hoare P c (fun _ => P) -> P m -> (forall a m', P m' -> Q a m') -> wlp c Q m.
Proof. intros Hc HP HQ. eapply wlp_weaken; [apply Hc, HP | exact HQ]. Qed.

Lemma for_loop_S {S} n i (body : Z -> S -> M S) s :
  for_loop (Datatypes.S n) i body s = (s' <- body i s ;; for_loop n (i + 1) body s').
Proof. reflexivity. Qed.

(** *** Properties kept by every computation built from accesses *)

Lemma hoare_ret {A} (a : A) (P : Machine -> Prop) : hoare P (ret a) (fun _ => P).
Proof. intros m H. exact H. Qed.

Lemma hoare_bind {A B} (P : Machine -> Prop) (Q : A -> Machine -> Prop) R
      (c : M A) (k : A -> M B) :
  hoare P c Q -> (forall a, hoare (Q a) (k a) R) -> hoare P (bind c k) R.
Proof.
  intros Hc Hk m HP. apply wlp_bind. eapply wlp_weaken; [apply Hc, HP|].
  intros a m' HQ. now apply Hk.
Qed.

Lemma hoare_weaken {A} (P P' : Machine -> Prop) (Q Q' : A -> Machine -> Prop) (c : M A) :
  hoare P c Q -> (forall m, P' m -> P m) -> (forall a m, Q a m -> Q' a m) -> hoare P' c Q'.
Proof. intros H HP HQ m Hm. eapply wlp_weaken; [apply H, HP, Hm | exact HQ]. Qed.

Lemma hoare_fault {A} P (Q : A -> Machine -> Prop) : hoare P fault Q.
Proof. intros m _. exact I. Qed.

Lemma hoare_iter {J R} (P : Machine -> Prop) fuel (step : J -> M (J + R)) i :
  (forall i, hoare P (step i) (fun _ => P)) -> hoare P (iter fuel step i) (fun _ => P).
Proof.
  intros Hstep. revert i. induction fuel as [|fuel IH]; intros i.
  - intros m _. exact I.
  - simpl. eapply hoare_bind; [apply Hstep|]. intros [i'|x]; [apply IH | apply hoare_ret].
Qed.

Lemma hoare_for_loop {S} (P : Machine -> Prop) n i (body : Z -> S -> M S) s :
  (forall i s, hoare P (body i s) (fun _ => P)) -> hoare P (for_loop n i body s) (fun _ => P).
Proof.
  intros Hbody. revert i s. induction n as [|n IH]; intros i s.
  - apply hoare_ret.
  - simpl. eapply hoare_bind; [apply Hbody|]. intros s'. apply IH.
Qed.

Section Stable.
Variable P : Machine -> Prop.
Hypothesis P_stable : access_stable P.

Lemma keeps_rd r : hoare P (rd r) (fun _ => P).
Proof using P_stable.
  intros m HP. unfold wlp, rd. destruct (reg_ok r); [|exact I]. now apply P_stable.
Qed.

Lemma keeps_wr r v : hoare P (wr r v) (fun _ => P).
Proof using P_stable.
  intros m HP. unfold wlp, wr. destruct (reg_ok r); [|exact I]. now apply P_stable.
Qed.

Lemma keeps_set_interrupts b : hoare P (set_interrupts b) (fun _ => P).
Proof using P_stable. intros m HP. now apply P_stable. Qed.

Lemma keeps_element {A} (l : list A) i : hoare P (element l i) (fun _ => P).
Proof. unfold element. destruct (at_index l i); [apply hoare_ret | apply hoare_fault]. Qed.
End Stable.

(** *** The driver's own state *)

Lemma wp_set_interrupts b Q m :
  (forall m', io m m' -> regs m' = regs m -> trace m' = trace m -> Q tt m') ->
  wp (set_interrupts b) Q m.
Proof. intros HQ. apply HQ; [now constructor | reflexivity..]. Qed.

Lemma wp_deque i q Q m :
  at_index (g_frame_ISRbuffer m) i = Some q -> Q q m -> wp (deque i) Q m.
Proof. intros E HQ. unfold wp, deque. now rewrite E. Qed.

Lemma wp_deque_push_back i q f Q m :
  at_index (g_frame_ISRbuffer m) i = Some q ->
  Q tt (with_queues (set_index (g_frame_ISRbuffer m) i (q ++ [f])) m) ->
  wp (deque_push_back i f) Q m.
Proof. intros E HQ. unfold deque_push_back. apply wp_bind, (wp_deque i q); done. Qed.

Lemma wp_discarded_incr i c Q m :
  at_index (g_discarded_frames_count m) i = Some c ->
  Q tt (with_discarded (set_index (g_discarded_frames_count m) i (u32 (c + 1))) m) ->
  wp (discarded_incr i) Q m.
Proof. intros E HQ. unfold wp, discarded_incr. now rewrite E. Qed.

End Logic.

(** ** The length code and the payload layout *)

Lemma dlc_field_range cs :
  0 <= Z.shiftr (cs .&. CAN_WMBn_CS_DLC_MASK) CAN_WMBn_CS_DLC_SHIFT <= 15.
Proof.
  unfold CAN_WMBn_CS_DLC_MASK, CAN_WMBn_CS_DLC_SHIFT.
  rewrite Z.shiftr_land. change (Z.shiftr 0xF0000 16) with (Z.ones 4).
  rewrite Z.land_ones by lia. pose proof (Z.mod_pos_bound (Z.shiftr cs 16) (2 ^ 4)). lia.
Qed.

Lemma FrameDLC_small raw : 0 <= raw <= 15 -> CAN.FrameDLC raw = raw.
Proof. intros. unfold CAN.FrameDLC. apply u8_small. lia. Qed.

Lemma dlc_cases dlc :
  0 <= dlc <= 15 ->
  dlc = 0 \/ dlc = 1 \/ dlc = 2 \/ dlc = 3 \/ dlc = 4 \/ dlc = 5 \/ dlc = 6 \/ dlc = 7
  \/ dlc = 8 \/ dlc = 9 \/ dlc = 10 \/ dlc = 11 \/ dlc = 12 \/ dlc = 13 \/ dlc = 14 \/ dlc = 15.
Proof. lia. Qed.

Ltac each_dlc H :=
  apply dlc_cases in H;
  repeat (destruct H as [H | H]); subst.

Lemma dlcToLength_range dlc : 0 <= dlc <= 15 -> 0 <= CAN.dlcToLength dlc <= 64.
Proof. intros H. each_dlc H; vm_compute; split; discriminate. Qed.

Lemma payload_words_range dlc :
  0 <= dlc <= 15 -> 0 <= payload_words (u8 (CAN.dlcToLength dlc)) <= 16.
Proof. intros H. each_dlc H; vm_compute; split; discriminate. Qed.

(** The words cover the payload: [4 * words >= length]. *)
Lemma payload_words_cover dlc :
  0 <= dlc <= 15 ->
  CAN.dlcToLength dlc <= 4 * payload_words (CAN.dlcToLength dlc)
  /\ payload_words (u8 (CAN.dlcToLength dlc)) = payload_words (CAN.dlcToLength dlc).
Proof. intros H. each_dlc H; vm_compute; split; (discriminate || reflexivity). Qed.

(** ** The reception handler *)

Section Reception.

Context {target : Target} {peripherals : Peripherals}.

Lemma one_rx_flag_range sel mb : one_rx_flag sel mb -> 2 <= mb <= 6.
Proof. unfold one_rx_flag. lia. Qed.

Lemma reg_ok_RAMn i j :
  FlexCAN_ok i = true -> 0 <= j < CAN_RAMn_COUNT -> reg_ok (CAN_RAMn i j) = true.
Proof.
  intros Hi Hj. simpl. rewrite Hi. simpl.
  apply andb_true_intro; split; [apply Z.leb_le | apply Z.ltb_lt]; lia.
Qed.

Lemma wp_resolve_Timestamp frame_timestamp instance Q m :
  FlexCAN_ok instance = true ->
  (forall ts m', io m m' -> Q ts m') ->
  wp (resolve_Timestamp frame_timestamp instance) Q m.
Proof.
  intros Hi HQ. unfold resolve_Timestamp.
  apply wp_bind, wp_rd; [exact Hi|]. intros m1 H1 _.
  apply wp_bind, wp_rd; [reflexivity|]. intros m2 H2 _.
  apply wp_bind, wp_rd; [reflexivity|]. intros m3 H3 _.
  apply wp_ret, HQ. eauto using io_trans.
Qed.

Lemma mailbox_words_S rs i mb k :
  mailbox_words rs i mb (S k)
  = mailbox_words rs i mb k
    ++ [REV_BYTES_32 (u32 (rs (CAN_RAMn i (mb * S32K.MB_Size_Words + S32K.MB_Data_Offset
                                           + Z.of_nat k))))].
Proof. unfold mailbox_words. now rewrite seq_S, map_app. Qed.

(** The payload loop of the handler fills the local array with the
    byte-reversed words of the mailbox. *)
Lemma wp_harvest instance mb n m0 m :
  FlexCAN_ok instance = true -> 2 <= mb <= 6 -> (n <= 16)%nat -> io m0 m ->
  wp (for_loop n 0
        (fun i data_ISR_word =>
           w <- rd (CAN_RAMn instance
                             (mb * S32K.MB_Size_Words + S32K.MB_Data_Offset + i)) ;;
           ret (set_index data_ISR_word i (REV_BYTES_32 w)))
        (replicate n 0))
     (fun ws m' => ws = mailbox_words (regs m0) instance mb n /\ io m0 m') m.
Proof.
  intros Hi Hmb Hn Hio.
  eapply wp_weaken.
  - apply (wp_for_loop
             (fun k ws m' => ws = mailbox_words (regs m0) instance mb k ++ replicate (n - k) 0
                             /\ io m0 m')).
    + split; [now rewrite Nat.sub_0_r | exact Hio].
    + intros k ws m1 Hk [-> H1].
      apply wp_bind, wp_rd.
      { apply reg_ok_RAMn; [exact Hi|]. unfold S32K.MB_Size_Words, S32K.MB_Data_Offset, CAN_RAMn_COUNT. lia. }
      intros m2 H2 _. apply wp_ret. split; [|eauto using io_trans].
      unfold set_index. rewrite Z.add_0_l, Nat2Z.id.
      assert (Hlen : length (mailbox_words (regs m0) instance mb k) = k).
      { unfold mailbox_words. now rewrite length_map, length_seq. }
      replace (n - k)%nat with (Datatypes.S (n - Datatypes.S k)) by lia.
      rewrite insert_app_r_alt by lia. rewrite Hlen, Nat.sub_diag.
      rewrite mailbox_words_S, <- app_assoc, (io_ram _ _ H1). reflexivity.
  - intros ws m' [-> H]. split; [|exact H].
    now rewrite Nat.sub_diag, app_nil_r.
Qed.

Lemma ISR_selects sel mb :
  one_rx_flag sel mb ->
  (if sel =? S32K.MessageBuffer2 then 2
   else if sel =? S32K.MessageBuffer3 then 3
   else if sel =? S32K.MessageBuffer4 then 4
   else if sel =? S32K.MessageBuffer5 then 5
   else if sel =? S32K.MessageBuffer6 then 6
   else 0) = mb.
Proof. intros [[-> ->]|[[-> ->]|[[-> ->]|[[-> ->]|[-> ->]]]]]; reflexivity. Qed.

(** A pending reception flag and a queue of at most [Frame_Capacity] frames:
    the handler appends the frame of the mailbox. *)
Lemma ISR_receives instance mb q m :
  FlexCAN_ok instance = true ->
  one_rx_flag (u32 (regs m (CAN_IFLAG1 instance)) .&. 124) mb ->
  at_index (g_frame_ISRbuffer m) instance = Some q ->
  Z.of_nat (length q) <= S32K.Frame_Capacity ->
  wp (S32K_libuavcan_ISR_handler instance)
     (fun _ m' =>
        exists ts,
          g_frame_ISRbuffer m'
          = set_index (g_frame_ISRbuffer m) instance
                      (q ++ [mailbox_frame (regs m) instance mb ts]) /\
          g_discarded_frames_count m' = g_discarded_frames_count m /\
          (forall i j, regs m' (CAN_RAMn i j) = regs m (CAN_RAMn i j))) m.
Proof.
  intros Hi Hflag Hq Hlen.
  pose proof (one_rx_flag_range _ _ Hflag) as Hmb.
  unfold S32K_libuavcan_ISR_handler, DISABLE_INTERRUPTS, ENABLE_INTERRUPTS.
  apply wp_bind, wp_set_interrupts. intros m1 H1 R1 _.
  apply wp_bind, wp_rd; [exact Hi|]. intros m2 H2 _. rewrite R1.
  cbv zeta. rewrite (ISR_selects _ _ Hflag).
  assert (Hio2 : io m m2) by eauto using io_trans.
  replace (negb (mb =? 0)) with true by (symmetry; apply negb_true_iff, Z.eqb_neq; lia).
  apply wp_bind, wp_bind.
  unfold deque_size. apply wp_bind, (wp_deque instance q); [now rewrite (io_queues _ _ Hio2)|].
  apply wp_ret.
  replace (Z.of_nat (length q) <=? S32K.Frame_Capacity) with true
    by (symmetry; now apply Z.leb_le).
  assert (Hbase : forall k, 0 <= k < 18 ->
                            reg_ok (CAN_RAMn instance (mb * S32K.MB_Size_Words + k)) = true).
  { intros k Hk. apply reg_ok_RAMn; [exact Hi|].
    unfold S32K.MB_Size_Words, CAN_RAMn_COUNT. lia. }
  apply wp_bind, wp_bind, wp_rd.
  { rewrite <- (Z.add_0_r (mb * _)). apply Hbase. lia. }
  intros m3 H3 _. rewrite (io_ram _ _ Hio2).
  assert (Hio3 : io m m3) by eauto using io_trans.
  apply wp_bind, wp_rd; [apply Hbase; lia|].
  intros m4 H4 _. rewrite (io_ram _ _ Hio3).
  assert (Hio4 : io m m4) by eauto using io_trans.
  set (cs := u32 (regs m (CAN_RAMn instance (mb * S32K.MB_Size_Words)))).
  pose proof (dlc_field_range cs) as Hraw.
  rewrite (FrameDLC_small _ Hraw).
  set (dlc := Z.shiftr (cs .&. CAN_WMBn_CS_DLC_MASK) CAN_WMBn_CS_DLC_SHIFT) in *.
  pose proof (payload_words_range dlc Hraw) as Hwords.
  apply wp_bind. eapply wp_weaken.
  { apply (wp_harvest instance mb _ m m4); [exact Hi | exact Hmb | lia | exact Hio4]. }
  intros ws m5 [-> Hio5]. cbv beta.
  apply wp_bind, wp_rd.
  { rewrite <- (Z.add_0_r (mb * _)). apply Hbase. lia. }
  intros m6 H6 _.
  assert (Hio6 : io m m6) by eauto using io_trans.
  apply wp_bind, wp_resolve_Timestamp; [exact Hi|]. intros ts m7 H7.
  assert (Hio7 : io m m7) by eauto using io_trans.
  apply (wp_deque_push_back instance q); [now rewrite (io_queues _ _ Hio7)|].
  apply wp_set_bits; [exact Hi | reflexivity|]. intros m8 v H8 _ _.
  apply wp_set_interrupts. intros m9 H9 _ _.
  exists ts. split; [|split].
  - rewrite (io_queues _ _ H9), (io_queues _ _ H8). simpl.
    rewrite (io_queues _ _ Hio7). unfold mailbox_frame.
    fold cs. fold dlc. rewrite (FrameDLC_small _ Hraw). reflexivity.
  - rewrite (io_discarded _ _ H9), (io_discarded _ _ H8). simpl.
    apply (io_discarded _ _ Hio7).
  - intros i j. rewrite (io_ram _ _ H9), (io_ram _ _ H8). simpl.
    apply (io_ram _ _ Hio7).
Qed.

Lemma at_index_set_index {A} (l : list A) i x y :
  at_index l i = Some x -> at_index (set_index l i y) i = Some y.
Proof.
  unfold at_index, set_index. destruct (0 <=? i); [|discriminate].
  intros H. apply list_lookup_insert_eq. eapply lookup_lt_Some, H.
Qed.

Lemma at_index_set_index_ne {A} (l : list A) i j y :
  0 <= i -> 0 <= j -> i <> j -> at_index (set_index l i y) j = at_index l j.
Proof.
  intros Hi Hj Hne. unfold at_index, set_index. destruct (0 <=? j); [|reflexivity].
  apply list_lookup_insert_ne. lia.
Qed.

(** A pending reception flag and a queue of more than [Frame_Capacity]
    frames: the handler counts a discarded frame and decodes nothing. *)
Lemma ISR_discards instance mb q c m :
  FlexCAN_ok instance = true ->
  one_rx_flag (u32 (regs m (CAN_IFLAG1 instance)) .&. 124) mb ->
  at_index (g_frame_ISRbuffer m) instance = Some q ->
  S32K.Frame_Capacity < Z.of_nat (length q) ->
  at_index (g_discarded_frames_count m) instance = Some c ->
  wp (S32K_libuavcan_ISR_handler instance)
     (fun _ m' =>
        g_frame_ISRbuffer m' = g_frame_ISRbuffer m /\
        g_discarded_frames_count m'
        = set_index (g_discarded_frames_count m) instance (u32 (c + 1)) /\
        exists v w,
          trace m' = Wr (CAN_IFLAG1 instance) w :: Rd (CAN_IFLAG1 instance) v
                        :: Rd (CAN_IFLAG1 instance) (u32 (regs m (CAN_IFLAG1 instance)))
                        :: trace m) m.
Proof.
  intros Hi Hflag Hq Hlen Hc.
  pose proof (one_rx_flag_range _ _ Hflag) as Hmb.
  unfold S32K_libuavcan_ISR_handler, DISABLE_INTERRUPTS, ENABLE_INTERRUPTS.
  apply wp_bind, wp_set_interrupts. intros m1 H1 R1 T1.
  apply wp_bind, wp_rd; [exact Hi|]. intros m2 H2 T2. rewrite R1 in *.
  cbv zeta. rewrite (ISR_selects _ _ Hflag).
  assert (Hio2 : io m m2) by eauto using io_trans.
  replace (negb (mb =? 0)) with true by (symmetry; apply negb_true_iff, Z.eqb_neq; lia).
  apply wp_bind, wp_bind.
  unfold deque_size. apply wp_bind, (wp_deque instance q); [now rewrite (io_queues _ _ Hio2)|].
  apply wp_ret.
  replace (Z.of_nat (length q) <=? S32K.Frame_Capacity) with false
    by (symmetry; apply Z.leb_gt; lia).
  apply wp_bind, (wp_discarded_incr instance c); [now rewrite (io_discarded _ _ Hio2)|].
  apply wp_set_bits; [exact Hi | reflexivity|]. intros m3 v H3 T3 _.
  apply wp_set_interrupts. intros m4 H4 _ T4.
  split; [|split].
  - rewrite (io_queues _ _ H4), (io_queues _ _ H3). simpl. apply (io_queues _ _ Hio2).
  - rewrite (io_discarded _ _ H4), (io_discarded _ _ H3). simpl.
    now rewrite (io_discarded _ _ Hio2).
  - rewrite T4, T3. simpl. rewrite T2, T1. eauto.
Qed.

(** No single reception flag: the handler reads the flag register and does
    nothing else. *)
Lemma ISR_ignores instance m :
  FlexCAN_ok instance = true ->
  (forall mb, ~ one_rx_flag (u32 (regs m (CAN_IFLAG1 instance)) .&. 124) mb) ->
  wp (S32K_libuavcan_ISR_handler instance)
     (fun _ m' =>
        g_frame_ISRbuffer m' = g_frame_ISRbuffer m /\
        g_discarded_frames_count m' = g_discarded_frames_count m /\
        trace m' = Rd (CAN_IFLAG1 instance) (u32 (regs m (CAN_IFLAG1 instance))) :: trace m) m.
Proof.
  intros Hi Hnone.
  unfold S32K_libuavcan_ISR_handler, DISABLE_INTERRUPTS, ENABLE_INTERRUPTS.
  apply wp_bind, wp_set_interrupts. intros m1 H1 R1 T1.
  apply wp_bind, wp_rd; [exact Hi|]. intros m2 H2 T2. rewrite R1 in *.
  cbv zeta.
  set (sel := u32 (regs m (CAN_IFLAG1 instance)) .&. 124) in *.
  assert (Hsel : (if sel =? S32K.MessageBuffer2 then 2
                  else if sel =? S32K.MessageBuffer3 then 3
                  else if sel =? S32K.MessageBuffer4 then 4
                  else if sel =? S32K.MessageBuffer5 then 5
                  else if sel =? S32K.MessageBuffer6 then 6
                  else 0) = 0).
  { unfold S32K.MessageBuffer2, S32K.MessageBuffer3, S32K.MessageBuffer4,
      S32K.MessageBuffer5, S32K.MessageBuffer6.
    repeat match goal with
           | |- context [sel =? ?k] =>
               destruct (Z.eqb_spec sel k) as [E|_];
               [exfalso; eapply (Hnone _); unfold one_rx_flag; rewrite E; eauto 10|]
           end.
    reflexivity. }
  rewrite Hsel. simpl (negb _).
  apply wp_bind, wp_ret, wp_set_interrupts. intros m3 H3 _ T3.
  assert (Hio : io m m3) by eauto using io_trans.
  split; [apply (io_queues _ _ Hio) | split; [apply (io_discarded _ _ Hio)|]].
  now rewrite T3, T2, T1.
Qed.

End Reception.

(** ** Frame admission *)

Section Admission.

Context {target : Target} {peripherals : Peripherals}.

(** C1 (the handler departs from the specification at the boundary): when
    the queue of an instance already holds [Frame_Capacity] = 40 frames and one
    reception flag is pending, the handler still decodes the mailbox and
    appends the frame; the queue then holds 41 frames and the discard counter
    is unchanged. *)
Theorem ISR_admits_frame_at_capacity instance mb q m :
  FlexCAN_ok instance = true ->
  one_rx_flag (u32 (regs m (CAN_IFLAG1 instance)) .&. 124) mb ->
  at_index (g_frame_ISRbuffer m) instance = Some q ->
  Z.of_nat (length q) = S32K.Frame_Capacity ->
  exists m' ts,
    S32K_libuavcan_ISR_handler instance m = Done tt m' /\
    at_index (g_frame_ISRbuffer m') instance
    = Some (q ++ [mailbox_frame (regs m) instance mb ts]) /\
    Z.of_nat (length (q ++ [mailbox_frame (regs m) instance mb ts]))
    = S32K.Frame_Capacity + 1 /\
    g_discarded_frames_count m' = g_discarded_frames_count m.
Proof.
  intros Hi Hflag Hq Hlen.
  destruct (wp_elim _ _ _ (ISR_receives instance mb q m Hi Hflag Hq ltac:(lia)))
    as ([] & m' & Hrun & ts & Hqs & Hds & _).
  exists m', ts. split; [exact Hrun|]. split; [|split; [|exact Hds]].
  - rewrite Hqs. eapply at_index_set_index, Hq.
  - rewrite length_app. simpl. lia.
Qed.

(** C2 (the handler departs from the specification when several flags are
    pending):
    whenever the reception flags of mailboxes 2..6 are not exactly one flag
    -- none pending, or two or more pending at once -- the handler reads the
    flag register and does nothing else: no frame is queued, no discard is
    counted and no flag is written, so none is cleared. *)
Theorem ISR_services_single_flags_only instance m :
  FlexCAN_ok instance = true ->
  (forall mb, ~ one_rx_flag (u32 (regs m (CAN_IFLAG1 instance)) .&. 124) mb) ->
  exists m',
    S32K_libuavcan_ISR_handler instance m = Done tt m' /\
    g_frame_ISRbuffer m' = g_frame_ISRbuffer m /\
    g_discarded_frames_count m' = g_discarded_frames_count m /\
    trace m' = Rd (CAN_IFLAG1 instance) (u32 (regs m (CAN_IFLAG1 instance))) :: trace m.
Proof.
  intros Hi Hnone.
  destruct (wp_elim _ _ _ (ISR_ignores instance m Hi Hnone)) as ([] & m' & Hrun & H).
  exists m'. split; [exact Hrun | exact H].
Qed.

End Admission.

(** The boundary case on the node board: 40 frames queued, mailbox 2 pending. *)
Lemma ISR_admits_frame_at_capacity_witness :
  exists m' ts,
    @S32K_libuavcan_ISR_handler S32K146_board quiet 0 (queued 40 4 0) = Done tt m' /\
    at_index (g_frame_ISRbuffer m') 0
    = Some (replicate 40 (CAN.Frame_ctor 0x55 [] 0 0)
            ++ [mailbox_frame (regs (queued 40 4 0)) 0 2 ts]) /\
    Z.of_nat (length (replicate 40 (CAN.Frame_ctor 0x55 [] 0 0)
                      ++ [mailbox_frame (regs (queued 40 4 0)) 0 2 ts]))
    = S32K.Frame_Capacity + 1 /\
    g_discarded_frames_count m' = g_discarded_frames_count (queued 40 4 0).
Proof.
  apply (@ISR_admits_frame_at_capacity S32K146_board quiet 0 2
           (replicate 40 (CAN.Frame_ctor 0x55 [] 0 0)) (queued 40 4 0)).
  - reflexivity.
  - left. split; reflexivity.
  - reflexivity.
  - reflexivity.
Defined.

(** Mailboxes 2 and 3 pending at once (flags 0b1100). *)
Lemma ISR_services_single_flags_only_witness :
  exists m',
    @S32K_libuavcan_ISR_handler S32K146_board quiet 0 (queued 0 12 0) = Done tt m' /\
    g_frame_ISRbuffer m' = g_frame_ISRbuffer (queued 0 12 0) /\
    g_discarded_frames_count m' = g_discarded_frames_count (queued 0 12 0) /\
    trace m' = Rd (CAN_IFLAG1 0) (u32 (regs (queued 0 12 0) (CAN_IFLAG1 0)))
                  :: trace (queued 0 12 0).
Proof.
  apply (@ISR_services_single_flags_only S32K146_board quiet 0 (queued 0 12 0)).
  - reflexivity.
  - intros mb. unfold one_rx_flag. vm_compute. lia.
Defined.

(** ** Reading the queue *)

Section Reading.

Context {target : Target} {peripherals : Peripherals}.

Lemma CANFD_Count_range : 1 <= CANFD_Count <= 3.
Proof. unfold CANFD_Count. destruct mcu; simpl; lia. Qed.

Lemma read_empty interface_index out_frames m :
  1 <= interface_index <= CANFD_Count ->
  at_index (g_frame_ISRbuffer m) (interface_index - 1) = Some [] ->
  read interface_index out_frames m = Done (SuccessNothing, out_frames, 0) m.
Proof.
  intros Hidx Hq. unfold read.
  rewrite (gtb_false interface_index CANFD_Count) by lia.
  cbv zeta. cbn [isSuccess]. unfold deque_empty, deque, bind. now rewrite Hq.
Qed.

Lemma read_head interface_index out_frames f q m :
  1 <= interface_index <= CANFD_Count ->
  at_index (g_frame_ISRbuffer m) (interface_index - 1) = Some (f :: q) ->
  read interface_index out_frames m
  = Done (Success, set_index out_frames 0 f, RxFramesLen)
         (with_queues (set_index (g_frame_ISRbuffer m) (interface_index - 1) q) m).
Proof.
  intros Hidx Hq. unfold read.
  rewrite (gtb_false interface_index CANFD_Count) by lia.
  cbv zeta. cbn [isSuccess].
  unfold deque_empty, deque_front, deque_pop_front, deque, bind.
  repeat (rewrite Hq; cbn). reflexivity.
Qed.

Lemma read_n_drains interface_index fs :
  1 <= interface_index <= CANFD_Count ->
  forall out_frames m,
    length out_frames = Z.to_nat RxFramesLen ->
    at_index (g_frame_ISRbuffer m) (interface_index - 1) = Some fs ->
    exists m',
      read_n (length fs) interface_index out_frames m = Done fs m' /\
      at_index (g_frame_ISRbuffer m') (interface_index - 1) = Some [].
Proof.
  intros Hidx. induction fs as [|f fs IH]; intros out_frames m Hout Hq.
  - exists m. split; [reflexivity | exact Hq].
  - destruct out_frames as [|o [|? ?]]; try discriminate Hout.
    destruct (IH [f] (with_queues (set_index (g_frame_ISRbuffer m) (interface_index - 1) fs) m))
      as (m' & Hrun & Hq').
    + reflexivity.
    + simpl. eapply at_index_set_index, Hq.
    + exists m'. split; [|exact Hq'].
      simpl. unfold bind at 1. rewrite (read_head _ _ f fs m Hidx Hq).
      cbn [fst snd]. unfold bind at 1.
      change (set_index [o] 0 f) with [f]. rewrite Hrun. reflexivity.
Qed.

(** C8: for a valid interface index (1 .. CANFD_Count), [read] on an empty
    queue answers SuccessNothing with zero frames read and leaves the machine
    as it was; on a non-empty queue it answers Success, hands out the head
    frame and removes exactly that frame; successive reads hand out the
    queued frames in queue order; and since the handler appends at the tail,
    the frames come out in the order the handler pushed them. *)
Theorem read_is_fifo interface_index out_frames q m :
  1 <= interface_index <= CANFD_Count ->
  length out_frames = Z.to_nat RxFramesLen ->
  at_index (g_frame_ISRbuffer m) (interface_index - 1) = Some q ->
  (q = [] -> read interface_index out_frames m = Done (SuccessNothing, out_frames, 0) m) /\
  (forall f q', q = f :: q' ->
     read interface_index out_frames m
     = Done (Success, set_index out_frames 0 f, RxFramesLen)
            (with_queues (set_index (g_frame_ISRbuffer m) (interface_index - 1) q') m)) /\
  (exists m', read_n (length q) interface_index out_frames m = Done q m' /\
              at_index (g_frame_ISRbuffer m') (interface_index - 1) = Some []) /\
  (forall mb,
     one_rx_flag (u32 (regs m (CAN_IFLAG1 (interface_index - 1))) .&. 124) mb ->
     Z.of_nat (length q) <= S32K.Frame_Capacity ->
     exists m1 ts m2,
       S32K_libuavcan_ISR_handler (interface_index - 1) m = Done tt m1 /\
       read_n (length q + 1) interface_index out_frames m1
       = Done (q ++ [mailbox_frame (regs m) (interface_index - 1) mb ts]) m2).
Proof.
  intros Hidx Hout Hq. split; [|split; [|split]].
  - intros ->. now apply read_empty.
  - intros f q' ->. now apply read_head.
  - now apply read_n_drains.
  - intros mb Hflag Hlen.
    assert (Hi : FlexCAN_ok (interface_index - 1) = true).
    { unfold FlexCAN_ok. apply andb_true_intro. split; [apply Z.leb_le | apply Z.ltb_lt]; lia. }
    destruct (wp_elim _ _ _ (ISR_receives _ mb q m Hi Hflag Hq Hlen))
      as ([] & m1 & Hrun & ts & Hqs & _).
    destruct (read_n_drains interface_index
                (q ++ [mailbox_frame (regs m) (interface_index - 1) mb ts]) Hidx
                out_frames m1 Hout) as (m2 & Hread & _).
    { rewrite Hqs. eapply at_index_set_index, Hq. }
    exists m1, ts, m2. split; [exact Hrun|].
    rewrite length_app, Nat.add_comm in Hread. simpl in Hread.
    rewrite Nat.add_comm. exact Hread.
Qed.

(** C10: the bounds check of [read] and [write] rejects only indices above
    the interface count; index 0 passes it, and both operations then index the
    per-instance arrays at position 0 - 1, outside the arrays: the computation
    ends in the out-of-bounds fault. *)
Theorem index_zero_passes_check_and_faults fuel out_frames frames out_frames_written m :
  (0 >? CANFD_Count) = false /\
  ((TxFramesLen >? TxFramesLen) || (0 >? CANFD_Count)) = false /\
  read 0 out_frames m = Fault /\
  write fuel 0 frames TxFramesLen out_frames_written m = Fault /\
  read (CANFD_Count + 1) out_frames m = Done (BadArgument, out_frames, 0) m.
Proof.
  pose proof CANFD_Count_range as Hc.
  assert (H0 : (0 >? CANFD_Count) = false) by (apply gtb_false; lia).
  split; [exact H0|]. split; [now rewrite H0|]. split; [|split].
  - unfold read. rewrite H0. reflexivity.
  - unfold write. rewrite H0. reflexivity.
  - unfold read. now rewrite gtb_true by lia.
Qed.

End Reading.

(** ** Timestamp reconciliation *)

Lemma lor_shiftl_add x y n :
  0 <= n -> 0 <= y < 2 ^ n -> Z.shiftl x n .|. y = x * 2 ^ n + y.
Proof.
  intros Hn Hy. rewrite <- Z.shiftl_mul_pow2 by lia.
  assert (Hdisj : Z.shiftl x n .&. y = 0).
  { apply Z.bits_inj'. intros k Hk. rewrite Z.land_spec, Z.bits_0.
    destruct (Z.lt_ge_cases k n) as [Hlt|Hge].
    - now rewrite Z.shiftl_spec_low.
    - rewrite <- (Z.mod_small y (2 ^ n)) by lia.
      rewrite Z.mod_pow2_bits_high by lia. apply andb_false_r. }
  now rewrite Z.add_nocarry_lxor, Z.lxor_lor.
Qed.

Section Timestamps.

Context {target : Target} {peripherals : Peripherals}.

(** C9: when the hardware counter read during reconciliation equals the
    captured value (source delta zero), the reconciled timestamp is the
    64-bit software clock -- built from the two values read from the chained
    timer channels -- divided by 80, and nothing else. *)
Theorem resolve_Timestamp_without_delta frame_timestamp instance m :
  FlexCAN_ok instance = true ->
  u32 (regs m (CAN_TIMER instance)) = frame_timestamp ->
  exists cval1 cval0 m',
    resolve_Timestamp frame_timestamp instance m
    = Done (software_clock cval1 cval0 / 80) m' /\
    trace m' = Rd (LPIT0_CVAL 0) cval0 :: Rd (LPIT0_CVAL 1) cval1
                  :: Rd (CAN_TIMER instance) frame_timestamp :: trace m.
Proof.
  intros Hi Ht.
  unfold resolve_Timestamp, bind, rd, ret. cbn [reg_ok]. rewrite Hi. cbn [Z.leb Z.ltb Z.compare andb].
  rewrite Ht.
  set (m1 := access (Rd (CAN_TIMER instance) frame_timestamp) m).
  set (c1 := u32 (regs m1 (LPIT0_CVAL 1))).
  set (m2 := access (Rd (LPIT0_CVAL 1) c1) m1).
  set (c0 := u32 (regs m2 (LPIT0_CVAL 0))).
  exists c1, c0, (access (Rd (LPIT0_CVAL 0) c0) m2).
  split; [|reflexivity]. f_equal.
  pose proof (u32_range (regs m1 (LPIT0_CVAL 1))) as H1. fold c1 in H1.
  pose proof (u32_range (regs m2 (LPIT0_CVAL 0))) as H0. fold c0 in H0.
  rewrite Z.gtb_ltb, Z.ltb_irrefl, Z.sub_diag, Z.sub_0_r.
  unfold fromMicrosecond, software_clock. f_equal.
  rewrite !(u32_small (4294967295 - _)) by lia.
  rewrite lor_shiftl_add by lia.
  assert (Hclock : 0 <= (4294967295 - c1) * 2 ^ 32 + (4294967295 - c0) < 2 ^ 64) by nia.
  fold c0. rewrite (u64_small _ Hclock), (u64_small _ Hclock). lia.
Qed.

End Timestamps.

Lemma resolve_Timestamp_without_delta_witness :
  exists cval1 cval0 m',
    @resolve_Timestamp S32K146_board quiet 0 0 (queued 0 0 0)
    = Done (software_clock cval1 cval0 / 80) m' /\
    trace m' = Rd (LPIT0_CVAL 0) cval0 :: Rd (LPIT0_CVAL 1) cval1
                  :: Rd (CAN_TIMER 0) 0 :: trace (queued 0 0 0).
Proof.
  apply (@resolve_Timestamp_without_delta S32K146_board quiet 0 0 (queued 0 0 0)).
  - reflexivity.
  - reflexivity.
Defined.

(** One frame queued on interface 1 of the node board. *)
Lemma read_is_fifo_witness :
  @read S32K146_board 1 [CAN.Frame_ctor 0 [] 0 0] (queued 1 0 0)
  = Done (Success, [CAN.Frame_ctor 0x55 [] 0 0], 1)
         (with_queues [[]; []] (queued 1 0 0)).
Proof.
  apply (proj1 (proj2 (@read_is_fifo S32K146_board quiet 1 [CAN.Frame_ctor 0 [] 0 0]
                         [CAN.Frame_ctor 0x55 [] 0 0] (queued 1 0 0)
                         ltac:(vm_compute; split; discriminate)
                         ltac:(reflexivity) ltac:(reflexivity)))
               (CAN.Frame_ctor 0x55 [] 0 0) []).
  reflexivity.
Defined.

(** ** What every operation leaves alone *)

Ltac keeps_step :=
  lazymatch goal with
  | |- hoare _ (bind _ _) _ => eapply hoare_bind; [|intro]
  | |- hoare _ (ret _) _ => apply hoare_ret
  | |- hoare _ fault _ => apply hoare_fault
  | |- hoare _ (iter _ _ _) _ => apply hoare_iter; intro
  | |- hoare _ (for_loop _ _ _ _) _ => apply hoare_for_loop; intros ? ?
  | |- hoare _ (for_range _ _) _ => unfold for_range
  | |- hoare _ (for_u8 _ _ _) _ => unfold for_u8
  | |- hoare _ (spin_while _ _ _) _ => unfold spin_while
  | |- hoare _ (set_bits _ _) _ => unfold set_bits
  | |- hoare _ (clear_bits _ _) _ => unfold clear_bits
  | |- hoare _ (if ?b then _ else _) _ => destruct b
  | |- hoare _ (match ?x with _ => _ end) _ => destruct x
  end.

Ltac keeps_leaf :=
  lazymatch goal with
  | |- hoare _ (rd _) _ => apply keeps_rd; assumption
  | |- hoare _ (wr _ _) _ => apply keeps_wr; assumption
  | |- hoare _ (set_interrupts _) _ => apply keeps_set_interrupts; assumption
  | |- hoare _ (element _ _) _ => apply keeps_element
  end.

Ltac keeps_with known := repeat first [ known | keeps_leaf | keeps_step ].

Ltac keeps := keeps_with fail.

Section Keeps.

Context {target : Target} {peripherals : Peripherals}.
Variable P : Machine -> Prop.
Hypothesis P_access : access_stable P.
Hypothesis P_queue : queue_stable P.

Lemma keeps_flagPollTimeout_Set fuel r mask :
  hoare P (flagPollTimeout_Set fuel r mask) (fun _ => P).
Proof using P_access. unfold flagPollTimeout_Set. keeps. Qed.

Lemma keeps_flagPollTimeout_Clear fuel r mask :
  hoare P (flagPollTimeout_Clear fuel r mask) (fun _ => P).
Proof using P_access. unfold flagPollTimeout_Clear. keeps. Qed.

Lemma keeps_program_filter i filter_config j :
  hoare P (program_filter i filter_config j) (fun _ => P).
Proof using P_access. unfold program_filter. keeps. Qed.

Lemma keeps_messageBuffer_Transmit fuel i tx frame :
  hoare P (messageBuffer_Transmit fuel i tx frame) (fun _ => P).
Proof using P_access.
  unfold messageBuffer_Transmit. cbv zeta.
  keeps_with ltac:(idtac; lazymatch goal with
                   | |- hoare _ (flagPollTimeout_Set _ _ _) _ =>
                       apply keeps_flagPollTimeout_Set
                   end).
Qed.

Lemma keeps_resolve_Timestamp ts instance :
  hoare P (resolve_Timestamp ts instance) (fun _ => P).
Proof using P_access. unfold resolve_Timestamp. keeps. Qed.

Lemma keeps_deque i : hoare P (deque i) (fun _ => P).
Proof. intros m HP. unfold wlp, deque. now destruct (at_index _ _). Qed.

Lemma keeps_deque_size i : hoare P (deque_size i) (fun _ => P).
Proof.
  unfold deque_size. eapply hoare_bind; [apply keeps_deque|]. intros q. apply hoare_ret.
Qed.

Lemma keeps_deque_push_back i f : hoare P (deque_push_back i f) (fun _ => P).
Proof using P_queue.
  unfold deque_push_back. eapply hoare_bind; [apply keeps_deque|].
  intros q m HP. now apply P_queue.
Qed.

Lemma keeps_deque_pop_front i : hoare P (deque_pop_front i) (fun _ => P).
Proof using P_queue.
  unfold deque_pop_front. eapply hoare_bind; [apply keeps_deque|].
  intros [|f q]; [apply hoare_fault|]. intros m HP. now apply P_queue.
Qed.

Lemma keeps_read interface_index out_frames :
  hoare P (read interface_index out_frames) (fun _ => P).
Proof using P_queue.
  unfold read, deque_empty, deque_front. cbv zeta.
  keeps_with ltac:(idtac; lazymatch goal with
                   | |- hoare _ (deque _) _ => apply keeps_deque
                   | |- hoare _ (deque_pop_front _) _ => apply keeps_deque_pop_front
                   end).
Qed.

Lemma keeps_write fuel interface_index frames frames_len out_frames_written :
  hoare P (write fuel interface_index frames frames_len out_frames_written) (fun _ => P).
Proof using P_access.
  unfold write. cbv zeta.
  keeps_with ltac:(idtac; lazymatch goal with
                   | |- hoare _ (messageBuffer_Transmit _ _ _ _) _ =>
                       apply keeps_messageBuffer_Transmit
                   end).
Qed.

Lemma keeps_reconfigureFilters fuel filter_config filter_config_length :
  hoare P (reconfigureFilters fuel filter_config filter_config_length) (fun _ => P).
Proof using P_access.
  unfold reconfigureFilters. cbv zeta.
  keeps_with ltac:(idtac; lazymatch goal with
                   | |- hoare _ (flagPollTimeout_Clear _ _ _) _ =>
                       apply keeps_flagPollTimeout_Clear
                   | |- hoare _ (program_filter _ _ _) _ => apply keeps_program_filter
                   end).
Qed.

Lemma keeps_startInterfaceGroup fuel filter_config filter_config_length out_group :
  hoare P (startInterfaceGroup fuel filter_config filter_config_length out_group)
        (fun _ => P).
Proof using P_access.
  unfold startInterfaceGroup. cbv zeta.
  keeps_with ltac:(idtac; lazymatch goal with
                   | |- hoare _ (program_filter _ _ _) _ => apply keeps_program_filter
                   end).
Qed.

Lemma keeps_stopInterfaceGroup fuel inout_group :
  hoare P (stopInterfaceGroup fuel inout_group) (fun _ => P).
Proof using P_access.
  unfold stopInterfaceGroup. cbv zeta.
  keeps_with ltac:(idtac; lazymatch goal with
                   | |- hoare _ (flagPollTimeout_Set _ _ _) _ =>
                       apply keeps_flagPollTimeout_Set
                   end).
Qed.

(** The reception handler: whatever [S32K::g_discarded_frames_count[i]++]
    establishes from [P] holds afterwards, if it follows from [P] and is
    itself stable. *)
Lemma hoare_ISR (Q : Machine -> Prop) instance :
  access_stable Q ->
  (forall m, P m -> Q m) ->
  hoare P (discarded_incr instance) (fun _ => Q) ->
  hoare P (S32K_libuavcan_ISR_handler instance) (fun _ => Q).
Proof using P_access P_queue.
  intros Q_access HPQ Hincr.
  unfold S32K_libuavcan_ISR_handler, DISABLE_INTERRUPTS, ENABLE_INTERRUPTS. cbv zeta.
  eapply hoare_bind; [keeps|]. intros ?.
  eapply hoare_bind; [keeps|]. intros iflag1.
  apply (hoare_bind _ (fun _ => Q)); [|intros ?; apply keeps_set_interrupts, Q_access].
  destruct (negb _).
  - eapply hoare_bind; [apply keeps_deque_size|]. intros size.
    apply (hoare_bind _ (fun _ => Q)).
    + destruct (size <=? S32K.Frame_Capacity); [|exact Hincr].
      eapply hoare_weaken; [|exact (fun m H => H) | intros ? m H; apply HPQ, H].
      keeps_with ltac:(idtac; lazymatch goal with
                       | |- hoare _ (resolve_Timestamp _ _) _ => apply keeps_resolve_Timestamp
                       | |- hoare _ (deque_push_back _ _) _ => apply keeps_deque_push_back
                       end).
    + intros ?. unfold set_bits.
      eapply hoare_bind; [apply keeps_rd, Q_access|]. intros v. apply keeps_wr, Q_access.
  - eapply hoare_weaken; [apply hoare_ret | exact (fun m H => H) | intros ? m H; apply HPQ, H].
Qed.

End Keeps.

(** ** The discard counters *)

Section Discards.

Context {target : Target} {peripherals : Peripherals}.

Lemma counters_are_access D : access_stable (counters_are D).
Proof. split; intros; assumption. Qed.

Lemma counters_are_queue D : queue_stable (counters_are D).
Proof. intros qs m H. exact H. Qed.

Lemma counters_stepped_access D i : access_stable (counters_stepped D i).
Proof. split; intros; assumption. Qed.

Lemma ISR_counters D instance :
  hoare (counters_are D) (S32K_libuavcan_ISR_handler instance)
        (fun _ => counters_stepped D instance).
Proof.
  apply hoare_ISR.
  - apply counters_are_access.
  - apply counters_are_queue.
  - apply counters_stepped_access.
  - intros m H. now left.
  - intros m H. unfold wlp, discarded_incr. rewrite H.
    destruct (at_index D instance) as [c|] eqn:E; [|exact I].
    right. exists c. split; [exact E | reflexivity].
Qed.

Lemma counters_stepped_each D instance m j c c' :
  counters_stepped D instance m ->
  at_index D j = Some c ->
  at_index (g_discarded_frames_count m) j = Some c' ->
  c' = c \/ c' = u32 (c + 1).
Proof.
  intros [E|(c0 & E0 & E)] Hc Hc'; rewrite E in Hc'.
  - left. congruence.
  - destruct (Z.eq_dec instance j) as [->|Hne].
    + right. rewrite (at_index_set_index _ _ _ _ E0) in Hc'. congruence.
    + left. rewrite at_index_set_index_ne in Hc'; [congruence | | | exact Hne].
      * unfold at_index in E0. destruct (Z.leb_spec 0 instance); [lia | discriminate].
      * unfold at_index in Hc. destruct (Z.leb_spec 0 j); [lia | discriminate].
Qed.

(** C6 (as amended): the discard counters change in the reception handler
    only, where the counter of the interrupting instance stays or advances by
    one modulo 2^32 and the others stay; no other operation writes them.  In
    particular startInterfaceGroup leaves every counter at the value it had
    before the call: it does not reset them, and they are zero after a start
    from the statically initialised state only. *)
Theorem discard_counters_change_in_ISR_only fuel m :
  (forall instance m',
      S32K_libuavcan_ISR_handler instance m = Done tt m' ->
      counters_stepped (g_discarded_frames_count m) instance m' /\
      forall j c c',
        at_index (g_discarded_frames_count m) j = Some c ->
        at_index (g_discarded_frames_count m') j = Some c' ->
        c' = c \/ c' = u32 (c + 1)) /\
  (forall filter_config filter_config_length out_group r m',
      startInterfaceGroup fuel filter_config filter_config_length out_group m = Done r m' ->
      g_discarded_frames_count m' = g_discarded_frames_count m) /\
  (forall inout_group r m',
      stopInterfaceGroup fuel inout_group m = Done r m' ->
      g_discarded_frames_count m' = g_discarded_frames_count m) /\
  (forall filter_config filter_config_length r m',
      reconfigureFilters fuel filter_config filter_config_length m = Done r m' ->
      g_discarded_frames_count m' = g_discarded_frames_count m) /\
  (forall interface_index out_frames r m',
      read interface_index out_frames m = Done r m' ->
      g_discarded_frames_count m' = g_discarded_frames_count m) /\
  (forall interface_index frames frames_len out_frames_written r m',
      write fuel interface_index frames frames_len out_frames_written m = Done r m' ->
      g_discarded_frames_count m' = g_discarded_frames_count m) /\
  (forall filter_config filter_config_length out_group r m',
      startInterfaceGroup fuel filter_config filter_config_length out_group power_on
      = Done r m' ->
      g_discarded_frames_count m' = replicate (Z.to_nat CANFD_Count) 0).
Proof.
  pose proof (counters_are_access (g_discarded_frames_count m)) as Ha.
  pose proof (counters_are_queue (g_discarded_frames_count m)) as Hq.
  split; [|split; [|split; [|split; [|split; [|split]]]]].
  - intros instance m' Hrun.
    pose proof (wlp_elim _ _ _ _ _ (ISR_counters _ instance m eq_refl) Hrun) as Hstep.
    split; [exact Hstep|]. intros j c c' Hc Hc'.
    exact (counters_stepped_each _ instance m' j c c' Hstep Hc Hc').
  - intros fc len og r m' Hrun.
    exact (wlp_elim _ _ _ _ _ (keeps_startInterfaceGroup _ Ha fuel fc len og m eq_refl) Hrun).
  - intros og r m' Hrun.
    exact (wlp_elim _ _ _ _ _ (keeps_stopInterfaceGroup _ Ha fuel og m eq_refl) Hrun).
  - intros fc len r m' Hrun.
    exact (wlp_elim _ _ _ _ _ (keeps_reconfigureFilters _ Ha fuel fc len m eq_refl) Hrun).
  - intros idx out r m' Hrun.
    exact (wlp_elim _ _ _ _ _ (keeps_read _ Hq idx out m eq_refl) Hrun).
  - intros idx frames len w r m' Hrun.
    exact (wlp_elim _ _ _ _ _ (keeps_write _ Ha fuel idx frames len w m eq_refl) Hrun).
  - intros fc len og r m' Hrun.
    exact (wlp_elim _ _ _ _ _
             (keeps_startInterfaceGroup _ (counters_are_access _) fuel fc len og
                                        power_on eq_refl) Hrun).
Qed.

End Discards.

Lemma done_after {A} (c : M A) m a : value_of (c m) = Some a -> c m = Done a (after c m).
Proof. unfold value_of, after. destruct (c m); congruence. Qed.

(** The counters on the node board with a 42nd frame pending on a queue of 41:
    the handler counts it, every other operation leaves the counters alone. *)
Lemma discard_counters_change_in_ISR_only_witness :
  counters_stepped [1; 0] 0
    (after (@S32K_libuavcan_ISR_handler S32K146_board (sim true) 0) overrun_pending) /\
  g_discarded_frames_count
    (after (@startInterfaceGroup S32K146_board (sim true) 100 sample_filters 5 nullptr)
           overrun_pending) = [1; 0] /\
  g_discarded_frames_count
    (after (@stopInterfaceGroup S32K146_board (sim true) 100 addr_S32K_InterfaceGroupObj_)
           overrun_pending) = [1; 0] /\
  g_discarded_frames_count
    (after (@reconfigureFilters S32K146_board (sim true) 100 sample_filters 5)
           overrun_pending) = [1; 0] /\
  g_discarded_frames_count
    (after (@read S32K146_board 1 [sample_frame 0]) overrun_pending) = [1; 0] /\
  g_discarded_frames_count
    (after (@write S32K146_board (sim true) 100 1 [sample_frame 8] 1 0) overrun_pending)
  = [1; 0] /\
  g_discarded_frames_count
    (after (@startInterfaceGroup S32K146_board (sim true) 100 sample_filters 5 nullptr)
           (@power_on S32K146_board))
  = replicate (Z.to_nat (@CANFD_Count S32K146_board)) 0.
Proof.
  destruct (@discard_counters_change_in_ISR_only S32K146_board (sim true) 100%nat
              overrun_pending) as (H1 & H2 & H3 & H4 & H5 & H6 & H7).
  split; [|split; [|split; [|split; [|split; [|split]]]]].
  - apply (H1 0). apply done_after. vm_compute. reflexivity.
  - eapply (H2 sample_filters 5 nullptr). apply done_after. vm_compute. reflexivity.
  - eapply (H3 addr_S32K_InterfaceGroupObj_). apply done_after. vm_compute. reflexivity.
  - eapply (H4 sample_filters 5). apply done_after. vm_compute. reflexivity.
  - eapply (H5 1 [sample_frame 0]). apply done_after. vm_compute. reflexivity.
  - eapply (H6 1 [sample_frame 8] 1 0). apply done_after. vm_compute. reflexivity.
  - apply (H7 sample_filters 5 nullptr (Success, addr_S32K_InterfaceGroupObj_)).
    apply done_after. vm_compute. reflexivity.
Defined.

(** C6 (as the specification states it, refuted): on the node board the group
    is started
    (counters zero), 42 frames arrive unread on instance 0 (41 are queued, one
    is discarded), the group is stopped and started again: the second start
    succeeds and the counter of instance 0 is still 1, not 0. *)
Lemma restart_keeps_discard_count :
  value_of (@startInterfaceGroup S32K146_board (sim true) 100 sample_filters 5 nullptr
              (@power_on S32K146_board))
  = Some (Success, addr_S32K_InterfaceGroupObj_) /\
  g_discarded_frames_count started = [0; 0] /\
  map length (g_frame_ISRbuffer overrun) = [41%nat; 0%nat] /\
  g_discarded_frames_count overrun = [1; 0] /\
  value_of (@stopInterfaceGroup S32K146_board (sim true) 100 addr_S32K_InterfaceGroupObj_
              overrun)
  = Some (Success, nullptr) /\
  value_of (@startInterfaceGroup S32K146_board (sim true) 100 sample_filters 5 nullptr stopped)
  = Some (Success, addr_S32K_InterfaceGroupObj_) /\
  g_discarded_frames_count
    (after (@startInterfaceGroup S32K146_board (sim true) 100 sample_filters 5 nullptr)
           stopped) = [1; 0] /\
  1 <> 0.
Proof. vm_compute. repeat split; discriminate. Qed.

(** ** The mailbox layout of a frame *)

Lemma land_shifted_mask w mask k :
  0 <= k -> w .&. Z.shiftl mask k = Z.shiftl (Z.shiftr w k .&. mask) k.
Proof.
  intros Hk. apply Z.bits_inj'. intros n Hn.
  rewrite Z.land_spec, !Z.shiftl_spec by lia.
  destruct (Z.lt_ge_cases n k) as [Hlt|Hge].
  - rewrite !(Z.testbit_neg_r _ (n - k)) by lia. apply andb_false_r.
  - rewrite Z.land_spec, Z.shiftr_spec by lia. now replace (n - k + k) with n by lia.
Qed.

Lemma lor_add_disjoint x y n :
  0 <= n -> 0 <= y < 2 ^ n -> x * 2 ^ n .|. y = x * 2 ^ n + y.
Proof.
  intros Hn Hy. rewrite <- (lor_shiftl_add x y n) by lia. now rewrite Z.shiftl_mul_pow2 by lia.
Qed.

Lemma byte_at_range w k : 0 <= byte_at w k < 256.
Proof. unfold byte_at. apply Z.mod_pos_bound. lia. Qed.

(** The byte reversal, in arithmetic. *)
Lemma REV_BYTES_32_bytes a :
  REV_BYTES_32 a
  = byte_at a 0 * 2 ^ 24 + byte_at a 1 * 2 ^ 16 + byte_at a 2 * 2 ^ 8 + byte_at a 3.
Proof.
  unfold REV_BYTES_32.
  change 0xFF00 with (Z.shiftl 0xFF 8). rewrite !land_shifted_mask by lia.
  rewrite !Z.shiftr_shiftr, !Z.shiftl_shiftl by lia.
  change 0xFF with (Z.ones 8). rewrite !Z.land_ones by lia.
  rewrite !Z.shiftr_div_pow2, !Z.shiftl_mul_pow2 by lia.
  pose proof (byte_at_range a 0) as H0. pose proof (byte_at_range a 1) as H1.
  pose proof (byte_at_range a 2) as H2. pose proof (byte_at_range a 3) as H3.
  unfold byte_at in *.
  change (8 * 0) with 0 in *. change (8 * 1) with 8 in *.
  change (8 * 2) with 16 in *. change (8 * 3) with 24 in *.
  change (8 + 8) with 16. change (8 + 16) with 24.
  rewrite Z.pow_0_r, Z.div_1_r in *.
  set (b0 := a mod 2 ^ 8) in *. set (b1 := (a / 2 ^ 8) mod 2 ^ 8) in *.
  set (b2 := (a / 2 ^ 16) mod 2 ^ 8) in *. set (b3 := (a / 2 ^ 24) mod 2 ^ 8) in *.
  rewrite (lor_add_disjoint b2 b3 8) by lia.
  rewrite (lor_add_disjoint b0 (b1 * 2 ^ 16) 24) by lia.
  replace (b0 * 2 ^ 24 + b1 * 2 ^ 16) with ((b0 * 2 ^ 8 + b1) * 2 ^ 16) by lia.
  rewrite (lor_add_disjoint _ (b2 * 2 ^ 8 + b3) 16) by lia. lia.
Qed.

Lemma byte_at_of_bytes x0 x1 x2 x3 :
  0 <= x0 < 256 -> 0 <= x1 < 256 -> 0 <= x2 < 256 -> 0 <= x3 < 256 ->
  let w := x0 + x1 * 2 ^ 8 + x2 * 2 ^ 16 + x3 * 2 ^ 24 in
  byte_at w 0 = x0 /\ byte_at w 1 = x1 /\ byte_at w 2 = x2 /\ byte_at w 3 = x3.
Proof.
  intros H0 H1 H2 H3 w. subst w. unfold byte_at.
  change (2 ^ (8 * 0)) with 1. change (2 ^ (8 * 1)) with 256.
  change (2 ^ (8 * 2)) with 65536. change (2 ^ (8 * 3)) with 16777216.
  change (2 ^ 8) with 256. change (2 ^ 16) with 65536. change (2 ^ 24) with 16777216.
  repeat split; Z.div_mod_to_equations; lia.
Qed.

Lemma word_of_bytes x0 x1 x2 x3 :
  0 <= x0 < 256 -> 0 <= x1 < 256 -> 0 <= x2 < 256 -> 0 <= x3 < 256 ->
  x0 .|. Z.shiftl x1 8 .|. Z.shiftl x2 16 .|. Z.shiftl x3 24
  = x0 + x1 * 2 ^ 8 + x2 * 2 ^ 16 + x3 * 2 ^ 24.
Proof.
  intros H0 H1 H2 H3.
  rewrite (Z.lor_comm x0), lor_shiftl_add by lia.
  rewrite (Z.lor_comm _ (Z.shiftl x2 16)), lor_shiftl_add by lia.
  rewrite (Z.lor_comm _ (Z.shiftl x3 24)), lor_shiftl_add by lia. lia.
Qed.

Lemma word_bytes_bytes w :
  word_bytes w = [byte_at w 0; byte_at w 1; byte_at w 2; byte_at w 3].
Proof.
  unfold word_bytes, byte_at. change 0xFF with (Z.ones 8).
  rewrite !Z.land_ones, !Z.shiftr_div_pow2 by lia.
  change (2 ^ (8 * 0)) with 1. rewrite Z.div_1_r. reflexivity.
Qed.

(** A word of the frame, reversed into the mailbox and reversed back out of
    it, shows the frame's four bytes again. *)
Lemma word_round_trip x0 x1 x2 x3 :
  0 <= x0 < 256 -> 0 <= x1 < 256 -> 0 <= x2 < 256 -> 0 <= x3 < 256 ->
  word_bytes
    (REV_BYTES_32
       (u32 (u32 (REV_BYTES_32
                    (x0 .|. Z.shiftl x1 8 .|. Z.shiftl x2 16 .|. Z.shiftl x3 24)))))
  = [x0; x1; x2; x3].
Proof.
  intros H0 H1 H2 H3. rewrite word_of_bytes by assumption.
  destruct (byte_at_of_bytes x0 x1 x2 x3 H0 H1 H2 H3) as (E0 & E1 & E2 & E3).
  destruct (byte_at_of_bytes x3 x2 x1 x0 H3 H2 H1 H0) as (F0 & F1 & F2 & F3).
  cbv zeta in *.
  rewrite (REV_BYTES_32_bytes (x0 + _ + _ + _)), E0, E1, E2, E3.
  rewrite u32_idem, u32_small by lia.
  replace (x0 * 2 ^ 24 + x1 * 2 ^ 16 + x2 * 2 ^ 8 + x3)
    with (x3 + x2 * 2 ^ 8 + x1 * 2 ^ 16 + x0 * 2 ^ 24) by lia.
  rewrite REV_BYTES_32_bytes, F0, F1, F2, F3.
  replace (x3 * 2 ^ 24 + x2 * 2 ^ 16 + x1 * 2 ^ 8 + x0)
    with (x0 + x1 * 2 ^ 8 + x2 * 2 ^ 16 + x3 * 2 ^ 24) by lia.
  rewrite word_bytes_bytes, E0, E1, E2, E3. reflexivity.
Qed.

Lemma REV_BYTES_32_range a : 0 <= REV_BYTES_32 a < 2 ^ 32.
Proof.
  rewrite REV_BYTES_32_bytes.
  pose proof (byte_at_range a 0). pose proof (byte_at_range a 1).
  pose proof (byte_at_range a 2). pose proof (byte_at_range a 3). lia.
Qed.

Section Transmission.

Context {target : Target} {peripherals : Peripherals}.

Lemma wp_wr_ram i j v Q m :
  reg_ok (CAN_RAMn i j) = true ->
  (forall m', regs m' (CAN_RAMn i j) = u32 v ->
              (forall i' j', CAN_RAMn i' j' <> CAN_RAMn i j ->
                             regs m' (CAN_RAMn i' j') = regs m (CAN_RAMn i' j')) ->
              Q tt m') ->
  wp (wr (CAN_RAMn i j) v) Q m.
Proof.
  intros Hok HQ. unfold wp, wr. rewrite Hok. apply HQ.
  - rewrite regs_access_ram. now destruct (decide _).
  - intros i' j' Hne. rewrite regs_access_ram. destruct (decide _) as [E|]; [|reflexivity].
    now destruct Hne.
Qed.

Section KeepsIO.
Variable P : Machine -> Prop.
Hypothesis P_io : forall m m', io m m' -> P m -> P m'.

Lemma keeps_io_rd r : hoare P (rd r) (fun _ => P).
Proof using P_io.
  intros m HP. unfold wlp, rd. destruct (reg_ok r); [|exact I].
  eapply P_io; [apply io_access_rd | exact HP].
Qed.

Lemma keeps_io_wr r v : is_RAMn r = false -> hoare P (wr r v) (fun _ => P).
Proof using P_io.
  intros Hr m HP. unfold wlp, wr. destruct (reg_ok r); [|exact I].
  eapply P_io; [now apply io_access_wr | exact HP].
Qed.

Lemma keeps_io_set_bits r bits : is_RAMn r = false -> hoare P (set_bits r bits) (fun _ => P).
Proof using P_io.
  intros Hr. unfold set_bits.
  eapply hoare_bind; [apply keeps_io_rd|]. intros v. now apply keeps_io_wr.
Qed.

Lemma keeps_io_flagPollTimeout_Set fuel r mask :
  hoare P (flagPollTimeout_Set fuel r mask) (fun _ => P).
Proof using P_io.
  unfold flagPollTimeout_Set. cbv zeta.
  eapply hoare_bind; [now apply keeps_io_set_bits|]. intros ?.
  eapply hoare_bind; [now apply keeps_io_wr|]. intros ?.
  eapply hoare_bind; [now apply keeps_io_set_bits|]. intros ?.
  apply hoare_iter. intros delta.
  destruct (delta <? S32K.cycles_timeout); [|apply hoare_ret].
  eapply hoare_bind; [apply keeps_io_rd|]. intros flag.
  destruct (negb _); [apply hoare_ret|].
  eapply hoare_bind; [apply keeps_io_rd|]. intros cval. apply hoare_ret.
Qed.
End KeepsIO.

(** What a mailbox holds once [messageBuffer_Transmit] has returned. *)
Lemma transmit_layout fuel i tx f m st m' :
  FlexCAN_ok i = true -> 0 <= tx <= 6 -> 0 <= CAN.dlc_ f <= 15 ->
  messageBuffer_Transmit fuel i tx f m = Done st m' ->
  regs m' (CAN_RAMn i (tx * S32K.MB_Size_Words))
  = u32 (CAN_RAMn_DATA_BYTE_1 0x20 .|. CAN_WMBn_CS_DLC (CAN.getDLC f)
         .|. CAN_RAMn_DATA_BYTE_0 0xCC) /\
  regs m' (CAN_RAMn i (tx * S32K.MB_Size_Words + 1))
  = u32 (CAN.id f .&. CAN_WMBn_ID_ID_MASK) /\
  forall k, 0 <= k < payload_words (CAN.getDataLength f) ->
            regs m' (CAN_RAMn i (tx * S32K.MB_Size_Words + S32K.MB_Data_Offset + k))
            = u32 (REV_BYTES_32 (native_FrameData f k)).
Proof.
  intros Hi Htx Hdlc Hrun.
  set (n := payload_words (CAN.getDataLength f)).
  assert (Hn : 0 <= n <= 16).
  { pose proof (payload_words_range _ Hdlc) as H.
    destruct (payload_words_cover _ Hdlc) as [_ E]. rewrite E in H. exact H. }
  set (Pay := fun (k : Z) (m1 : Machine) =>
                forall k', 0 <= k' < k ->
                           regs m1 (CAN_RAMn i (tx * S32K.MB_Size_Words + S32K.MB_Data_Offset + k'))
                           = u32 (REV_BYTES_32 (native_FrameData f k'))).
  set (Final := fun m1 : Machine =>
                  regs m1 (CAN_RAMn i (tx * S32K.MB_Size_Words))
                  = u32 (CAN_RAMn_DATA_BYTE_1 0x20 .|. CAN_WMBn_CS_DLC (CAN.getDLC f)
                         .|. CAN_RAMn_DATA_BYTE_0 0xCC) /\
                  regs m1 (CAN_RAMn i (tx * S32K.MB_Size_Words + 1))
                  = u32 (CAN.id f .&. CAN_WMBn_ID_ID_MASK) /\
                  Pay n m1).
  assert (Hio : forall m1 m2, io m1 m2 -> Final m1 -> Final m2).
  { intros m1 m2 H (A & B & C). unfold Final, Pay.
    rewrite !(io_ram _ _ H). split; [exact A | split; [exact B|]].
    intros k' Hk'. rewrite (io_ram _ _ H). now apply C. }
  assert (Hok : forall j, 0 <= j < 18 ->
                          reg_ok (CAN_RAMn i (tx * S32K.MB_Size_Words + j)) = true).
  { intros j Hj. apply reg_ok_RAMn; [exact Hi|].
    unfold S32K.MB_Size_Words, CAN_RAMn_COUNT. lia. }
  apply (wlp_elim (messageBuffer_Transmit fuel i tx f) (fun _ => Final) m st m');
    [|exact Hrun].
  unfold messageBuffer_Transmit. cbv zeta. fold n.
  apply wlp_bind, wp_wlp. unfold for_range.
  eapply wp_weaken.
  { apply (wp_for_loop (fun k _ m1 => Pay (Z.of_nat k) m1)).
    - intros k' Hk'. lia.
    - intros k [] m1 Hk HP. rewrite Z.add_0_l.
      rewrite <- Z.add_assoc. apply wp_wr_ram.
      { apply Hok. unfold S32K.MB_Data_Offset. lia. }
      intros m2 Hnew Hold k' Hk'. rewrite Z.add_assoc in Hnew.
      destruct (Z.eq_dec k' (Z.of_nat k)) as [->|Hne]; [exact Hnew|].
      rewrite Hold; [apply HP; lia|]. intros E. inversion E. lia. }
  intros [] m1 HP. cbv beta in HP. rewrite Z2Nat.id in HP by lia.
  apply wlp_bind, wp_wlp, wp_wr_ram; [apply Hok; lia|]. intros m2 Hid Hold2.
  apply wlp_bind, wp_wlp.
  rewrite <- (Z.add_0_r (tx * S32K.MB_Size_Words)) at 1.
  apply wp_wr_ram; [apply Hok; lia|]. intros m3 Hcs Hold3.
  assert (HF : Final m3).
  { unfold Final. rewrite Z.add_0_r in *. split; [exact Hcs|]. split.
    - rewrite Hold3; [exact Hid|]. intros E. inversion E. lia.
    - intros k' Hk'. rewrite Hold3, Hold2.
      + now apply HP.
      + intros E. inversion E. unfold S32K.MB_Data_Offset in *. lia.
      + intros E. inversion E. unfold S32K.MB_Data_Offset in *. lia. }
  revert m3 HF Hcs Hold3. clear - Hio. intros m3 HF _ _. revert m3 HF.
  change (hoare Final
            (Status <- flagPollTimeout_Set fuel (CAN_IFLAG1 i) (Z.shiftl 1 tx) ;;
             set_bits (CAN_IFLAG1 i) (Z.shiftl 1 tx) ;; ret Status)
            (fun _ => Final)).
  eapply hoare_bind; [now apply keeps_io_flagPollTimeout_Set|]. intros Status.
  eapply hoare_bind; [now apply keeps_io_set_bits|]. intros ?. apply hoare_ret.
Qed.

End Transmission.

(** ** Encoding and decoding through the mailbox *)

Lemma lookup_nth_default (l : list Z) i d : (i < length l)%nat -> l !! i = Some (nth i l d).
Proof.
  intros H. destruct (lookup_lt_is_Some_2 l i H) as [x Hx].
  rewrite Hx. f_equal. symmetry. now apply nth_lookup_Some.
Qed.

Lemma take_four (l : list Z) m d :
  (m + 4 <= length l)%nat ->
  take (m + 4) l
  = take m l ++ [nth m l d; nth (m + 1) l d; nth (m + 2) l d; nth (m + 3) l d].
Proof.
  intros H.
  replace (m + 4)%nat with (S (S (S (S m)))) by lia.
  rewrite (take_S_r l (S (S (S m))) (nth (m + 3) l d))
    by (replace (S (S (S m))) with (m + 3)%nat by lia; apply lookup_nth_default; lia).
  rewrite (take_S_r l (S (S m)) (nth (m + 2) l d))
    by (replace (S (S m)) with (m + 2)%nat by lia; apply lookup_nth_default; lia).
  rewrite (take_S_r l (S m) (nth (m + 1) l d))
    by (replace (S m) with (m + 1)%nat by lia; apply lookup_nth_default; lia).
  rewrite (take_S_r l m (nth m l d)) by (apply lookup_nth_default; lia).
  now rewrite <- !app_assoc.
Qed.

Lemma nth_byte (l : list Z) i :
  Forall (fun b => 0 <= b < 256) l -> 0 <= nth i l 0 < 256.
Proof.
  intros H. destruct (Nat.lt_ge_cases i (length l)) as [Hlt|Hge].
  - rewrite Forall_lookup in H. apply (H i). now apply lookup_nth_default.
  - rewrite nth_overflow by lia. lia.
Qed.

(** The payload words, reversed into a mailbox and harvested from it, give
    back the first [4 * n] bytes of the frame. *)
Lemma payload_round_trip f n :
  Forall (fun b => 0 <= b < 256) (CAN.data f) ->
  (4 * n <= length (CAN.data f))%nat ->
  words_bytes
    (map (fun k => REV_BYTES_32 (u32 (u32 (REV_BYTES_32 (native_FrameData f (Z.of_nat k))))))
         (seq 0 n))
  = take (4 * n) (CAN.data f).
Proof.
  intros Hbytes. induction n as [|n IH]; intros Hlen.
  - reflexivity.
  - rewrite seq_S, map_app. unfold words_bytes in *. rewrite map_app, concat_app, IH by lia.
    replace (4 * S n)%nat with (4 * n + 4)%nat by lia.
    rewrite (take_four _ _ 0) by lia. f_equal.
    cbn [map concat]. rewrite app_nil_r. rewrite Nat.add_0_l.
    unfold native_FrameData.
    replace (Z.to_nat (4 * Z.of_nat n + 0)) with (4 * n)%nat by lia.
    replace (Z.to_nat (4 * Z.of_nat n + 1)) with (4 * n + 1)%nat by lia.
    replace (Z.to_nat (4 * Z.of_nat n + 2)) with (4 * n + 2)%nat by lia.
    replace (Z.to_nat (4 * Z.of_nat n + 3)) with (4 * n + 3)%nat by lia.
    apply word_round_trip; now apply nth_byte.
Qed.

Lemma control_word_dlc dlc :
  0 <= dlc <= 15 ->
  Z.shiftr (u32 (u32 (CAN_RAMn_DATA_BYTE_1 0x20 .|. CAN_WMBn_CS_DLC dlc
                      .|. CAN_RAMn_DATA_BYTE_0 0xCC))
            .&. CAN_WMBn_CS_DLC_MASK) CAN_WMBn_CS_DLC_SHIFT = dlc.
Proof. intros H. each_dlc H; reflexivity. Qed.

Lemma id_word_id id :
  0 <= id < 2 ^ 29 ->
  u32 (u32 (id .&. CAN_WMBn_ID_ID_MASK)) .&. CAN_WMBn_ID_ID_MASK .&. CAN.MaskExtID = id.
Proof.
  intros H. unfold CAN_WMBn_ID_ID_MASK, CAN.MaskExtID.
  change 0x1FFFFFFF with (Z.ones 29). rewrite !Z.land_ones by lia.
  rewrite (Z.mod_small id (2 ^ 29)) by lia. rewrite u32_idem, u32_small by lia.
  rewrite (Z.mod_small id (2 ^ 29)) by lia. apply Z.mod_small. lia.
Qed.

Section RoundTrip.

Context {target : Target} {peripherals : Peripherals}.

(** C7: a frame with a 29-bit identifier and a valid length code is written
    into a transmit mailbox by [messageBuffer_Transmit]; the bus delivers the
    identifier word, the DLC field and the payload words to a reception
    mailbox; the reception handler then queues a frame with the same
    identifier, the same byte length and the same payload bytes. *)
Theorem mailbox_round_trip fuel f i tx ms st ms' mr j rx q :
  frame_ok f ->
  FlexCAN_ok i = true -> 0 <= tx <= 1 ->
  messageBuffer_Transmit fuel i tx f ms = Done st ms' ->
  FlexCAN_ok j = true ->
  delivered ms' i tx mr j rx ->
  one_rx_flag (u32 (regs mr (CAN_IFLAG1 j)) .&. 124) rx ->
  at_index (g_frame_ISRbuffer mr) j = Some q ->
  Z.of_nat (length q) < S32K.Frame_Capacity ->
  exists g mr',
    S32K_libuavcan_ISR_handler j mr = Done tt mr' /\
    at_index (g_frame_ISRbuffer mr') j = Some (q ++ [g]) /\
    CAN.id g = CAN.id f /\
    CAN.getDLC g = CAN.getDLC f /\
    CAN.getDataLength g = CAN.getDataLength f /\
    take (Z.to_nat (CAN.getDataLength f)) (CAN.data g)
    = take (Z.to_nat (CAN.getDataLength f)) (CAN.data f).
Proof.
  intros (Hid & Hdlc & Hlen & Hbytes) Hi Htx Hrun Hj (Did & Dpay & Dcs) Hflag Hq Hroom.
  destruct (transmit_layout fuel i tx f ms st ms' Hi ltac:(lia) Hdlc Hrun)
    as (Lcs & Lid & Lpay).
  destruct (wp_elim _ _ _ (ISR_receives j rx q mr Hj Hflag Hq ltac:(lia)))
    as ([] & mr' & Hisr & ts & Hqs & _).
  exists (mailbox_frame (regs mr) j rx ts), mr'.
  split; [exact Hisr|]. split; [rewrite Hqs; eapply at_index_set_index, Hq|].
  assert (Edlc : CAN.FrameDLC
                   (Z.shiftr (u32 (regs mr (CAN_RAMn j (rx * S32K.MB_Size_Words)))
                              .&. CAN_WMBn_CS_DLC_MASK) CAN_WMBn_CS_DLC_SHIFT)
                 = CAN.dlc_ f).
  { rewrite Dcs, Lcs. unfold CAN.getDLC. rewrite (control_word_dlc _ Hdlc).
    now apply FrameDLC_small. }
  unfold mailbox_frame. rewrite Edlc.
  unfold CAN.getDLC, CAN.getDataLength, CAN.Frame_ctor. cbn [CAN.id CAN.dlc_ CAN.data].
  split; [|split; [reflexivity | split; [reflexivity|]]].
  - rewrite Did, Lid. now apply id_word_id.
  - destruct (payload_words_cover _ Hdlc) as [Hcover Ewords]. rewrite Ewords.
    pose proof (payload_words_range _ Hdlc) as Hwords. rewrite Ewords in Hwords.
    pose proof (dlcToLength_range _ Hdlc) as Hl.
    set (len := CAN.dlcToLength (CAN.dlc_ f)) in *.
    set (n := payload_words len) in *.
    assert (Ewords' : mailbox_words (regs mr) j rx (Z.to_nat n)
                      = map (fun k => REV_BYTES_32
                                        (u32 (u32 (REV_BYTES_32
                                                     (native_FrameData f (Z.of_nat k))))))
                            (seq 0 (Z.to_nat n))).
    { unfold mailbox_words. apply map_ext_in. intros k Hk. apply in_seq in Hk.
      rewrite Dpay by lia. rewrite Lpay; [reflexivity|].
      unfold CAN.getDataLength. fold len. fold n. lia. }
    rewrite Ewords', payload_round_trip;
      [| exact Hbytes | rewrite Hlen; unfold CAN.MaxFrameSizeBytes; lia].
    rewrite take_app_le by (rewrite length_take, length_take, Hlen;
                            unfold CAN.MaxFrameSizeBytes; lia).
    rewrite !take_take. f_equal. lia.
Qed.

End RoundTrip.

Lemma below_16 k :
  0 <= k < 16 ->
  k = 0 \/ k = 1 \/ k = 2 \/ k = 3 \/ k = 4 \/ k = 5 \/ k = 6 \/ k = 7
  \/ k = 8 \/ k = 9 \/ k = 10 \/ k = 11 \/ k = 12 \/ k = 13 \/ k = 14 \/ k = 15.
Proof. lia. Qed.

(** A 20-byte frame sent from instance 0 of the node board and received in
    mailbox 3 of instance 1. *)
Lemma mailbox_round_trip_witness :
  exists g mr',
    @S32K_libuavcan_ISR_handler S32K146_board (sim true) 1 looped_back = Done tt mr' /\
    at_index (g_frame_ISRbuffer mr') 1 = Some ([] ++ [g]) /\
    CAN.id g = CAN.id (sample_frame 11) /\
    CAN.getDLC g = CAN.getDLC (sample_frame 11) /\
    CAN.getDataLength g = CAN.getDataLength (sample_frame 11) /\
    take (Z.to_nat (CAN.getDataLength (sample_frame 11))) (CAN.data g)
    = take (Z.to_nat (CAN.getDataLength (sample_frame 11))) (CAN.data (sample_frame 11)).
Proof.
  apply (@mailbox_round_trip S32K146_board (sim true) 100%nat (sample_frame 11) 0 0
           started Success transmitted looped_back 1 3 []).
  - unfold frame_ok. split; [vm_compute; split; [discriminate | reflexivity]|].
    split; [vm_compute; split; discriminate|]. split; [reflexivity|].
    let l := eval vm_compute in (CAN.data (sample_frame 11)) in
    change (CAN.data (sample_frame 11)) with l.
    repeat constructor; lia.
  - reflexivity.
  - lia.
  - apply (done_after (@messageBuffer_Transmit S32K146_board (sim true) 100 0 0
                         (sample_frame 11))).
    vm_compute. reflexivity.
  - reflexivity.
  - split; [vm_compute; reflexivity|]. split; [|vm_compute; reflexivity].
    intros k Hk. apply below_16 in Hk.
    repeat (destruct Hk as [Hk|Hk]); subst k; vm_compute; reflexivity.
  - right. left. split; vm_compute; reflexivity.
  - reflexivity.
  - vm_compute. reflexivity.
Defined.

(** ** Argument checks, freeze mode and the group handle *)

Section Checks.

Context {target : Target} {peripherals : Peripherals}.

Lemma trace_extends_access T : access_stable (trace_extends T).
Proof.
  split.
  - intros a m [later E]. exists (a :: later). simpl. now rewrite E.
  - intros b m H. exact H.
Qed.

Lemma trace_extends_queue T : queue_stable (trace_extends T).
Proof. intros qs m H. exact H. Qed.

Lemma hoare_value_bind {A B} (c : M A) (k : A -> M B) (R : B -> Prop) :
  (forall a, hoare (fun _ => True) (k a) (fun b _ => R b)) ->
  hoare (fun _ => True) (bind c k) (fun b _ => R b).
Proof. intros H m _. unfold wlp, bind. destruct (c m); auto. now apply H. Qed.

Lemma startInterfaceGroup_value fuel filter_config filter_config_length out_group :
  hoare (fun _ => True)
        (startInterfaceGroup fuel filter_config filter_config_length out_group)
        (fun r _ => r = (if filter_config_length >? S32K.Filter_Count
                         then BadArgument else Success,
                         addr_S32K_InterfaceGroupObj_)).
Proof.
  unfold startInterfaceGroup. cbv zeta.
  repeat (apply hoare_value_bind; intros ?).
  intros m _. reflexivity.
Qed.

(** X14: whenever startInterfaceGroup returns, it hands out the group object,
    and its status is decided by the filter count alone. *)
Lemma startInterfaceGroup_result fuel filter_config filter_config_length out_group m r m' :
  startInterfaceGroup fuel filter_config filter_config_length out_group m = Done r m' ->
  r = (if filter_config_length >? S32K.Filter_Count then BadArgument else Success,
       addr_S32K_InterfaceGroupObj_).
Proof.
  intros Hrun.
  exact (wlp_elim _ _ _ _ _
           (startInterfaceGroup_value fuel filter_config filter_config_length out_group m I)
           Hrun).
Qed.

(** X15: with too many filters reconfigureFilters answers BadArgument and
    touches nothing. *)
Lemma reconfigureFilters_rejects fuel filter_config filter_config_length m :
  S32K.Filter_Count < filter_config_length ->
  reconfigureFilters fuel filter_config filter_config_length m = Done BadArgument m.
Proof. intros H. unfold reconfigureFilters. now rewrite gtb_true. Qed.

(** X16: [write] reads the status register of the instance before anything
    else, whatever its arguments. *)
Lemma write_reaches_hardware fuel interface_index frames frames_len out_frames_written
      m r m' :
  write fuel interface_index frames frames_len out_frames_written m = Done r m' ->
  trace_extends (Rd (CAN_ESR2 (interface_index - 1))
                    (u32 (regs m (CAN_ESR2 (interface_index - 1)))) :: trace m) m'.
Proof.
  intros Hrun.
  set (T := Rd (CAN_ESR2 (interface_index - 1))
               (u32 (regs m (CAN_ESR2 (interface_index - 1)))) :: trace m).
  pose proof (trace_extends_access T) as Ha.
  apply (wlp_elim (write fuel interface_index frames frames_len out_frames_written)
                  (fun _ => trace_extends T) m r m'); [|exact Hrun].
  unfold write. cbv zeta. apply wlp_bind.
  unfold wlp at 1. unfold rd at 1. destruct (reg_ok _); [|exact I].
  lazymatch goal with
  | |- wlp ?c ?Q _ =>
      cut (hoare (trace_extends T) c Q); [intros Hc; apply Hc; now exists []|]
  end.
  keeps_with ltac:(idtac; lazymatch goal with
                   | |- hoare _ (messageBuffer_Transmit _ _ _ _) _ =>
                       apply keeps_messageBuffer_Transmit; assumption
                   end).
Qed.

(** X19: reconfigureFilters rewrites the first mailbox word right after the
    freeze request: between the request and that write it reads no
    register, the freeze acknowledge included. *)
Lemma reconfigureFilters_rewrites_at_once fuel filter_config filter_config_length m r m' :
  filter_config_length <= S32K.Filter_Count ->
  reconfigureFilters fuel filter_config filter_config_length m = Done r m' ->
  trace_extends
    (Wr (CAN_RAMn 0 0) 0
     :: Wr (CAN_MCR 0) (u32 (u32 (regs m (CAN_MCR 0))
                             .|. (CAN_MCR_HALT_MASK .|. CAN_MCR_FRZ_MASK)))
     :: Rd (CAN_MCR 0) (u32 (regs m (CAN_MCR 0))) :: trace m) m'.
Proof.
  intros Hlen Hrun.
  set (T := Wr (CAN_RAMn 0 0) 0
            :: Wr (CAN_MCR 0) (u32 (u32 (regs m (CAN_MCR 0))
                                    .|. (CAN_MCR_HALT_MASK .|. CAN_MCR_FRZ_MASK)))
            :: Rd (CAN_MCR 0) (u32 (regs m (CAN_MCR 0))) :: trace m).
  pose proof (trace_extends_access T) as Ha.
  pose proof CANFD_Count_range as Hcount.
  assert (H0 : FlexCAN_ok 0 = true).
  { unfold FlexCAN_ok. apply andb_true_intro. split; [reflexivity | apply Z.ltb_lt; lia]. }
  apply (wlp_elim (reconfigureFilters fuel filter_config filter_config_length)
                  (fun _ => trace_extends T) m r m'); [|exact Hrun].
  unfold reconfigureFilters. rewrite gtb_false by lia. cbv zeta. cbn [isSuccess].
  destruct (Z.to_nat CANFD_Count) as [|n] eqn:En; [lia|].
  rewrite for_loop_S. apply wlp_bind, wlp_bind, wp_wlp.
  apply wp_set_bits; [exact H0 | reflexivity|]. intros m1 v _ T1 _.
  cbn [isSuccess]. unfold for_range at 1.
  replace (Z.to_nat CAN_RAMn_COUNT) with (S (Z.to_nat 127)) by reflexivity.
  rewrite for_loop_S. apply wlp_bind, wlp_bind.
  unfold wlp at 1. unfold wr at 1.
  rewrite reg_ok_RAMn by (try exact H0; unfold CAN_RAMn_COUNT; lia).
  assert (Hbody : forall i Status,
             hoare (trace_extends T)
               (set_bits (CAN_MCR i) (CAN_MCR_HALT_MASK .|. CAN_MCR_FRZ_MASK) ;;
                if isSuccess Status then
                  for_range CAN_RAMn_COUNT (fun j => wr (CAN_RAMn i j) 0) ;;
                  for_range CAN_RXIMR_COUNT (fun j => wr (CAN_RXIMR i j) 0) ;;
                  for_u8 fuel filter_config_length (program_filter i filter_config) ;;
                  clear_bits (CAN_MCR i) (CAN_MCR_HALT_MASK .|. CAN_MCR_FRZ_MASK) ;;
                  if isSuccess Status then
                    Status <- flagPollTimeout_Clear fuel (CAN_MCR i) CAN_MCR_FRZACK_MASK ;;
                    if isSuccess Status then
                      flagPollTimeout_Clear fuel (CAN_MCR i) CAN_MCR_NOTRDY_MASK
                    else ret Status
                  else ret Status
                else ret Status)
               (fun _ => trace_extends T)).
  { intros i Status.
    keeps_with ltac:(idtac; lazymatch goal with
                     | |- hoare _ (flagPollTimeout_Clear _ _ _) _ =>
                         apply keeps_flagPollTimeout_Clear; assumption
                     | |- hoare _ (program_filter _ _ _) _ =>
                         apply keeps_program_filter; assumption
                     end). }
  apply (wlp_hoare_step (trace_extends T)).
  { apply hoare_for_loop. intros ? ?. apply keeps_wr. assumption. }
  { exists []. simpl. now rewrite T1. }
  intros ? m2 H2. apply (wlp_hoare_step (trace_extends T)); [|exact H2|].
  { keeps_with ltac:(idtac; lazymatch goal with
                     | |- hoare _ (flagPollTimeout_Clear _ _ _) _ =>
                         apply keeps_flagPollTimeout_Clear; assumption
                     | |- hoare _ (program_filter _ _ _) _ =>
                         apply keeps_program_filter; assumption
                     end). }
  intros Status m3 H3.
  apply (hoare_for_loop (trace_extends T)); [|exact H3]. intros i St. apply Hbody.
Qed.

End Checks.

(** C3 (the driver departs from the specification): on the node board, with
    a FlexCAN module that never raises the freeze acknowledge, reconfigureFilters still
    answers Success; its first three accesses are the read and the write of the
    freeze request and the zeroing of the first mailbox word, no read of MCR
    ever shows the acknowledge, and 276 words of mailbox memory are written. *)
Theorem reconfigureFilters_rewrites_unfrozen_mailboxes :
  value_of (refilter_unacknowledged started) = Some Success /\
  take 3 (accesses_of refilter_unacknowledged started)
  = [Rd (CAN_MCR 0) 198662; Wr (CAN_MCR 0) 1342375942; Wr (CAN_RAMn 0 0) 0] /\
  forallb FRZACK_unseen (accesses_of refilter_unacknowledged started) = true /\
  length (filter (fun a => is_RAMn_write a = true)
                 (accesses_of refilter_unacknowledged started)) = 276%nat.
Proof. vm_compute. repeat split. Qed.

(** C4 (the driver departs from the specification): on the started node board,
    [write] called with frames_len = 2 > TxFramesLen does not answer
    BadArgument: it reads ESR2, fills transmit mailbox 0, polls, and answers
    Success with one frame written; startInterfaceGroup called with six
    filters answers BadArgument only after 454 register accesses.  Only
    reconfigureFilters rejects its argument without touching the hardware. *)
Theorem bad_arguments_reach_the_hardware :
  value_of (write_two_frames started) = Some (Success, 1) /\
  take 4 (accesses_of write_two_frames started)
  = [Rd (CAN_ESR2 0) 24576; Rd (CAN_ESR2 0) 24576; Rd (CAN_ESR2 0) 24576;
     Wr (CAN_RAMn 0 2) 16909060] /\
  length (accesses_of write_two_frames started) = 15%nat /\
  value_of (start_six_filters (@power_on S32K146_board))
  = Some (BadArgument, addr_S32K_InterfaceGroupObj_) /\
  length (accesses_of start_six_filters (@power_on S32K146_board)) = 454%nat /\
  value_of (refilter_too_many started) = Some BadArgument /\
  accesses_of refilter_too_many started = [].
Proof. vm_compute. repeat split. Qed.

(** C5 (the driver departs from the specification): on the node board
    startInterfaceGroup called with six filters (one more than Filter_Count)
    answers BadArgument and nevertheless stores the address of the group
    object in out_group. *)
Theorem startInterfaceGroup_bad_argument_yields_handle :
  (6 >? S32K.Filter_Count) = true /\
  value_of (start_six_filters (@power_on S32K146_board))
  = Some (BadArgument, addr_S32K_InterfaceGroupObj_).
Proof. vm_compute. repeat split. Qed.

(** * Further properties of the driver *)

(** ** More rules of the program logic *)

Section MoreLogic.

Context {target : Target} {peripherals : Peripherals}.

Lemma hoare_rd_rule (P : Machine -> Prop) (Q : Z -> Machine -> Prop) r :
  (forall m, P m -> reg_ok r = true ->
             Q (u32 (regs m r)) (access (Rd r (u32 (regs m r))) m)) ->
  hoare P (rd r) Q.
Proof.
  intros H m HP. unfold wlp, rd. destruct (reg_ok r) eqn:E; [|exact I]. now apply H.
Qed.

Lemma hoare_wr_rule (P : Machine -> Prop) (Q : unit -> Machine -> Prop) r v :
  (forall m, P m -> reg_ok r = true -> Q tt (access (Wr r (u32 v)) m)) ->
  hoare P (wr r v) Q.
Proof.
  intros H m HP. unfold wlp, wr. destruct (reg_ok r) eqn:E; [|exact I]. now apply H.
Qed.

Lemma hoare_set_bits_rule (P : Machine -> Prop) (Q : unit -> Machine -> Prop) r bits :
  (forall m, P m -> reg_ok r = true ->
             Q tt (access (Wr r (u32 (u32 (regs m r) .|. bits)))
                          (access (Rd r (u32 (regs m r))) m))) ->
  hoare P (set_bits r bits) Q.
Proof.
  intros H m HP. unfold wlp, set_bits, bind, rd, wr.
  destruct (reg_ok r) eqn:E; [|exact I]. now apply H.
Qed.

Lemma hoare_skip_bind {A B} (c : M A) (k : A -> M B) (Q : B -> Machine -> Prop) :
  (forall a, hoare (fun _ => True) (k a) Q) -> hoare (fun _ => True) (bind c k) Q.
Proof. intros H m _. unfold wlp, bind. destruct (c m); auto. now apply H. Qed.


(** A loop with an invariant on its state. *)
Lemma hoare_iter_inv {J R} (Inv : J -> Machine -> Prop) (Q : R -> Machine -> Prop)
      fuel (step : J -> M (J + R)) i :
  (forall i, hoare (Inv i) (step i)
                   (fun r m => match r with inl i' => Inv i' m | inr x => Q x m end)) ->
  hoare (Inv i) (iter fuel step i) Q.
Proof.
  intros Hstep. revert i. induction fuel as [|fuel IH]; intros i.
  - intros m _. exact I.
  - simpl. eapply hoare_bind; [apply Hstep|]. intros [i'|x]; [apply IH|].
    intros m H. exact H.
Qed.

Lemma hoare_for_loop_inv {S} (Inv : nat -> S -> Machine -> Prop) n (i0 : Z)
      (body : Z -> S -> M S) s m :
  Inv 0%nat s m ->
  (forall k s, (k < n)%nat ->
               hoare (Inv k s) (body (i0 + Z.of_nat k) s) (fun s' => Inv (Datatypes.S k) s')) ->
  wlp (for_loop n i0 body s) (fun s' m' => Inv n s' m') m.
Proof.
  revert Inv i0 s m. induction n as [|n IH]; intros Inv i0 s m H0 Hstep.
  - exact H0.
  - simpl. apply wlp_bind. eapply wlp_weaken.
    + specialize (Hstep 0%nat s). rewrite Z.add_0_r in Hstep. apply Hstep; [lia | exact H0].
    + intros s' m' H1. cbv beta in H1.
      apply (IH (fun k => Inv (Datatypes.S k))); [exact H1|].
      intros k s1 Hk.
      replace (i0 + 1 + Z.of_nat k) with (i0 + Z.of_nat (Datatypes.S k)) by lia.
      apply Hstep. lia.
Qed.


End MoreLogic.

(** ** Waiting for a frame or a free mailbox: [select] *)

Section Selecting.

Context {target : Target} {peripherals : Peripherals}.

Lemma hoare_deque (P : Machine -> Prop) i :
  hoare P (deque i) (fun q m => P m /\ at_index (g_frame_ISRbuffer m) i = Some q).
Proof.
  intros m HP. unfold wlp, deque. destruct (at_index _ _) eqn:E; [now split | exact I].
Qed.

Lemma wp_for_until_finds {R} (P : Machine -> Prop) (x : R) n i (body : Z -> M (option R)) m :
  P m ->
  (forall k m, i <= k < i + Z.of_nat n -> P m ->
               wp (body k) (fun r m' => P m' /\ (r = None \/ r = Some x)) m) ->
  (exists k, i <= k < i + Z.of_nat n /\
             forall m, P m -> wp (body k) (fun r m' => P m' /\ r = Some x) m) ->
  wp (for_until n i body) (fun r m' => P m' /\ r = Some x) m.
Proof.
  revert i m. induction n as [|n IH]; intros i m HP Hall (k & Hk & Hfound).
  - lia.
  - simpl. apply wp_bind.
    destruct (Z.eq_dec k i) as [->|Hne].
    + eapply wp_weaken; [apply Hfound, HP|]. intros r m' [HP' ->]. now apply wp_ret.
    + eapply wp_weaken; [apply Hall; [lia | exact HP]|].
      intros r m' [HP' [->| ->]].
      * apply IH; [exact HP' | intros; apply Hall; [lia|assumption] |].
        exists k. split; [lia | exact Hfound].
      * now apply wp_ret.
Qed.

Lemma hoare_for_until_some {R} (P : Machine -> Prop) (G : R -> Prop) n i
      (body : Z -> M (option R)) :
  (forall k, hoare P (body k)
                   (fun r m' => P m' /\ match r with Some x => G x | None => True end)) ->
  hoare P (for_until n i body)
        (fun r m' => P m' /\ match r with Some x => G x | None => True end).
Proof.
  intros Hbody. revert i. induction n as [|n IH]; intros i.
  - intros m HP. now split.
  - simpl. eapply hoare_bind; [apply Hbody|]. intros [x|].
    + intros m H. exact H.
    + eapply hoare_weaken; [apply IH | intros m H; apply H | auto].
Qed.

Lemma FlexCAN_ok_intro i : 0 <= i < CANFD_Count -> FlexCAN_ok i = true.
Proof.
  intros H. unfold FlexCAN_ok. apply andb_true_intro.
  split; [apply Z.leb_le | apply Z.ltb_lt]; lia.
Qed.

Lemma at_index_range {A} (l : list A) i x :
  at_index l i = Some x -> 0 <= i < Z.of_nat (length l).
Proof.
  unfold at_index. destruct (Z.leb_spec 0 i); [|discriminate].
  intros E. apply lookup_lt_Some in E. lia.
Qed.

Lemma at_index_some {A} (l : list A) i :
  0 <= i < Z.of_nat (length l) -> exists x, at_index l i = Some x.
Proof.
  intros Hi. unfold at_index. destruct (Z.leb_spec 0 i); [|lia].
  destruct (lookup_lt_is_Some_2 l (Z.to_nat i)) as [x E]; [lia|]. eauto.
Qed.

(** X1: a frame waiting in some reception queue, and a timeout of at least
    one microsecond (modulo 2^32): [select] answers Success in its first pass
    over the interfaces, whatever the hardware reports, and leaves the queues
    as they are. *)
Theorem select_finds_waiting_frame fuel timeout ignore_write_available m i f q :
  0 < u32 (toMicrosecond timeout) ->
  length (g_frame_ISRbuffer m) = Z.to_nat CANFD_Count ->
  at_index (g_frame_ISRbuffer m) i = Some (f :: q) ->
  exists m',
    select (S fuel) timeout ignore_write_available m = Done Success m' /\
    g_frame_ISRbuffer m' = g_frame_ISRbuffer m.
Proof.
  intros Ht Hlen Hi.
  pose proof CANFD_Count_range as Hc.
  destruct (wp_elim (select (S fuel) timeout ignore_write_available)
                    (fun r m' => r = Success /\ io m m') m) as (r & m' & Hrun & -> & Hio).
  2:{ exists m'. split; [exact Hrun | apply (io_queues _ _ Hio)]. }
  unfold select. cbv zeta.
  apply wp_bind, wp_set_bits; [reflexivity..|]. intros m1 v1 H1 _ _.
  apply wp_bind, wp_wr; [reflexivity..|]. intros m2 H2 _.
  apply wp_bind, wp_set_bits; [reflexivity..|]. intros m3 v3 H3 _ _.
  assert (Hio3 : io m m3) by eauto using io_trans.
  cbn [iter]. apply wp_bind.
  replace (0 <? u32 (toMicrosecond timeout)) with true by (symmetry; apply Z.ltb_lt; lia).
  apply wp_bind.
  eapply wp_weaken.
  { apply (wp_for_until_finds (io m) Success); [exact Hio3 | |].
    - intros k mk Hk Hmk. rewrite Z.add_0_l, Z2Nat.id in Hk by lia.
      destruct (at_index_some (g_frame_ISRbuffer m) k) as [qk Hqk]; [lia|].
      unfold deque_empty. apply wp_bind, wp_bind, (wp_deque k qk); [now rewrite (io_queues _ _ Hmk)|].
      apply wp_ret.
      destruct qk as [|fk qk']; cbn [negb]; [|apply wp_ret; auto].
      destruct ignore_write_available; cbn [negb]; [apply wp_ret; auto|].
      apply wp_bind, wp_rd; [now apply FlexCAN_ok_intro|]. intros ma Ha _.
      destruct (negb _); [|apply wp_ret; eauto using io_trans].
      apply wp_bind, wp_rd; [now apply FlexCAN_ok_intro|]. intros mb Hb _.
      destruct (negb _); apply wp_ret; eauto using io_trans.
    - exists i. pose proof (at_index_range _ _ _ Hi) as Hr. split; [lia|].
      intros mk Hmk. unfold deque_empty.
      apply wp_bind, wp_bind, (wp_deque i (f :: q)); [now rewrite (io_queues _ _ Hmk)|].
      apply wp_ret. cbn [negb]. apply wp_ret. auto. }
  intros r m4 [H4 ->]. cbv beta. apply wp_ret, wp_ret. auto.
Qed.

(** X2: a timeout whose microsecond count is zero modulo 2^32: [select]
    starts timer channel 3 and answers SuccessTimeout at once; it looks at no
    queue and at no FlexCAN register, so a frame that is waiting goes
    unreported. *)
Theorem select_zero_timeout_polls_nothing fuel timeout ignore_write_available m :
  u32 (toMicrosecond timeout) = 0 ->
  exists m' v w,
    select (S fuel) timeout ignore_write_available m = Done SuccessTimeout m' /\
    io m m' /\
    trace m' = Wr LPIT0_SETTEN w :: Rd LPIT0_SETTEN v
               :: Wr (LPIT0_TVAL 3) LPIT_TMR_CVAL_TMR_CUR_VAL_MASK
               :: Wr LPIT0_CLRTEN (u32 (u32 (regs m LPIT0_CLRTEN) .|. LPIT_CLRTEN_CLR_T_EN_3 1))
               :: Rd LPIT0_CLRTEN (u32 (regs m LPIT0_CLRTEN)) :: trace m.
Proof.
  intros Ht.
  destruct (wp_elim (select (S fuel) timeout ignore_write_available)
              (fun r m' =>
                 r = SuccessTimeout /\ io m m' /\
                 exists v w,
                   trace m' = Wr LPIT0_SETTEN w :: Rd LPIT0_SETTEN v
                     :: Wr (LPIT0_TVAL 3) LPIT_TMR_CVAL_TMR_CUR_VAL_MASK
                     :: Wr LPIT0_CLRTEN
                           (u32 (u32 (regs m LPIT0_CLRTEN) .|. LPIT_CLRTEN_CLR_T_EN_3 1))
                     :: Rd LPIT0_CLRTEN (u32 (regs m LPIT0_CLRTEN)) :: trace m) m)
    as (r & m' & Hrun & -> & Hio & v & w & HT).
  2:{ exists m', v, w. auto. }
  unfold select. cbv zeta.
  apply wp_bind, wp_set_bits; [reflexivity..|]. intros m1 v1 H1 T1 _.
  apply wp_bind, wp_wr; [reflexivity..|]. intros m2 H2 T2.
  apply wp_bind, wp_set_bits; [reflexivity..|]. intros m3 v3 H3 T3 _.
  cbn [iter]. rewrite Ht. cbn [Z.ltb Z.compare]. apply wp_bind, wp_ret, wp_ret.
  split; [reflexivity|]. split; [eauto using io_trans|].
  eexists _, _. rewrite T3, T2, T1. reflexivity.
Qed.

(** X3: whatever the hardware does, [select] answers Success or
    SuccessTimeout only, changes no queue, no discard counter and no word of
    the message-buffer RAM, and, when asked to ignore write availability,
    answers Success only if a frame is waiting in some queue. *)
Theorem select_answers fuel timeout ignore_write_available m r m' :
  select fuel timeout ignore_write_available m = Done r m' ->
  (r = Success \/ r = SuccessTimeout) /\
  io m m' /\
  (r = Success -> ignore_write_available = true ->
   exists i f q, at_index (g_frame_ISRbuffer m) i = Some (f :: q)).
Proof.
  set (G := fun r : Result =>
              r = Success /\
              (ignore_write_available = true ->
               exists i f q, at_index (g_frame_ISRbuffer m) i = Some (f :: q))).
  intros Hrun.
  assert (Hio : forall m1 m2, io m1 m2 -> io m m1 -> io m m2)
    by (intros m1 m2 H12 H1; exact (io_trans _ _ _ H1 H12)).
  cut (io m m' /\ (G r \/ r = SuccessTimeout)).
  { intros [H [[-> HG]| ->]]; (split; [auto | split; [exact H|]]).
    - intros _. exact HG.
    - discriminate. }
  assert (Hh : hoare (io m) (select fuel timeout ignore_write_available)
                     (fun r m' => io m m' /\ (G r \/ r = SuccessTimeout))).
  2:{ exact (wlp_elim _ _ _ _ _ (Hh m (io_refl m)) Hrun). }
  clear Hrun. unfold select. cbv zeta.
  eapply hoare_bind; [now apply keeps_io_set_bits|]. intros ?.
  eapply hoare_bind; [now apply keeps_io_wr|]. intros ?.
  eapply hoare_bind; [now apply keeps_io_set_bits|]. intros ?.
  apply (hoare_iter_inv (fun _ => io m)). intros delta.
  destruct (delta <? _); [|intros mk Hk; split; [exact Hk | now right]].
  eapply hoare_bind.
  { apply (hoare_for_until_some (io m) G). intros k.
    apply (hoare_bind _ (fun empty mk =>
                           io m mk /\
                           (empty = false ->
                            exists f q, at_index (g_frame_ISRbuffer mk) k = Some (f :: q)))).
    { unfold deque_empty. eapply hoare_bind; [apply hoare_deque|].
      intros qk mk [Hk Hq]. split; [exact Hk|].
      destruct qk as [|f q]; [discriminate | eauto]. }
    intros [|]; cbn [negb].
    - assert (Hnone : hoare (io m) (ret (@None Result))
                            (fun r mk => io m mk /\ match r with
                                                    | Some x => G x
                                                    | None => True
                                                    end))
        by (intros mk Hk; now split).
      assert (Hsome : ignore_write_available = false ->
                      hoare (io m) (ret (Some Success))
                            (fun r mk => io m mk /\ match r with
                                                    | Some x => G x
                                                    | None => True
                                                    end)).
      { intros E mk Hk. split; [exact Hk|]. split; [reflexivity|]. congruence. }
      eapply hoare_weaken; [|intros mk [Hk _]; exact Hk | intros ? mk H; exact H].
      destruct ignore_write_available; cbn [negb]; [exact Hnone|].
      eapply hoare_bind; [now apply keeps_io_rd|]. intros imb.
      destruct (negb _); [|exact Hnone].
      eapply hoare_bind; [now apply keeps_io_rd|]. intros vps.
      destruct (negb _); [now apply Hsome | exact Hnone].
    - intros mk [Hk Hq]. split; [exact Hk|]. split; [reflexivity|].
      intros _. destruct (Hq eq_refl) as (f & q & E).
      rewrite (io_queues _ _ Hk) in E. eauto. }
  intros [Status|].
  - intros mk [Hk HG]. split; [exact Hk | now left].
  - eapply hoare_weaken; [|intros mk [Hk _]; exact Hk | intros ? mk H; exact H].
    eapply hoare_bind; [now apply keeps_io_rd|]. intros cval mk Hk. exact Hk.
Qed.

End Selecting.

(** On the node board a frame waits on instance 0 and the caller allows one
    millisecond. *)
Lemma select_finds_waiting_frame_witness :
  value_of (@select S32K146_board (sim true) 1 1000 true (queued 1 0 0)) = Some Success.
Proof.
  destruct (@select_finds_waiting_frame S32K146_board (sim true) 0%nat 1000 true
              (queued 1 0 0) 0 (CAN.Frame_ctor 0x55 [] 0 0) [])
    as (m' & E & _); [reflexivity | reflexivity | reflexivity |].
  rewrite E. reflexivity.
Defined.

(** The same frame waits, and the caller allows 2^32 microseconds. *)
Lemma select_zero_timeout_polls_nothing_witness :
  value_of (@select S32K146_board (sim true) 1 (2 ^ 32) true (queued 1 0 0))
  = Some SuccessTimeout.
Proof.
  destruct (@select_zero_timeout_polls_nothing S32K146_board (sim true) 0%nat (2 ^ 32) true
              (queued 1 0 0))
    as (m' & v & w & E & _); [reflexivity|].
  rewrite E. reflexivity.
Defined.

(** Nothing waits on the node board after reset and the caller allows three
    microseconds. *)
Lemma select_answers_witness :
  io (@power_on S32K146_board)
     (after (@select S32K146_board (sim true) 10 3 true) (@power_on S32K146_board)).
Proof.
  refine (proj1 (proj2 (@select_answers S32K146_board (sim true) 10%nat 3 true
                          power_on SuccessTimeout _ _))).
  apply done_after. vm_compute. reflexivity.
Defined.

(** ** The timed polls *)

Section Polling.

Context {target : Target} {peripherals : Peripherals}.

Lemma writes_within_refl ws m : writes_within ws (trace m) m.
Proof. exists []. split; [reflexivity | constructor]. Qed.

Lemma writes_within_rd ws T r v m :
  writes_within ws T m -> writes_within ws T (access (Rd r v) m).
Proof.
  intros (later & E & H). exists (Rd r v :: later). split; [simpl; now rewrite E|].
  now constructor.
Qed.

Lemma writes_within_wr ws T r v m :
  r ∈ ws -> writes_within ws T m -> writes_within ws T (access (Wr r v) m).
Proof.
  intros Hr (later & E & H). exists (Wr r v :: later). split; [simpl; now rewrite E|].
  now constructor.
Qed.

Lemma writes_within_mono ws ws' T m :
  ws ⊆ ws' -> writes_within ws T m -> writes_within ws' T m.
Proof.
  intros Hsub (later & E & H). exists later. split; [exact E|].
  eapply Forall_impl; [exact H|]. intros [r v|r v]; [auto|]. apply Hsub.
Qed.


(** What both polls establish, whichever way the flag is tested. *)
Lemma poll_answer fuel flagRegister (test : Z -> bool) m :
  hoare (fun mk => mk = m)
        (set_bits LPIT0_CLRTEN (LPIT_CLRTEN_CLR_T_EN_2 1) ;;
         wr (LPIT0_TVAL 2) LPIT_TMR_CVAL_TMR_CUR_VAL_MASK ;;
         set_bits LPIT0_SETTEN (LPIT_SETTEN_SET_T_EN_2 1) ;;
         iter fuel
              (fun delta =>
                 if delta <? S32K.cycles_timeout then
                   flag <- rd flagRegister ;;
                   if test flag then ret (inr Success)
                   else cval <- rd (LPIT0_CVAL 2) ;;
                        ret (inl (u32 (LPIT_TMR_CVAL_TMR_CUR_VAL_MASK - cval)))
                 else ret (inr Failure))
              0)
        (fun st m' =>
           io m m' /\
           writes_within [LPIT0_CLRTEN; LPIT0_TVAL 2; LPIT0_SETTEN] (trace m) m' /\
           ((st = Success /\
             exists v rest, trace m' = Rd flagRegister v :: rest /\ test v = true) \/
            (st = Failure /\
             exists c rest, trace m' = Rd (LPIT0_CVAL 2) c :: rest /\
                            S32K.cycles_timeout <= u32 (LPIT_TMR_CVAL_TMR_CUR_VAL_MASK - c)))).
Proof.
  set (ws := [LPIT0_CLRTEN; LPIT0_TVAL 2; LPIT0_SETTEN]).
  set (W := fun mk => io m mk /\ writes_within ws (trace m) mk).
  assert (W_rd : forall r v mk, W mk -> W (access (Rd r v) mk)).
  { intros r v mk [H1 H2]. split; [|now apply writes_within_rd].
    eapply io_trans; [exact H1 | apply io_access_rd]. }
  assert (W_wr : forall r v mk, r ∈ ws -> is_RAMn r = false -> W mk -> W (access (Wr r v) mk)).
  { intros r v mk Hr Hram [H1 H2]. split; [|now apply writes_within_wr].
    eapply io_trans; [exact H1 | now apply io_access_wr]. }
  apply (hoare_bind _ (fun _ => W)).
  { apply hoare_set_bits_rule. intros mk -> _. apply W_wr; [repeat constructor | reflexivity|].
    apply W_rd. split; [apply io_refl | apply writes_within_refl]. }
  intros _. apply (hoare_bind _ (fun _ => W)).
  { apply hoare_wr_rule. intros mk H _. apply W_wr; [repeat constructor | reflexivity | exact H]. }
  intros _.
  apply (hoare_bind _ (fun _ mk =>
                         W mk /\
                         (0 = 0 \/
                          exists c rest, trace mk = Rd (LPIT0_CVAL 2) c :: rest /\
                                         0 = u32 (LPIT_TMR_CVAL_TMR_CUR_VAL_MASK - c)))).
  { apply hoare_set_bits_rule. intros mk H _. split; [|now left].
    apply W_wr; [repeat constructor | reflexivity|]. now apply W_rd. }
  intros _.
  eapply hoare_weaken;
    [apply (hoare_iter_inv
              (fun delta mk =>
                 W mk /\
                 (delta = 0 \/
                  exists c rest, trace mk = Rd (LPIT0_CVAL 2) c :: rest /\
                                 delta = u32 (LPIT_TMR_CVAL_TMR_CUR_VAL_MASK - c))))
    | intros mk H; exact H
    | intros st mk H; exact H].
  intros delta. destruct (Z.ltb_spec delta S32K.cycles_timeout) as [Hlt|Hge].
  - apply (hoare_bind _ (fun flag mk => W mk /\ exists rest, trace mk = Rd flagRegister flag :: rest)).
    { apply hoare_rd_rule. intros mk [H _] _. split; [now apply W_rd|]. simpl. eauto. }
    intros flag. destruct (test flag) eqn:F.
    + intros mk [[H1 H2] [rest E]]. split; [exact H1|]. split; [exact H2|].
      left. split; [reflexivity|]. eauto.
    + apply (hoare_bind _ (fun cval mk =>
                             W mk /\ exists rest, trace mk = Rd (LPIT0_CVAL 2) cval :: rest)).
      { apply hoare_rd_rule. intros mk [H _] _. split; [now apply W_rd|]. simpl. eauto. }
      intros cval mk [H [rest E]]. split; [exact H|]. right. eauto.
  - intros mk [[H1 H2] [->|(c & rest & E & ->)]].
    + unfold S32K.cycles_timeout in Hge. lia.
    + split; [exact H1|]. split; [exact H2|]. right. split; [reflexivity|]. eauto.
Qed.

(** X4: when [flagPollTimeout_Set] returns, it has written the three timer
    registers of channel 2 only (never the polled register, the
    message-buffer RAM, a queue or a counter); Success means that its last
    access read the polled register with a bit of the mask set, Failure that
    its last access read the timer with at least [cycles_timeout] ticks
    elapsed. *)
Theorem flagPollTimeout_Set_answer fuel flagRegister flag_Mask m st m' :
  flagPollTimeout_Set fuel flagRegister flag_Mask m = Done st m' ->
  io m m' /\
  writes_within [LPIT0_CLRTEN; LPIT0_TVAL 2; LPIT0_SETTEN] (trace m) m' /\
  ((st = Success /\
    exists v rest, trace m' = Rd flagRegister v :: rest /\ v .&. flag_Mask <> 0) \/
   (st = Failure /\
    exists c rest, trace m' = Rd (LPIT0_CVAL 2) c :: rest /\
                   S32K.cycles_timeout <= u32 (LPIT_TMR_CVAL_TMR_CUR_VAL_MASK - c))).
Proof.
  intros Hrun.
  pose proof (wlp_elim _ _ _ _ _
                (poll_answer fuel flagRegister (fun v => negb (v .&. flag_Mask =? 0)) m
                             m eq_refl) Hrun) as (H1 & H2 & H3).
  split; [exact H1|]. split; [exact H2|].
  destruct H3 as [(-> & v & rest & E & Hv)|H3]; [left | now right].
  split; [reflexivity|]. exists v, rest. split; [exact E|].
  apply negb_true_iff, Z.eqb_neq in Hv. exact Hv.
Qed.

(** X5: the same for [flagPollTimeout_Clear], where Success means that the
    last access read the polled register with every bit of the mask clear. *)
Theorem flagPollTimeout_Clear_answer fuel flagRegister flag_Mask m st m' :
  flagPollTimeout_Clear fuel flagRegister flag_Mask m = Done st m' ->
  io m m' /\
  writes_within [LPIT0_CLRTEN; LPIT0_TVAL 2; LPIT0_SETTEN] (trace m) m' /\
  ((st = Success /\
    exists v rest, trace m' = Rd flagRegister v :: rest /\ v .&. flag_Mask = 0) \/
   (st = Failure /\
    exists c rest, trace m' = Rd (LPIT0_CVAL 2) c :: rest /\
                   S32K.cycles_timeout <= u32 (LPIT_TMR_CVAL_TMR_CUR_VAL_MASK - c))).
Proof.
  intros Hrun.
  pose proof (wlp_elim _ _ _ _ _
                (poll_answer fuel flagRegister (fun v => v .&. flag_Mask =? 0) m
                             m eq_refl) Hrun) as (H1 & H2 & H3).
  split; [exact H1|]. split; [exact H2|].
  destruct H3 as [(-> & v & rest & E & Hv)|H3]; [left | now right].
  split; [reflexivity|]. exists v, rest. split; [exact E|].
  apply Z.eqb_eq in Hv. exact Hv.
Qed.

End Polling.

(** On the node board after reset the low-power acknowledge of instance 0
    never comes: the poll gives up once the timer has run out. *)
Lemma flagPollTimeout_Set_answer_witness :
  writes_within [LPIT0_CLRTEN; LPIT0_TVAL 2; LPIT0_SETTEN] (trace (@power_on S32K146_board))
    (after (@flagPollTimeout_Set S32K146_board (sim true) 100 (CAN_MCR 0) CAN_MCR_LPMACK_MASK)
           (@power_on S32K146_board)).
Proof.
  refine (proj1 (proj2 (@flagPollTimeout_Set_answer S32K146_board (sim true) 100%nat
                          (CAN_MCR 0) CAN_MCR_LPMACK_MASK power_on Failure _ _))).
  apply done_after. vm_compute. reflexivity.
Defined.

(** On the node board after reset instance 0 is not frozen: the poll for a
    clear freeze acknowledge succeeds at its first read. *)
Lemma flagPollTimeout_Clear_answer_witness :
  writes_within [LPIT0_CLRTEN; LPIT0_TVAL 2; LPIT0_SETTEN] (trace (@power_on S32K146_board))
    (after (@flagPollTimeout_Clear S32K146_board (sim true) 100 (CAN_MCR 0) CAN_MCR_FRZACK_MASK)
           (@power_on S32K146_board)).
Proof.
  refine (proj1 (proj2 (@flagPollTimeout_Clear_answer S32K146_board (sim true) 100%nat
                          (CAN_MCR 0) CAN_MCR_FRZACK_MASK power_on Success _ _))).
  apply done_after. vm_compute. reflexivity.
Defined.

(** ** The footprint of the reception handler *)

Section Footprint.

Context {target : Target} {peripherals : Peripherals}.

Lemma at_index_set_index_other {A} (l : list A) i j x y :
  at_index l i = Some x -> j <> i -> at_index (set_index l i y) j = at_index l j.
Proof.
  intros Hi Hne. pose proof (at_index_range _ _ _ Hi) as Hr.
  destruct (Z.leb_spec 0 j) as [Hj|Hj].
  - apply at_index_set_index_ne; lia.
  - unfold at_index. destruct (Z.leb_spec 0 j); [lia | reflexivity].
Qed.

Lemma wlp_skip_bind {A B} (c : M A) (k : A -> M B) (Q : B -> Machine -> Prop) m :
  (forall a m1, wlp (k a) Q m1) -> wlp (bind c k) Q m.
Proof. intros H. unfold wlp, bind. destruct (c m); auto. apply H. Qed.

(** X6: whenever the reception handler returns, interrupts are enabled
    (whether or not they were on entry), the only register it has written is
    the flag register of its instance, the message-buffer RAM is as before,
    and the queues and discard counters of the other instances are as
    before. *)
Theorem ISR_footprint instance m m' :
  S32K_libuavcan_ISR_handler instance m = Done tt m' ->
  interrupts_enabled m' = true /\
  writes_within [CAN_IFLAG1 instance] (trace m) m' /\
  (forall i j, regs m' (CAN_RAMn i j) = regs m (CAN_RAMn i j)) /\
  (forall j, j <> instance ->
             at_index (g_frame_ISRbuffer m') j = at_index (g_frame_ISRbuffer m) j /\
             at_index (g_discarded_frames_count m') j
             = at_index (g_discarded_frames_count m) j).
Proof.
  intros Hrun.
  set (F := fun mk : Machine =>
              writes_within [CAN_IFLAG1 instance] (trace m) mk /\
              (forall i j, regs mk (CAN_RAMn i j) = regs m (CAN_RAMn i j)) /\
              (forall j, j <> instance ->
                         at_index (g_frame_ISRbuffer mk) j = at_index (g_frame_ISRbuffer m) j /\
                         at_index (g_discarded_frames_count mk) j
                         = at_index (g_discarded_frames_count m) j)).
  assert (F_rd : forall r, hoare F (rd r) (fun _ => F)).
  { intros r. apply hoare_rd_rule. intros mk (H1 & H2 & H3) _.
    split; [now apply writes_within_rd|]. split; [|exact H3].
    intros i j. rewrite regs_access_ram. apply H2. }
  assert (F_ack : forall bits, hoare F (set_bits (CAN_IFLAG1 instance) bits) (fun _ => F)).
  { intros bits. apply hoare_set_bits_rule. intros mk (H1 & H2 & H3) _.
    split; [apply writes_within_wr; [repeat constructor | now apply writes_within_rd]|].
    split; [|exact H3].
    intros i j. rewrite regs_access_ram.
    destruct (decide _) as [E|_]; [discriminate|]. rewrite regs_access_ram. apply H2. }
  assert (F_push : forall f, hoare F (deque_push_back instance f) (fun _ => F)).
  { intros f. unfold deque_push_back. eapply hoare_bind; [apply hoare_deque|].
    intros q mk [(H1 & H2 & H3) Hq]. split; [exact H1|]. split; [exact H2|].
    intros j Hj. cbn [with_queues g_frame_ISRbuffer g_discarded_frames_count].
    rewrite (at_index_set_index_other _ _ _ _ _ Hq Hj). now apply H3. }
  assert (F_incr : hoare F (discarded_incr instance) (fun _ => F)).
  { intros mk (H1 & H2 & H3). unfold wlp, discarded_incr.
    destruct (at_index (g_discarded_frames_count mk) instance) as [c|] eqn:Hc; [|exact I].
    split; [exact H1|]. split; [exact H2|].
    intros j Hj. cbn [with_discarded g_frame_ISRbuffer g_discarded_frames_count].
    rewrite (at_index_set_index_other _ _ _ _ _ Hc Hj). now apply H3. }
  assert (Hh : hoare F (S32K_libuavcan_ISR_handler instance)
                     (fun _ mk => interrupts_enabled mk = true /\ F mk)).
  { unfold S32K_libuavcan_ISR_handler, DISABLE_INTERRUPTS, ENABLE_INTERRUPTS. cbv zeta.
    apply (hoare_bind _ (fun _ => F)); [intros mk H; exact H|]. intros ?.
    eapply hoare_bind; [apply F_rd|]. intros iflag1.
    apply (hoare_bind _ (fun _ => F)); [|intros ? mk H; split; [reflexivity | exact H]].
    destruct (negb _); [|apply hoare_ret].
    eapply hoare_bind; [apply keeps_deque_size|]. intros size.
    apply (hoare_bind _ (fun _ => F)); [|intros ?; apply F_ack].
    destruct (size <=? S32K.Frame_Capacity); [|exact F_incr].
    keeps_with ltac:(idtac; lazymatch goal with
                     | |- hoare _ (rd _) _ => apply F_rd
                     | |- hoare _ (resolve_Timestamp _ _) _ => unfold resolve_Timestamp
                     | |- hoare _ (deque_push_back _ _) _ => apply F_push
                     end). }
  assert (HF : F m).
  { split; [apply writes_within_refl|]. split; [reflexivity|]. intros j _. now split. }
  destruct (wlp_elim _ _ _ _ _ (Hh m HF) Hrun) as (H0 & H1 & H2 & H3). auto.
Qed.

(** X7: when the handler services mailbox [mb], its last bus accesses read
    the flag register and write the value read back with the bit of [mb] set:
    every flag that was pending at that read is written as 1 along with the
    flag of the serviced mailbox. *)
Theorem ISR_acknowledge_writes_back_flags_read instance mb m m' :
  one_rx_flag (u32 (regs m (CAN_IFLAG1 instance)) .&. 124) mb ->
  S32K_libuavcan_ISR_handler instance m = Done tt m' ->
  exists v rest,
    trace m' = Wr (CAN_IFLAG1 instance) (u32 (v .|. Z.shiftl 1 mb))
               :: Rd (CAN_IFLAG1 instance) v :: rest /\
    Z.testbit (u32 (v .|. Z.shiftl 1 mb)) mb = true /\
    forall b, 0 <= b < 32 -> Z.testbit v b = true ->
              Z.testbit (u32 (v .|. Z.shiftl 1 mb)) b = true.
Proof.
  intros Hflag Hrun.
  pose proof (one_rx_flag_range _ _ Hflag) as Hmb.
  assert (Hbits : forall v,
             Z.testbit (u32 (v .|. Z.shiftl 1 mb)) mb = true /\
             forall b, 0 <= b < 32 -> Z.testbit v b = true ->
                       Z.testbit (u32 (v .|. Z.shiftl 1 mb)) b = true).
  { intros v. unfold u32. split.
    - rewrite Z.mod_pow2_bits_low by lia. rewrite Z.lor_spec, Z.shiftl_spec by lia.
      rewrite Z.sub_diag. apply orb_true_r.
    - intros b Hb Hv. rewrite Z.mod_pow2_bits_low by lia. rewrite Z.lor_spec, Hv. reflexivity. }
  apply (wlp_elim (S32K_libuavcan_ISR_handler instance)
           (fun _ mk =>
              exists v rest,
                trace mk = Wr (CAN_IFLAG1 instance) (u32 (v .|. Z.shiftl 1 mb))
                           :: Rd (CAN_IFLAG1 instance) v :: rest /\
                Z.testbit (u32 (v .|. Z.shiftl 1 mb)) mb = true /\
                forall b, 0 <= b < 32 -> Z.testbit v b = true ->
                          Z.testbit (u32 (v .|. Z.shiftl 1 mb)) b = true) m tt m');
    [|exact Hrun].
  unfold S32K_libuavcan_ISR_handler, DISABLE_INTERRUPTS, ENABLE_INTERRUPTS.
  apply wlp_bind. unfold wlp at 1, set_interrupts at 1.
  apply wlp_bind. apply (hoare_rd_rule (fun mk => regs mk = regs m)); [|reflexivity].
  intros m1 R1 _. rewrite R1. cbv zeta. rewrite (ISR_selects _ _ Hflag).
  replace (negb (mb =? 0)) with true by (symmetry; apply negb_true_iff, Z.eqb_neq; lia).
  apply wlp_bind, wlp_skip_bind. intros size m2. apply wlp_skip_bind. intros ? m2'.
  apply (hoare_set_bits_rule (fun _ => True)); [|exact I]. intros m3 _ _.
  unfold wlp, set_interrupts. cbn [trace access].
  eexists _, _. split; [reflexivity | apply Hbits].
Qed.

End Footprint.

(** The handler entered with interrupts masked, a frame pending in mailbox 2
    of instance 0. *)
Lemma ISR_footprint_witness :
  interrupts_enabled
    (after (@S32K_libuavcan_ISR_handler S32K146_board (sim true) 0) (masked (queued 1 4 0)))
  = true.
Proof.
  refine (proj1 (@ISR_footprint S32K146_board (sim true) 0 (masked (queued 1 4 0)) _ _)).
  apply done_after. vm_compute. reflexivity.
Defined.

(** A frame is pending in mailbox 2 of instance 0 while the flag of transmit
    mailbox 0 is up as well: the handler writes both flags back. *)
Lemma ISR_acknowledge_writes_back_flags_read_witness :
  exists v rest,
    trace (after (@S32K_libuavcan_ISR_handler S32K146_board (sim true) 0) (queued 1 5 0))
    = Wr (CAN_IFLAG1 0) (u32 (v .|. Z.shiftl 1 2)) :: Rd (CAN_IFLAG1 0) v :: rest /\
    Z.testbit (u32 (v .|. Z.shiftl 1 2)) 2 = true /\
    forall b, 0 <= b < 32 -> Z.testbit v b = true ->
              Z.testbit (u32 (v .|. Z.shiftl 1 2)) b = true.
Proof.
  apply (@ISR_acknowledge_writes_back_flags_read S32K146_board (sim true) 0 2 (queued 1 5 0)).
  - left. split; reflexivity.
  - apply done_after. vm_compute. reflexivity.
Defined.

(** ** What [read], [write] and stopInterfaceGroup answer *)

Section Answers.

Context {target : Target} {peripherals : Peripherals}.

(** X9: whenever [read] returns, it has made no bus access and has left
    registers, discard counters and the interrupt mask alone, for every index.
    It answers BadArgument exactly for an index above the interface count,
    SuccessNothing exactly when the queue is empty, and Success exactly when
    the queue has a head, which it removes and stores in [out_frames[0]];
    unless it answers Success, the machine and [out_frames] are untouched and
    [out_frames_read] is 0. *)
Theorem read_answers interface_index out_frames m st out_frames' out_frames_read m' :
  read interface_index out_frames m = Done (st, out_frames', out_frames_read) m' ->
  (regs m' = regs m /\ trace m' = trace m /\
   g_discarded_frames_count m' = g_discarded_frames_count m /\
   interrupts_enabled m' = interrupts_enabled m) /\
  ((st = BadArgument /\ CANFD_Count < interface_index /\
    out_frames' = out_frames /\ out_frames_read = 0 /\ m' = m) \/
   (st = SuccessNothing /\ interface_index <= CANFD_Count /\
    at_index (g_frame_ISRbuffer m) (interface_index - 1) = Some [] /\
    out_frames' = out_frames /\ out_frames_read = 0 /\ m' = m) \/
   (st = Success /\ interface_index <= CANFD_Count /\
    exists f q,
      at_index (g_frame_ISRbuffer m) (interface_index - 1) = Some (f :: q) /\
      out_frames' = set_index out_frames 0 f /\ out_frames_read = RxFramesLen /\
      m' = with_queues (set_index (g_frame_ISRbuffer m) (interface_index - 1) q) m)).
Proof.
  unfold read. cbv zeta.
  destruct (Z.gtb_spec interface_index CANFD_Count) as [Hgt|Hle]; cbn [isSuccess].
  - intros E. injection E as <- <- <- <-. split; [auto|]. left. repeat split; auto.
  - unfold deque_empty, deque_front, deque_pop_front, deque, bind, ret, fault.
    destruct (at_index (g_frame_ISRbuffer m) (interface_index - 1)) as [[|f q]|] eqn:Hq;
      cbn [negb]; [| |discriminate].
    + intros E. injection E as <- <- <- <-. split; [auto|]. right. left. repeat split; auto.
    + repeat (rewrite Hq; cbv beta iota).
      intros E. injection E as <- <- <- <-. split; [auto|]. right. right.
      split; [reflexivity|]. split; [lia|]. exists f, q. repeat split; auto.
Qed.

(** What the transmit routine answers. *)
Lemma messageBuffer_Transmit_value fuel i tx frame :
  hoare (fun _ => True) (messageBuffer_Transmit fuel i tx frame)
        (fun st _ => st = Success \/ st = Failure).
Proof.
  unfold messageBuffer_Transmit. cbv zeta.
  do 3 (apply hoare_skip_bind; intros ?).
  apply (hoare_bind _ (fun st _ => st = Success \/ st = Failure)).
  - intros m _. eapply wlp_weaken.
    + apply (poll_answer fuel (CAN_IFLAG1 i) (fun v => negb (v .&. Z.shiftl 1 tx =? 0)) m m
                         eq_refl).
    + intros st mk (_ & _ & [[-> _]|[-> _]]); auto.
  - intros st m Hst. apply wlp_skip_bind. intros ? ?. exact Hst.
Qed.

(** X10: the hardware reports no inactive message buffer at the first read
    of ESR2: [write] makes that one access, transmits nothing and leaves
    [out_frames_written] as the caller passed it; its status is BadArgument
    for an oversized [frames_len] and BufferFull otherwise. *)
Theorem write_without_free_mailbox fuel interface_index frames frames_len
        out_frames_written m :
  1 <= interface_index <= CANFD_Count ->
  u32 (regs m (CAN_ESR2 (interface_index - 1))) .&. CAN_ESR2_IMB_MASK = 0 ->
  write fuel interface_index frames frames_len out_frames_written m
  = Done (if frames_len >? TxFramesLen then BadArgument else BufferFull, out_frames_written)
         (access (Rd (CAN_ESR2 (interface_index - 1))
                     (u32 (regs m (CAN_ESR2 (interface_index - 1))))) m).
Proof.
  intros Hidx Himb. unfold write. cbv zeta.
  rewrite (gtb_false interface_index CANFD_Count) by lia. rewrite orb_false_r.
  unfold bind at 1. unfold rd at 1. cbn [reg_ok].
  rewrite FlexCAN_ok_intro by lia. rewrite Himb. reflexivity.
Qed.

(** X11: whenever [write] returns, either it has written nothing to the
    hardware, its status is the one the argument check left (BadArgument or
    BufferFull) and [out_frames_written] is as the caller passed it, or the
    status is that of the transmission, Success with one frame written or
    Failure with none. *)
Theorem write_answers fuel interface_index frames frames_len out_frames_written m st n m' :
  write fuel interface_index frames frames_len out_frames_written m = Done (st, n) m' ->
  (st = (if (frames_len >? TxFramesLen) || (interface_index >? CANFD_Count)
         then BadArgument else BufferFull) /\
   n = out_frames_written /\ io m m' /\ writes_within [] (trace m) m') \/
  (st = Success /\ n = TxFramesLen) \/
  (st = Failure /\ n = 0).
Proof.
  intros Hrun.
  set (W := fun mk => io m mk /\ writes_within [] (trace m) mk).
  assert (W_rd : forall r, hoare W (rd r) (fun _ => W)).
  { intros r. apply hoare_rd_rule. intros mk [H1 H2] _.
    split; [|now apply writes_within_rd]. eapply io_trans; [exact H1 | apply io_access_rd]. }
  assert (HW : W m) by (split; [apply io_refl | apply writes_within_refl]).
  assert (Hh : hoare W (write fuel interface_index frames frames_len out_frames_written)
                 (fun r mk =>
                    (r.1 = (if (frames_len >? TxFramesLen) || (interface_index >? CANFD_Count)
                            then BadArgument else BufferFull) /\
                     r.2 = out_frames_written /\ io m mk /\ writes_within [] (trace m) mk) \/
                    (r.1 = Success /\ r.2 = TxFramesLen) \/
                    (r.1 = Failure /\ r.2 = 0))).
  2:{ exact (wlp_elim _ _ _ _ _ (Hh m HW) Hrun). }
  clear Hrun HW.
  unfold write. cbv zeta.
  eapply hoare_bind; [apply W_rd|]. intros imb.
  apply (hoare_bind _ (fun _ => W)).
  { destruct (negb _); [|apply hoare_ret].
    eapply hoare_bind; [apply W_rd|]. intros vps. apply hoare_ret. }
  intros [|].
  - eapply hoare_weaken with (P := fun _ => True); [|auto | intros r mk H; exact H].
    do 2 (apply hoare_skip_bind; intros ?).
    eapply hoare_bind; [apply messageBuffer_Transmit_value|].
    intros Status mk [-> | ->]; cbn; auto.
  - intros mk [H1 H2]. left. cbn. auto.
Qed.

(** X12: whenever stopInterfaceGroup returns, the group handle is null and
    the status is Success or Failure, whatever the hardware did. *)
Theorem stopInterfaceGroup_answers fuel inout_group m st group m' :
  stopInterfaceGroup fuel inout_group m = Done (st, group) m' ->
  group = nullptr /\ (st = Success \/ st = Failure).
Proof.
  intros Hrun.
  apply (wlp_elim (stopInterfaceGroup fuel inout_group)
           (fun r _ => r.2 = nullptr /\ (r.1 = Success \/ r.1 = Failure)) m (st, group) m');
    [|exact Hrun].
  unfold stopInterfaceGroup. cbv zeta.
  apply wlp_bind. eapply wlp_weaken.
  - apply (hoare_for_loop_inv (fun _ Status _ => Status = Success \/ Status = Failure));
      [now left|].
    intros k Status _ mk HS. apply wlp_skip_bind. intros ? mk1.
    destruct HS as [-> | ->]; cbn [isSuccess]; [|now right].
    apply wlp_bind. eapply wlp_weaken.
    + apply (poll_answer fuel (CAN_MCR (0 + Z.of_nat k))
                         (fun v => negb (v .&. CAN_MCR_LPMACK_MASK =? 0)) mk1 mk1 eq_refl).
    + intros st1 mk2 (_ & _ & [[-> _]|[-> _]]); cbn [isSuccess]; [|now right].
      do 2 (apply wlp_skip_bind; intros ? ?). now left.
  - intros Status mk HS. cbv beta in HS.
    do 5 (apply wlp_skip_bind; intros ? ?). split; [reflexivity | exact HS].
Qed.

(** X13: no operation of the group or of the manager other than [read]
    changes a reception queue. *)
Theorem queues_change_in_ISR_and_read_only fuel m :
  (forall filter_config filter_config_length out_group r m',
      startInterfaceGroup fuel filter_config filter_config_length out_group m = Done r m' ->
      g_frame_ISRbuffer m' = g_frame_ISRbuffer m) /\
  (forall inout_group r m',
      stopInterfaceGroup fuel inout_group m = Done r m' ->
      g_frame_ISRbuffer m' = g_frame_ISRbuffer m) /\
  (forall filter_config filter_config_length r m',
      reconfigureFilters fuel filter_config filter_config_length m = Done r m' ->
      g_frame_ISRbuffer m' = g_frame_ISRbuffer m) /\
  (forall interface_index frames frames_len out_frames_written r m',
      write fuel interface_index frames frames_len out_frames_written m = Done r m' ->
      g_frame_ISRbuffer m' = g_frame_ISRbuffer m).
Proof.
  assert (Ha : access_stable (fun mk => g_frame_ISRbuffer mk = g_frame_ISRbuffer m))
    by (split; intros; assumption).
  split; [|split; [|split]].
  - intros fc len og r m' Hrun.
    exact (wlp_elim _ _ _ _ _ (keeps_startInterfaceGroup _ Ha fuel fc len og m eq_refl) Hrun).
  - intros og r m' Hrun.
    exact (wlp_elim _ _ _ _ _ (keeps_stopInterfaceGroup _ Ha fuel og m eq_refl) Hrun).
  - intros fc len r m' Hrun.
    exact (wlp_elim _ _ _ _ _ (keeps_reconfigureFilters _ Ha fuel fc len m eq_refl) Hrun).
  - intros idx frames len w r m' Hrun.
    exact (wlp_elim _ _ _ _ _ (keeps_write _ Ha fuel idx frames len w m eq_refl) Hrun).
Qed.

End Answers.

(** One frame waits on instance 0 of the node board and is read. *)
Lemma read_answers_witness :
  trace (after (@read S32K146_board 1 [sample_frame 0]) (queued 1 0 0)) = trace (queued 1 0 0).
Proof.
  refine (proj1 (proj2 (proj1 (@read_answers S32K146_board 1 [sample_frame 0] (queued 1 0 0)
                                 Success _ _ _ _)))).
  apply done_after. vm_compute. reflexivity.
Defined.

(** Two frames are offered while instance 0 has no free mailbox. *)
Lemma write_without_free_mailbox_witness :
  value_of (@write S32K146_board (sim true) 100 1 [sample_frame 8] 2 7 mailboxes_busy)
  = Some (BadArgument, 7).
Proof.
  rewrite (@write_without_free_mailbox S32K146_board (sim true) 100%nat 1 [sample_frame 8] 2 7
             mailboxes_busy).
  - reflexivity.
  - split; discriminate.
  - reflexivity.
Defined.

(** One frame is offered while instance 0 has no free mailbox. *)
Lemma write_answers_witness :
  writes_within [] (trace mailboxes_busy)
    (after (@write S32K146_board (sim true) 100 1 [sample_frame 8] 1 7) mailboxes_busy).
Proof.
  assert (Hrun : @write S32K146_board (sim true) 100 1 [sample_frame 8] 1 7 mailboxes_busy
                 = Done (BufferFull, 7)
                        (after (@write S32K146_board (sim true) 100 1 [sample_frame 8] 1 7)
                               mailboxes_busy))
    by (apply done_after; vm_compute; reflexivity).
  destruct (@write_answers S32K146_board (sim true) _ _ _ _ _ _ _ _ _ Hrun)
    as [(_ & _ & _ & H)|[[E _]|[E _]]]; [exact H | discriminate E | discriminate E].
Defined.

(** The started node board with its queue of 41 frames is stopped. *)
Lemma stopInterfaceGroup_answers_witness :
  exists st,
    value_of (@stopInterfaceGroup S32K146_board (sim true) 100 addr_S32K_InterfaceGroupObj_
                overrun) = Some (st, nullptr) /\
    (st = Success \/ st = Failure).
Proof.
  exists Success. split; [vm_compute; reflexivity|].
  refine (proj2 (@stopInterfaceGroup_answers S32K146_board (sim true) 100%nat
                   addr_S32K_InterfaceGroupObj_ overrun Success nullptr _ _)).
  apply done_after. vm_compute. reflexivity.
Defined.

(** The queue of 41 frames on the node board survives a stop, a start, a
    change of filters and a transmission. *)
Lemma queues_change_in_ISR_and_read_only_witness :
  g_frame_ISRbuffer
    (after (@startInterfaceGroup S32K146_board (sim true) 100 sample_filters 5 nullptr) overrun)
  = g_frame_ISRbuffer overrun /\
  g_frame_ISRbuffer
    (after (@stopInterfaceGroup S32K146_board (sim true) 100 addr_S32K_InterfaceGroupObj_)
           overrun)
  = g_frame_ISRbuffer overrun /\
  g_frame_ISRbuffer
    (after (@reconfigureFilters S32K146_board (sim true) 100 sample_filters 5) overrun)
  = g_frame_ISRbuffer overrun /\
  g_frame_ISRbuffer
    (after (@write S32K146_board (sim true) 100 1 [sample_frame 8] 1 0) overrun)
  = g_frame_ISRbuffer overrun.
Proof.
  destruct (@queues_change_in_ISR_and_read_only S32K146_board (sim true) 100%nat overrun)
    as (H1 & H2 & H3 & H4).
  split; [|split; [|split]].
  - eapply (H1 sample_filters 5 nullptr). apply done_after. vm_compute. reflexivity.
  - eapply (H2 addr_S32K_InterfaceGroupObj_). apply done_after. vm_compute. reflexivity.
  - eapply (H3 sample_filters 5). apply done_after. vm_compute. reflexivity.
  - eapply (H4 1 [sample_frame 8] 1 0). apply done_after. vm_compute. reflexivity.
Defined.

(** ** Argument checks on every hardware *)

(** Six filters are offered to the node board after reset. *)
Lemma startInterfaceGroup_result_witness :
  (BadArgument, addr_S32K_InterfaceGroupObj_)
  = (if 6 >? S32K.Filter_Count then BadArgument else Success, addr_S32K_InterfaceGroupObj_).
Proof.
  refine (@startInterfaceGroup_result S32K146_board (sim true) 100%nat sample_filters 6 nullptr
            (@power_on S32K146_board) (BadArgument, addr_S32K_InterfaceGroupObj_)
            (after (@startInterfaceGroup S32K146_board (sim true) 100 sample_filters 6 nullptr)
                   (@power_on S32K146_board)) _).
  apply done_after. vm_compute. reflexivity.
Defined.

(** Six filters are offered to the started node board. *)
Lemma reconfigureFilters_rejects_witness :
  @reconfigureFilters S32K146_board (sim true) 100 sample_filters 6 started
  = Done BadArgument started.
Proof.
  apply (@reconfigureFilters_rejects S32K146_board (sim true) 100%nat sample_filters 6 started).
  reflexivity.
Defined.

(** Two frames are offered to the started node board. *)
Lemma write_reaches_hardware_witness :
  trace_extends (Rd (CAN_ESR2 (1 - 1)) (u32 (regs started (CAN_ESR2 (1 - 1)))) :: trace started)
                (after (@write S32K146_board (sim true) 100 1 [sample_frame 8] 2 0) started).
Proof.
  refine (@write_reaches_hardware S32K146_board (sim true) 100%nat 1 [sample_frame 8] 2 0
            started (Success, 1)
            (after (@write S32K146_board (sim true) 100 1 [sample_frame 8] 2 0) started) _).
  apply done_after. vm_compute. reflexivity.
Defined.

(** The filters of the started node board are replaced while the module
    never acknowledges the freeze request. *)
Lemma reconfigureFilters_rewrites_at_once_witness :
  trace_extends
    (Wr (CAN_RAMn 0 0) 0
     :: Wr (CAN_MCR 0) (u32 (u32 (regs started (CAN_MCR 0))
                             .|. (CAN_MCR_HALT_MASK .|. CAN_MCR_FRZ_MASK)))
     :: Rd (CAN_MCR 0) (u32 (regs started (CAN_MCR 0))) :: trace started)
    (after (@reconfigureFilters S32K146_board (sim false) 100 sample_filters 5) started).
Proof.
  refine (@reconfigureFilters_rewrites_at_once S32K146_board (sim false) 100%nat
            sample_filters 5 started Success
            (after (@reconfigureFilters S32K146_board (sim false) 100 sample_filters 5) started)
            _ _).
  - discriminate.
  - apply done_after. vm_compute. reflexivity.
Defined.

(** ** The payload word count and the reconciled timestamp *)

(** X18: for a payload length that fits a byte, the number of mailbox words
    transmitted and harvested is the length divided by four, rounded up. *)
Theorem payload_words_rounds_up len :
  0 <= len < 256 -> payload_words len = (len + 3) / 4.
Proof.
  intros Hlen. unfold payload_words. rewrite (u8_small len) by lia.
  rewrite Z.shiftr_div_pow2 by lia.
  change 3 with (Z.ones 2) at 1. rewrite Z.land_ones by lia.
  change (2 ^ 2) with 4.
  destruct (Z.eq_dec (len mod 4) 0) as [E|E].
  - rewrite E. change (Z.min 1 0) with 0. Z.div_mod_to_equations; lia.
  - rewrite Z.min_l by (Z.div_mod_to_equations; lia). Z.div_mod_to_equations; lia.
Qed.

Lemma payload_words_rounds_up_witness : payload_words 13 = (13 + 3) / 4.
Proof. apply (payload_words_rounds_up 13). lia. Defined.

Section Reconciliation.

Context {target : Target} {peripherals : Peripherals}.

(** X17: the reconciled timestamp is the 64-bit software clock minus the
    distance between the hardware counter and the captured value, reduced
    modulo 2^64 and divided by 80.  The distance is the absolute difference of
    the two values, whichever is larger: a counter that has wrapped since the
    capture is not unwrapped. *)
Theorem resolve_Timestamp_formula frame_timestamp instance m :
  FlexCAN_ok instance = true ->
  exists cval1 cval0 m',
    resolve_Timestamp frame_timestamp instance m
    = Done (u64 (software_clock cval1 cval0
                 - Z.abs (u32 (regs m (CAN_TIMER instance)) - frame_timestamp)) / 80) m' /\
    trace m' = Rd (LPIT0_CVAL 0) cval0 :: Rd (LPIT0_CVAL 1) cval1
                  :: Rd (CAN_TIMER instance) (u32 (regs m (CAN_TIMER instance))) :: trace m.
Proof.
  intros Hi.
  unfold resolve_Timestamp, bind, rd, ret. cbn [reg_ok]. rewrite Hi.
  cbn [Z.leb Z.ltb Z.compare andb].
  set (t := u32 (regs m (CAN_TIMER instance))).
  set (m1 := access (Rd (CAN_TIMER instance) t) m).
  set (c1 := u32 (regs m1 (LPIT0_CVAL 1))).
  set (m2 := access (Rd (LPIT0_CVAL 1) c1) m1).
  set (c0 := u32 (regs m2 (LPIT0_CVAL 0))).
  exists c1, c0, (access (Rd (LPIT0_CVAL 0) c0) m2).
  split; [|reflexivity]. f_equal.
  pose proof (u32_range (regs m1 (LPIT0_CVAL 1))) as H1. fold c1 in H1.
  pose proof (u32_range (regs m2 (LPIT0_CVAL 0))) as H0. fold c0 in H0.
  unfold fromMicrosecond, software_clock. f_equal. fold c0.
  rewrite !(u32_small (4294967295 - _)) by lia.
  rewrite lor_shiftl_add by lia.
  assert (Hclock : 0 <= (4294967295 - c1) * 2 ^ 32 + (4294967295 - c0) < 2 ^ 64) by nia.
  rewrite (u64_small _ Hclock). f_equal.
  destruct (Z.gtb_spec t frame_timestamp); lia.
Qed.

End Reconciliation.

(** The counter stands at 0 and the frame was captured at 0xFFFF: the
    distance taken is 0xFFFF ticks. *)
Lemma resolve_Timestamp_formula_witness :
  exists cval1 cval0 m',
    @resolve_Timestamp S32K146_board quiet 0xFFFF 0 (queued 0 0 0)
    = Done (u64 (software_clock cval1 cval0
                 - Z.abs (u32 (regs (queued 0 0 0) (CAN_TIMER 0)) - 0xFFFF)) / 80) m' /\
    trace m' = Rd (LPIT0_CVAL 0) cval0 :: Rd (LPIT0_CVAL 1) cval1
                  :: Rd (CAN_TIMER 0) (u32 (regs (queued 0 0 0) (CAN_TIMER 0)))
                  :: trace (queued 0 0 0).
Proof.
  apply (@resolve_Timestamp_formula S32K146_board quiet 0xFFFF 0 (queued 0 0 0)).
  reflexivity.
Defined.

(** ** Filters beyond the mailbox RAM *)

Section Overrun.

Context {target : Target} {peripherals : Peripherals}.

Lemma wlp_never_bind {A B} (c : M A) (k : A -> M B) (Q : B -> Machine -> Prop) m :
  wlp c (fun _ _ => False) m -> wlp (bind c k) Q m.
Proof. unfold wlp, bind. destruct (c m); tauto. Qed.

(** The filter loop started with seven filters or more reaches [j = 6] and
    there indexes the mailbox RAM at word 144 of 128. *)
Lemma filter_loop_overruns fuel i filter_config filter_config_length m :
  7 <= filter_config_length ->
  wlp (for_u8 fuel filter_config_length (program_filter i filter_config))
      (fun _ _ => False) m.
Proof.
  intros Hlen. unfold for_u8.
  apply (hoare_iter_inv (fun j _ => 0 <= j <= 6) (fun (_ : unit) _ => False)); [|lia].
  intros j mk Hj.
  replace (j <? filter_config_length) with true by (symmetry; apply Z.ltb_lt; lia).
  destruct (Z.eq_dec j 6) as [->|Hne].
  - apply wlp_never_bind. unfold program_filter, element.
    destruct (at_index filter_config 6); [|exact I].
    do 2 (apply wlp_skip_bind; intros ? ?).
    apply wlp_never_bind. unfold wlp, wr. cbn [reg_ok].
    replace ((6 + 2) * S32K.MB_Size_Words <? CAN_RAMn_COUNT) with false by reflexivity.
    rewrite andb_false_r. exact I.
  - apply wlp_skip_bind. intros ? ?. unfold wlp, ret. rewrite u8_small by lia. lia.
Qed.


End Overrun.


(** ** The footprint of a transmission *)

Section TransmitFootprint.

Context {target : Target} {peripherals : Peripherals}.

(** X21: whenever [messageBuffer_Transmit] returns, its status is Success or
    Failure; of the message-buffer RAM it has changed at most the control
    word, the identifier word and the payload words of the frame in mailbox
    [TX_MB_index] of its instance; the control word, which hands the mailbox
    to the hardware, is its last write to the RAM: after it come only the
    timed poll and the acknowledge of the mailbox flag. *)
Theorem messageBuffer_Transmit_footprint fuel i tx f m st m' :
  0 <= CAN.dlc_ f <= 15 ->
  messageBuffer_Transmit fuel i tx f m = Done st m' ->
  (st = Success \/ st = Failure) /\
  (forall i' j',
      i' <> i \/ j' < tx * S32K.MB_Size_Words
      \/ tx * S32K.MB_Size_Words + S32K.MB_Data_Offset + payload_words (CAN.getDataLength f) <= j' ->
      regs m' (CAN_RAMn i' j') = regs m (CAN_RAMn i' j')) /\
  exists earlier,
    writes_within [LPIT0_CLRTEN; LPIT0_TVAL 2; LPIT0_SETTEN; CAN_IFLAG1 i]
      (Wr (CAN_RAMn i (tx * S32K.MB_Size_Words))
          (u32 (CAN_RAMn_DATA_BYTE_1 0x20 .|. CAN_WMBn_CS_DLC (CAN.getDLC f)
                .|. CAN_RAMn_DATA_BYTE_0 0xCC)) :: earlier ++ trace m) m'.
Proof.
  intros Hdlc Hrun.
  set (n := payload_words (CAN.getDataLength f)).
  assert (Hn : 0 <= n <= 16).
  { pose proof (payload_words_range _ Hdlc) as H.
    destruct (payload_words_cover _ Hdlc) as [_ E]. rewrite E in H. exact H. }
  set (Out := fun i' j' : Z =>
                i' <> i \/ j' < tx * S32K.MB_Size_Words
                \/ tx * S32K.MB_Size_Words + S32K.MB_Data_Offset + n <= j').
  set (R := fun mk : Machine =>
              (forall i' j', Out i' j' -> regs mk (CAN_RAMn i' j') = regs m (CAN_RAMn i' j')) /\
              exists earlier, trace mk = earlier ++ trace m).
  assert (R_wr : forall j v mk,
             tx * S32K.MB_Size_Words <= j
             < tx * S32K.MB_Size_Words + S32K.MB_Data_Offset + n ->
             R mk -> R (access (Wr (CAN_RAMn i j) v) mk)).
  { intros j v mk Hj [H1 [e E]]. split.
    - intros i' j' Ho. rewrite regs_access_ram.
      destruct (decide _) as [Eq|_]; [|now apply H1].
      inversion Eq; subst. unfold Out in Ho. lia.
    - exists (Wr (CAN_RAMn i j) v :: e). simpl. now rewrite E. }
  set (ws := [LPIT0_CLRTEN; LPIT0_TVAL 2; LPIT0_SETTEN; CAN_IFLAG1 i]).
  apply (wlp_elim (messageBuffer_Transmit fuel i tx f)
           (fun st mk =>
              (st = Success \/ st = Failure) /\
              (forall i' j', Out i' j' -> regs mk (CAN_RAMn i' j') = regs m (CAN_RAMn i' j')) /\
              exists earlier,
                writes_within ws
                  (Wr (CAN_RAMn i (tx * S32K.MB_Size_Words))
                      (u32 (CAN_RAMn_DATA_BYTE_1 0x20 .|. CAN_WMBn_CS_DLC (CAN.getDLC f)
                            .|. CAN_RAMn_DATA_BYTE_0 0xCC)) :: earlier ++ trace m) mk)
           m st m'); [|exact Hrun].
  unfold messageBuffer_Transmit. cbv zeta. fold n.
  apply wlp_bind. unfold for_range. eapply wlp_weaken.
  { apply (hoare_for_loop_inv (fun _ _ mk => R mk)).
    - split; [reflexivity | exists []; reflexivity].
    - intros k [] Hk. apply hoare_wr_rule. intros mk HR _. apply R_wr; [|exact HR].
      unfold S32K.MB_Data_Offset. lia. }
  intros [] m1 HR1. cbv beta in HR1.
  apply wlp_bind. apply (hoare_wr_rule (fun mk => mk = m1)); [|reflexivity]. intros ? -> _.
  pose proof (R_wr (tx * S32K.MB_Size_Words + 1)
                   (u32 (CAN.id f .&. CAN_WMBn_ID_ID_MASK)) m1
                   ltac:(unfold S32K.MB_Data_Offset; lia) HR1) as HR2.
  set (m2 := access (Wr (CAN_RAMn i (tx * S32K.MB_Size_Words + 1))
                        (u32 (CAN.id f .&. CAN_WMBn_ID_ID_MASK))) m1) in *.
  apply wlp_bind. apply (hoare_wr_rule (fun mk => mk = m2)); [|reflexivity]. intros ? -> _.
  set (cs := u32 (CAN_RAMn_DATA_BYTE_1 0x20 .|. CAN_WMBn_CS_DLC (CAN.getDLC f)
                  .|. CAN_RAMn_DATA_BYTE_0 0xCC)).
  pose proof (R_wr (tx * S32K.MB_Size_Words) cs m2
                   ltac:(unfold S32K.MB_Data_Offset; lia) HR2) as [HR3 _].
  destruct HR2 as [_ [earlier E2]].
  set (m3 := access (Wr (CAN_RAMn i (tx * S32K.MB_Size_Words)) cs) m2) in *.
  assert (T3 : trace m3 = Wr (CAN_RAMn i (tx * S32K.MB_Size_Words)) cs :: earlier ++ trace m).
  { change (trace m3) with (Wr (CAN_RAMn i (tx * S32K.MB_Size_Words)) cs :: trace m2).
    now rewrite E2. }
  apply wlp_bind. eapply wlp_weaken.
  { apply (poll_answer fuel (CAN_IFLAG1 i) (fun v => negb (v .&. Z.shiftl 1 tx =? 0)) m3 m3
                       eq_refl). }
  intros Status m4 (Hio4 & Hw4 & Hst). cbv beta.
  apply wlp_bind. apply (hoare_set_bits_rule (fun mk => mk = m4)); [|reflexivity].
  intros ? -> _. unfold wlp, ret.
  split; [destruct Hst as [[-> _]|[-> _]]; auto|]. split.
  - intros i' j' Ho. rewrite !regs_access_ram.
    destruct (decide _) as [Eq|_]; [discriminate|].
    rewrite (io_ram _ _ Hio4). now apply HR3.
  - exists earlier. rewrite <- T3.
    apply writes_within_wr; [repeat constructor|]. apply writes_within_rd.
    eapply writes_within_mono; [|exact Hw4].
    intros r Hr. apply list_elem_of_In. apply list_elem_of_In in Hr. simpl in *. tauto.
Qed.

End TransmitFootprint.

(** The 20-byte frame transmitted from mailbox 0 of instance 0 on the
    started node board: the control word of mailbox 1 is as before. *)
Lemma messageBuffer_Transmit_footprint_witness :
  regs (after (@messageBuffer_Transmit S32K146_board (sim true) 100 0 0 (sample_frame 11))
              started) (CAN_RAMn 0 18)
  = regs started (CAN_RAMn 0 18).
Proof.
  refine (proj1 (proj2 (@messageBuffer_Transmit_footprint S32K146_board (sim true) 100%nat 0 0
                          (sample_frame 11) started Success
                          (after (@messageBuffer_Transmit S32K146_board (sim true) 100 0 0
                                    (sample_frame 11)) started) _ _)) 0 18 _).
  - split; discriminate.
  - apply done_after. vm_compute. reflexivity.
  - right. right. discriminate.
Defined.

(** ** What reconfigureFilters answers *)

Section Refilter.

Context {target : Target} {peripherals : Peripherals}.

(** X22: whenever reconfigureFilters returns, it answers BadArgument exactly
    for more than [Filter_Count] filters, and then it has done nothing;
    otherwise it answers Success or Failure.  Failure comes from a timed-out
    poll; either that poll belongs to the last instance, or the last
    instance is left with the freeze request as the final access to its
    hardware: after a failure the remaining instances are halted and never
    released. *)
Theorem reconfigureFilters_answers fuel filter_config filter_config_length m st m' :
  reconfigureFilters fuel filter_config filter_config_length m = Done st m' ->
  (st = BadArgument /\ S32K.Filter_Count < filter_config_length /\ m' = m) \/
  (st = Success /\ filter_config_length <= S32K.Filter_Count) \/
  (st = Failure /\ filter_config_length <= S32K.Filter_Count /\
   ((exists c rest,
        trace m' = Rd (LPIT0_CVAL 2) c :: rest /\
        S32K.cycles_timeout <= u32 (LPIT_TMR_CVAL_TMR_CUR_VAL_MASK - c)) \/
    (exists v rest,
        trace m' = Wr (CAN_MCR (CANFD_Count - 1))
                      (u32 (v .|. (CAN_MCR_HALT_MASK .|. CAN_MCR_FRZ_MASK)))
                   :: Rd (CAN_MCR (CANFD_Count - 1)) v :: rest))).
Proof.
  pose proof CANFD_Count_range as Hc.
  unfold reconfigureFilters. cbv zeta.
  destruct (Z.gtb_spec filter_config_length S32K.Filter_Count) as [Hgt|Hle]; cbn [isSuccess].
  { intros E. injection E as <- <-. left. auto. }
  intros Hrun. right.
  set (A := fun mk : Machine =>
              exists c rest,
                trace mk = Rd (LPIT0_CVAL 2) c :: rest /\
                S32K.cycles_timeout <= u32 (LPIT_TMR_CVAL_TMR_CUR_VAL_MASK - c)).
  set (B := fun (i : Z) (mk : Machine) =>
              exists v rest,
                trace mk = Wr (CAN_MCR i) (u32 (v .|. (CAN_MCR_HALT_MASK .|. CAN_MCR_FRZ_MASK)))
                           :: Rd (CAN_MCR i) v :: rest).
  cut (st = Success \/ (st = Failure /\ (A m' \/ B (CANFD_Count - 1) m'))).
  { intros [->|[-> H]]; [left | right]; auto. }
  refine (wlp_elim _ (fun st mk => st = Success \/ (st = Failure /\ (A mk \/ B (CANFD_Count - 1) mk)))
                   _ _ _ _ Hrun).
  eapply wlp_weaken.
  { apply (hoare_for_loop_inv
             (fun k Status mk =>
                Status = Success \/ (Status = Failure /\ (A mk \/ B (Z.of_nat k - 1) mk))));
      [now left|].
    intros k Status Hk mk [->|[-> _]]; cbn [isSuccess].
    - do 5 (apply wlp_skip_bind; intros ? ?).
      apply wlp_bind. eapply wlp_weaken; [eapply (poll_answer _ _ _ _ _ eq_refl)|].
      intros st1 mp1 (_ & _ & [[-> _]|[-> HA]]); cbn [isSuccess]; [|right; auto].
      eapply wlp_weaken; [eapply (poll_answer _ _ _ _ _ eq_refl)|].
      intros st2 mp2 (_ & _ & [[-> _]|[-> HA]]); [now left | right; auto].
    - apply wlp_bind. apply (hoare_set_bits_rule (fun mk' => mk' = mk)); [|reflexivity].
      intros ? -> _. right. split; [reflexivity|]. right.
      replace (Z.of_nat (S k) - 1) with (0 + Z.of_nat k) by lia.
      eexists _, _. reflexivity. }
  intros Status mk H. cbv beta in H. rewrite Z2Nat.id in H by lia. exact H.
Qed.

End Refilter.

(** The node board started, with modules that then never leave freeze mode:
    the poll of instance 0 fails and instance 1 is left halted. *)
Lemma reconfigureFilters_answers_witness :
  exists v rest,
    trace (after (@reconfigureFilters S32K146_board sim_stuck 100 sample_filters 5) started)
    = Wr (CAN_MCR (@CANFD_Count S32K146_board - 1))
         (u32 (v .|. (CAN_MCR_HALT_MASK .|. CAN_MCR_FRZ_MASK)))
      :: Rd (CAN_MCR (@CANFD_Count S32K146_board - 1)) v :: rest.
Proof.
  assert (Hrun : @reconfigureFilters S32K146_board sim_stuck 100 sample_filters 5 started
                 = Done Failure
                        (after (@reconfigureFilters S32K146_board sim_stuck 100 sample_filters 5)
                               started))
    by (apply done_after; vm_compute; reflexivity).
  destruct (@reconfigureFilters_answers S32K146_board sim_stuck _ _ _ _ _ _ Hrun)
    as [(E & _)|[(E & _)|(_ & _ & [(c & rest & E & _)|H])]];
    [discriminate E | discriminate E | | exact H].
  exfalso.
  assert (Hhd : head (trace (after (@reconfigureFilters S32K146_board sim_stuck 100
                                      sample_filters 5) started))
                = Some (Wr (CAN_MCR 1) 1359153158))
    by (vm_compute; reflexivity).
  rewrite E in Hhd. discriminate Hhd.
Defined.

(** ** The reception mailboxes after a change of filters *)

(** Steps that leave the message-buffer RAM, the queues and the counters
    alone keep what [io] keeps. *)
Ltac keeps_io P_io :=
  repeat first
    [ apply hoare_ret
    | apply hoare_fault
    | lazymatch goal with
      | |- hoare _ (bind _ _) _ => eapply hoare_bind; [|intros ?]
      | |- hoare _ (rd _) _ => apply keeps_io_rd; exact P_io
      | |- hoare _ (wr _ _) _ => apply keeps_io_wr; [exact P_io | reflexivity]
      | |- hoare _ (set_bits _ _) _ => unfold set_bits
      | |- hoare _ (clear_bits _ _) _ => unfold clear_bits
      | |- hoare _ (spin_while _ _ _) _ => unfold spin_while
      | |- hoare _ (flagPollTimeout_Clear _ _ _) _ => unfold flagPollTimeout_Clear; cbv zeta
      | |- hoare _ (flagPollTimeout_Set _ _ _) _ => unfold flagPollTimeout_Set; cbv zeta
      | |- hoare _ (iter _ _ _) _ => apply hoare_iter; intro
      | |- hoare _ (element _ _) _ => apply keeps_element
      | |- hoare _ (for_range _ _) _ => unfold for_range
      | |- hoare _ (for_loop _ _ _ _) _ => apply hoare_for_loop; intros ? ?
      | |- hoare _ (if ?b then _ else _) _ => destruct b
      | |- hoare _ (match ?x with _ => _ end) _ => destruct x
      end ].

Section Mailboxes.

Context {target : Target} {peripherals : Peripherals}.

Lemma programmed_frame filter_config len i m1 m2 :
  (forall j, regs m2 (CAN_RAMn i j) = regs m1 (CAN_RAMn i j)) ->
  programmed filter_config len i m1 -> programmed filter_config len i m2.
Proof.
  intros E [H1 H2]. split.
  - intros k Hk. destruct (H1 k Hk) as (f & Hf & A & B). exists f. now rewrite !E.
  - intros j Hj Hne. rewrite E. now apply H2.
Qed.

(** The zeroing loop over the message-buffer RAM of instance [i]. *)
Lemma wlp_zero_RAM i m :
  wlp (for_range CAN_RAMn_COUNT (fun j => wr (CAN_RAMn i j) 0))
      (fun _ mk =>
         (forall i' j, i' <> i -> regs mk (CAN_RAMn i' j) = regs m (CAN_RAMn i' j)) /\
         (forall j, 0 <= j < CAN_RAMn_COUNT -> regs mk (CAN_RAMn i j) = 0)) m.
Proof.
  unfold for_range. eapply wlp_weaken.
  - apply (hoare_for_loop_inv
             (fun k _ mk =>
                (forall i' j, i' <> i -> regs mk (CAN_RAMn i' j) = regs m (CAN_RAMn i' j)) /\
                (forall j, 0 <= j < Z.of_nat k -> regs mk (CAN_RAMn i j) = 0))).
    + split; [reflexivity | lia].
    + intros k [] Hk. apply hoare_wr_rule. intros mk [H1 H2] _. split.
      * intros i' j Hne. rewrite regs_access_ram.
        destruct (decide _) as [E|_]; [congruence | now apply H1].
      * intros j Hj. rewrite regs_access_ram.
        destruct (decide _) as [E|Hne]; [reflexivity|].
        apply H2. destruct (Z.eq_dec j (0 + Z.of_nat k)) as [->|]; [now destruct Hne | lia].
  - intros [] mk [H1 H2]. split; [exact H1|]. intros j Hj. apply H2.
    unfold CAN_RAMn_COUNT in *. lia.
Qed.

(** The filter loop on a zeroed instance. *)
Lemma wlp_filter_loop fuel filter_config len i m :
  0 <= len <= 6 ->
  (forall j, 0 <= j < CAN_RAMn_COUNT -> regs m (CAN_RAMn i j) = 0) ->
  wlp (for_u8 fuel len (program_filter i filter_config))
      (fun _ mk =>
         programmed filter_config len i mk /\
         (forall i' j, i' <> i -> regs mk (CAN_RAMn i' j) = regs m (CAN_RAMn i' j))) m.
Proof.
  intros Hlen Hzero. unfold for_u8.
  apply (hoare_iter_inv
           (fun j mk =>
              0 <= j <= len /\ programmed filter_config j i mk /\
              (forall i' j', i' <> i -> regs mk (CAN_RAMn i' j') = regs m (CAN_RAMn i' j')))
           (fun (_ : unit) mk =>
              programmed filter_config len i mk /\
              (forall i' j', i' <> i -> regs mk (CAN_RAMn i' j') = regs m (CAN_RAMn i' j')))).
  2:{ split; [lia|]. split; [|reflexivity]. split; [lia|]. intros j Hj _. now apply Hzero. }
  intros j. destruct (Z.ltb_spec j len) as [Hlt|Hge].
  2:{ intros mk (Hj & HP & HO). replace len with j by lia. now split. }
  unfold program_filter, element.
  destruct (at_index filter_config j) as [f|] eqn:Hf; [|intros mk _; exact I].
  intros mk (Hj & [HP1 HP2] & HO).
  apply wlp_bind, wlp_bind. unfold wlp at 1, ret at 1.
  apply wlp_bind. apply (hoare_wr_rule (fun mk' => mk' = mk)); [|reflexivity].
  intros ? -> _.
  set (m1 := access (Wr (CAN_RXIMR i (j + 2)) (u32 (CAN.mask f))) mk).
  assert (R1 : forall i' j', regs m1 (CAN_RAMn i' j') = regs mk (CAN_RAMn i' j')).
  { intros i' j'. unfold m1. rewrite regs_access_ram.
    destruct (decide _) as [E|_]; [discriminate | reflexivity]. }
  apply wlp_bind. apply (hoare_wr_rule (fun mk' => mk' = m1)); [|reflexivity].
  intros ? -> _.
  set (cs := u32 (CAN_RAMn_DATA_BYTE_0 0xC4 .|. CAN_RAMn_DATA_BYTE_1 0x20)).
  set (m2 := access (Wr (CAN_RAMn i ((j + 2) * S32K.MB_Size_Words)) cs) m1).
  apply (hoare_wr_rule (fun mk' => mk' = m2)); [|reflexivity].
  intros ? -> _.
  set (m3 := access (Wr (CAN_RAMn i ((j + 2) * S32K.MB_Size_Words + 1))
                        (u32 (CAN.filter_id f))) m2).
  assert (R3 : forall i' j',
             regs m3 (CAN_RAMn i' j')
             = if decide (i' = i /\ j' = (j + 2) * S32K.MB_Size_Words + 1)
               then u32 (CAN.filter_id f)
               else if decide (i' = i /\ j' = (j + 2) * S32K.MB_Size_Words) then cs
                    else regs mk (CAN_RAMn i' j')).
  { intros i' j'. unfold m3, m2. rewrite !regs_access_ram, R1.
    repeat destruct (decide _) as [?|?]; try reflexivity;
      repeat match goal with
             | H : CAN_RAMn _ _ = CAN_RAMn _ _ |- _ => inversion H; clear H; subst
             | H : _ /\ _ |- _ => destruct H; subst
             | H : ~ (_ /\ _) |- _ => exfalso; apply H; split; (reflexivity || lia)
             | H : _ <> _ |- _ => exfalso; apply H; reflexivity
             end;
      unfold S32K.MB_Size_Words in *; try lia. }
  unfold wlp, ret. rewrite u8_small by lia.
  split; [lia|]. split; [split|].
  - intros k Hk. destruct (Z.eq_dec k j) as [->|Hne].
    + exists f. split; [exact Hf|]. rewrite !R3. split.
      * destruct (decide _) as [[_ E]|_]; [unfold S32K.MB_Size_Words in E; lia|].
        destruct (decide _) as [_|N]; [reflexivity | exfalso; apply N; now split].
      * destruct (decide _) as [_|N]; [reflexivity | exfalso; apply N; now split].
    + destruct (HP1 k ltac:(lia)) as (f' & Hf' & A & B). exists f'. split; [exact Hf'|].
      rewrite !R3. split.
      * destruct (decide _) as [[_ E]|_]; [unfold S32K.MB_Size_Words in E; lia|].
        destruct (decide _) as [[_ E]|_]; [unfold S32K.MB_Size_Words in E; lia|]. exact A.
      * destruct (decide _) as [[_ E]|_]; [unfold S32K.MB_Size_Words in E; lia|].
        destruct (decide _) as [[_ E]|_]; [unfold S32K.MB_Size_Words in E; lia|]. exact B.
  - intros j' Hj' Hne. rewrite R3.
    pose proof (Hne j ltac:(lia)) as [N1 N2].
    destruct (decide _) as [[_ E]|_]; [now destruct N2|].
    destruct (decide _) as [[_ E]|_]; [now destruct N1|].
    apply HP2; [exact Hj'|]. intros k Hk. apply Hne. lia.
  - intros i' j' Hi'. rewrite R3.
    destruct (decide _) as [[E _]|_]; [now destruct Hi'|].
    destruct (decide _) as [[E _]|_]; [now destruct Hi'|].
    now apply HO.
Qed.

Lemma programmed_below_io filter_config len k m1 m2 :
  io m1 m2 -> programmed_below filter_config len k m1 -> programmed_below filter_config len k m2.
Proof.
  intros Hio H i Hi. eapply programmed_frame; [|apply H, Hi].
  intros j. apply (io_ram _ _ Hio).
Qed.

Lemma zeroed_io i m1 m2 : io m1 m2 -> zeroed i m1 -> zeroed i m2.
Proof. intros Hio H j Hj. rewrite (io_ram _ _ Hio). now apply H. Qed.

Lemma hoare_zero_RAM filter_config len k :
  hoare (programmed_below filter_config len k)
        (for_range CAN_RAMn_COUNT (fun j => wr (CAN_RAMn k j) 0))
        (fun _ mk => programmed_below filter_config len k mk /\ zeroed k mk).
Proof.
  intros m HP. eapply wlp_weaken; [apply wlp_zero_RAM|].
  intros [] mk [HO HZ]. split; [|exact HZ].
  intros i Hi. eapply programmed_frame; [|apply HP, Hi].
  intros j. apply HO. lia.
Qed.

Lemma hoare_filter_loop fuel filter_config len k :
  0 <= len <= 6 -> 0 <= k ->
  hoare (fun mk => programmed_below filter_config len k mk /\ zeroed k mk)
        (for_u8 fuel len (program_filter k filter_config))
        (fun _ => programmed_below filter_config len (k + 1)).
Proof.
  intros Hlen Hk m [HP HZ]. eapply wlp_weaken; [now apply wlp_filter_loop|].
  intros [] mk [Hnew HO] i Hi.
  destruct (Z.eq_dec i k) as [->|Hne]; [exact Hnew|].
  eapply programmed_frame; [|apply HP; lia]. intros j. now apply HO.
Qed.

(** X23: whenever reconfigureFilters answers Success, every instance holds
    the new filters: mailbox [k + 2] carries the reception code and the
    identifier of filter [k], and every other word of the message-buffer RAM
    is zero, the transmit mailboxes and whatever the reception mailboxes held
    included. *)
Theorem reconfigureFilters_programs_every_instance fuel filter_config filter_config_length
        m m' :
  0 <= filter_config_length ->
  reconfigureFilters fuel filter_config filter_config_length m = Done Success m' ->
  forall i, 0 <= i < CANFD_Count -> programmed filter_config filter_config_length i m'.
Proof.
  intros Hlen0 Hrun.
  pose proof CANFD_Count_range as Hc.
  revert Hrun. unfold reconfigureFilters. cbv zeta.
  destruct (Z.gtb_spec filter_config_length S32K.Filter_Count) as [Hgt|Hle]; cbn [isSuccess];
    [discriminate|].
  intros Hrun.
  assert (Hlen : 0 <= filter_config_length <= 6) by (unfold S32K.Filter_Count in Hle; lia).
  cut (isSuccess Success = true ->
       programmed_below filter_config filter_config_length CANFD_Count m').
  { intros H. now apply H. }
  refine (wlp_elim _ (fun st mk =>
                        isSuccess st = true ->
                        programmed_below filter_config filter_config_length CANFD_Count mk)
                   _ _ _ _ Hrun).
  eapply wlp_weaken.
  { apply (hoare_for_loop_inv
             (fun k Status mk =>
                isSuccess Status = true ->
                programmed_below filter_config filter_config_length (Z.of_nat k) mk)).
    { intros _ i Hi. lia. }
    intros k Status Hk. rewrite Z.add_0_l.
    assert (Pio : forall mk mk',
               io mk mk' ->
               programmed_below filter_config filter_config_length (Z.of_nat k) mk ->
               programmed_below filter_config filter_config_length (Z.of_nat k) mk')
      by (intros ? ?; apply programmed_below_io).
    assert (PZio : forall mk mk',
               io mk mk' ->
               programmed_below filter_config filter_config_length (Z.of_nat k) mk /\
               zeroed (Z.of_nat k) mk ->
               programmed_below filter_config filter_config_length (Z.of_nat k) mk' /\
               zeroed (Z.of_nat k) mk')
      by (intros ? ? Hio [? ?]; split;
          [eapply programmed_below_io | eapply zeroed_io]; eassumption).
    assert (Qio : forall mk mk',
               io mk mk' ->
               programmed_below filter_config filter_config_length (Z.of_nat k + 1) mk ->
               programmed_below filter_config filter_config_length (Z.of_nat k + 1) mk')
      by (intros ? ?; apply programmed_below_io).
    destruct (isSuccess Status) eqn:ES.
    - eapply hoare_weaken with (P := programmed_below filter_config filter_config_length
                                       (Z.of_nat k));
        [|intros mk H; now apply H
         |intros st mk H _; rewrite Nat2Z.inj_succ; exact H].
      eapply hoare_bind; [solve [keeps_io Pio]|]. intros ?.
      eapply hoare_bind; [apply hoare_zero_RAM|]. intros ?.
      eapply hoare_bind; [solve [keeps_io PZio]|]. intros ?.
      eapply hoare_bind; [apply hoare_filter_loop; lia|]. intros ?.
      replace (Z.succ (Z.of_nat k)) with (Z.of_nat k + 1) by lia.
      keeps_io Qio.
    - intros mk _. apply wlp_skip_bind. intros ? ? E. congruence. }
  intros st mk H. cbv beta in H. rewrite Z2Nat.id in H by lia. exact H.
Qed.

(** X24: whenever startInterfaceGroup returns, having been given at most
    six filters, every instance holds them in the same layout; with six
    filters (one more than [Filter_Count], answered with BadArgument)
    mailbox 7 is programmed as well. *)
Theorem startInterfaceGroup_programs_every_instance fuel filter_config filter_config_length
        out_group m r m' :
  0 <= filter_config_length <= 6 ->
  startInterfaceGroup fuel filter_config filter_config_length out_group m = Done r m' ->
  forall i, 0 <= i < CANFD_Count -> programmed filter_config filter_config_length i m'.
Proof.
  intros Hlen Hrun.
  pose proof CANFD_Count_range as Hc.
  refine (wlp_elim _ (fun _ mk =>
                        programmed_below filter_config filter_config_length CANFD_Count mk)
                   _ _ _ _ Hrun).
  unfold startInterfaceGroup. cbv zeta.
  repeat lazymatch goal with
         | |- wlp (bind (for_range _ _) _) _ _ => fail
         | |- wlp (bind _ _) _ _ => apply wlp_skip_bind; intros ? ?
         end.
  apply wlp_bind. unfold for_range at 1. eapply wlp_weaken.
  { apply (hoare_for_loop_inv
             (fun k _ mk => programmed_below filter_config filter_config_length (Z.of_nat k) mk)).
    { intros i Hi. lia. }
    intros k [] Hk. rewrite Z.add_0_l.
    assert (Pio : forall mk mk',
               io mk mk' ->
               programmed_below filter_config filter_config_length (Z.of_nat k) mk ->
               programmed_below filter_config filter_config_length (Z.of_nat k) mk')
      by (intros ? ?; apply programmed_below_io).
    assert (PZio : forall mk mk',
               io mk mk' ->
               programmed_below filter_config filter_config_length (Z.of_nat k) mk /\
               zeroed (Z.of_nat k) mk ->
               programmed_below filter_config filter_config_length (Z.of_nat k) mk' /\
               zeroed (Z.of_nat k) mk')
      by (intros ? ? Hio [? ?]; split;
          [eapply programmed_below_io | eapply zeroed_io]; eassumption).
    assert (Qio : forall mk mk',
               io mk mk' ->
               programmed_below filter_config filter_config_length (Z.of_nat k + 1) mk ->
               programmed_below filter_config filter_config_length (Z.of_nat k + 1) mk')
      by (intros ? ?; apply programmed_below_io).
    rewrite Nat2Z.inj_succ. replace (Z.succ (Z.of_nat k)) with (Z.of_nat k + 1) by lia.
    repeat lazymatch goal with
           | |- hoare _ (bind (for_range CAN_RAMn_COUNT _) _) _ => fail
           | |- hoare _ (bind _ _) _ => eapply hoare_bind; [solve [keeps_io Pio] | intros ?]
           end.
    eapply hoare_bind; [apply hoare_zero_RAM|]. intros ?.
    repeat lazymatch goal with
           | |- hoare _ (bind (for_u8 _ _ _) _) _ => fail
           | |- hoare _ (bind _ _) _ => eapply hoare_bind; [solve [keeps_io PZio] | intros ?]
           end.
    eapply hoare_bind; [apply hoare_filter_loop; lia|]. intros ?.
    keeps_io Qio. }
  intros [] mk H. cbv beta in H. rewrite Z2Nat.id in H by lia.
  assert (Pio : forall mk mk',
             io mk mk' ->
             programmed_below filter_config filter_config_length CANFD_Count mk ->
             programmed_below filter_config filter_config_length CANFD_Count mk')
    by (intros ? ?; apply programmed_below_io).
  revert mk H.
  lazymatch goal with
  | |- forall mk, ?P mk -> wlp ?c ?Q mk => change (hoare P c Q)
  end.
  keeps_io Pio.
Qed.

End Mailboxes.

(** The filters of the started node board are replaced. *)
Lemma reconfigureFilters_programs_every_instance_witness :
  programmed sample_filters 5 1
    (after (@reconfigureFilters S32K146_board (sim true) 100 sample_filters 5) started).
Proof.
  refine (@reconfigureFilters_programs_every_instance S32K146_board (sim true) 100%nat
            sample_filters 5 started
            (after (@reconfigureFilters S32K146_board (sim true) 100 sample_filters 5) started)
            _ _ 1 _).
  - discriminate.
  - apply done_after. vm_compute. reflexivity.
  - split; [discriminate | reflexivity].
Defined.

(** The node board is started with six filters. *)
Lemma startInterfaceGroup_programs_every_instance_witness :
  programmed sample_filters 6 0
    (after (@startInterfaceGroup S32K146_board (sim true) 100 sample_filters 6 nullptr)
           (@power_on S32K146_board)).
Proof.
  refine (@startInterfaceGroup_programs_every_instance S32K146_board (sim true) 100%nat
            sample_filters 6 nullptr (@power_on S32K146_board)
            (BadArgument, addr_S32K_InterfaceGroupObj_)
            (after (@startInterfaceGroup S32K146_board (sim true) 100 sample_filters 6 nullptr)
                   (@power_on S32K146_board))
            _ _ 0 _).
  - split; discriminate.
  - apply done_after. vm_compute. reflexivity.
  - split; [discriminate | reflexivity].
Defined.

(** ** The reception handler always returns *)

Section HandlerReturns.

Context {target : Target} {peripherals : Peripherals}.

(** X8: a single reception flag pending and more than [Frame_Capacity]
    frames queued: the handler returns, having advanced the discard counter
    of the instance by one modulo 2^32 and left the queues alone; its three
    bus accesses are to the flag register, the mailbox is not read. *)
Theorem ISR_discards_above_capacity instance mb q c m :
  FlexCAN_ok instance = true ->
  one_rx_flag (u32 (regs m (CAN_IFLAG1 instance)) .&. 124) mb ->
  at_index (g_frame_ISRbuffer m) instance = Some q ->
  S32K.Frame_Capacity < Z.of_nat (length q) ->
  at_index (g_discarded_frames_count m) instance = Some c ->
  exists m' v w,
    S32K_libuavcan_ISR_handler instance m = Done tt m' /\
    g_frame_ISRbuffer m' = g_frame_ISRbuffer m /\
    g_discarded_frames_count m'
    = set_index (g_discarded_frames_count m) instance (u32 (c + 1)) /\
    trace m' = Wr (CAN_IFLAG1 instance) w :: Rd (CAN_IFLAG1 instance) v
               :: Rd (CAN_IFLAG1 instance) (u32 (regs m (CAN_IFLAG1 instance)))
               :: trace m.
Proof.
  intros Hi Hflag Hq Hlen Hc.
  destruct (wp_elim _ _ _ (ISR_discards instance mb q c m Hi Hflag Hq Hlen Hc))
    as ([] & m' & Hrun & H1 & H2 & v & w & T).
  exists m', v, w. auto.
Qed.

(** X25: for an instance of the target whose queue and discard counter
    exist, the reception handler returns whatever the flag register shows and
    however long the queue is: it indexes no array out of bounds and calls
    [front] or [pop_front] on no empty queue. *)
Theorem ISR_always_returns instance q c m :
  FlexCAN_ok instance = true ->
  at_index (g_frame_ISRbuffer m) instance = Some q ->
  at_index (g_discarded_frames_count m) instance = Some c ->
  exists m', S32K_libuavcan_ISR_handler instance m = Done tt m'.
Proof.
  intros Hi Hq Hc.
  set (sel := u32 (regs m (CAN_IFLAG1 instance)) .&. 124).
  assert (Hserve : forall mb, one_rx_flag sel mb ->
                              exists m', S32K_libuavcan_ISR_handler instance m = Done tt m').
  { intros mb Hflag.
    destruct (Z.le_gt_cases (Z.of_nat (length q)) S32K.Frame_Capacity) as [Hle|Hgt].
    - destruct (wp_elim _ _ _ (ISR_receives instance mb q m Hi Hflag Hq Hle))
        as ([] & m' & Hrun & _). eauto.
    - destruct (wp_elim _ _ _ (ISR_discards instance mb q c m Hi Hflag Hq Hgt Hc))
        as ([] & m' & Hrun & _). eauto. }
  destruct (Z.eq_dec sel 4) as [E4|N4]; [apply (Hserve 2); unfold one_rx_flag; auto|].
  destruct (Z.eq_dec sel 8) as [E8|N8]; [apply (Hserve 3); unfold one_rx_flag; auto|].
  destruct (Z.eq_dec sel 16) as [E16|N16]; [apply (Hserve 4); unfold one_rx_flag; auto|].
  destruct (Z.eq_dec sel 32) as [E32|N32]; [apply (Hserve 5); unfold one_rx_flag; auto 6|].
  destruct (Z.eq_dec sel 64) as [E64|N64]; [apply (Hserve 6); unfold one_rx_flag; auto 6|].
  destruct (wp_elim _ _ _ (ISR_ignores instance m Hi
                             ltac:(intros mb H; unfold one_rx_flag in H; fold sel in H; lia)))
    as ([] & m' & Hrun & _).
  eauto.
Qed.

End HandlerReturns.

(** A 42nd frame arrives on a queue of 41 on the node board. *)
Lemma ISR_discards_above_capacity_witness :
  exists m' v w,
    @S32K_libuavcan_ISR_handler S32K146_board (sim true) 0 (queued 41 4 0) = Done tt m' /\
    g_frame_ISRbuffer m' = g_frame_ISRbuffer (queued 41 4 0) /\
    g_discarded_frames_count m'
    = set_index (g_discarded_frames_count (queued 41 4 0)) 0 (u32 (0 + 1)) /\
    trace m' = Wr (CAN_IFLAG1 0) w :: Rd (CAN_IFLAG1 0) v
               :: Rd (CAN_IFLAG1 0) (u32 (regs (queued 41 4 0) (CAN_IFLAG1 0)))
               :: trace (queued 41 4 0).
Proof.
  apply (@ISR_discards_above_capacity S32K146_board (sim true) 0 2
           (replicate 41 (CAN.Frame_ctor 0x55 [] 0 0)) 0 (queued 41 4 0)).
  - reflexivity.
  - left. split; reflexivity.
  - reflexivity.
  - reflexivity.
  - reflexivity.
Defined.

(** Two reception flags are pending on the node board. *)
Lemma ISR_always_returns_witness :
  exists m', @S32K_libuavcan_ISR_handler S32K146_board (sim true) 0 (queued 3 12 0) = Done tt m'.
Proof.
  apply (@ISR_always_returns S32K146_board (sim true) 0
           (replicate 3 (CAN.Frame_ctor 0x55 [] 0 0)) 0 (queued 3 12 0)).
  - reflexivity.
  - reflexivity.
  - reflexivity.
Defined.

(** ** Waits that depend on the hardware *)

Section Blocking.

Context {target : Target} {peripherals : Peripherals}.

Lemma regs_access_react a m r :
  is_RAMn r = false -> regs (access a m) r = react a (regs m) r.
Proof. intros Hr. unfold access, next_regs. cbn [regs]. now rewrite Hr. Qed.

(** X26: startInterfaceGroup waits for the system oscillator without a
    time-out: on hardware whose SOSCCSR never shows the valid bit it never
    returns, however long it is left to run. *)
Theorem startInterfaceGroup_blocks_without_oscillator fuel filter_config filter_config_length
        out_group m :
  (forall a rs, u32 (react a rs SCG_SOSCCSR) .&. SCG_SOSCCSR_SOSCVLD_MASK = 0) ->
  value_of (startInterfaceGroup fuel filter_config filter_config_length out_group m) = None.
Proof.
  intros Hdead.
  cut (wlp (startInterfaceGroup fuel filter_config filter_config_length out_group)
           (fun _ _ => False) m).
  { unfold wlp, value_of. destruct (startInterfaceGroup _ _ _ _ m); [tauto | reflexivity..]. }
  unfold startInterfaceGroup. cbv zeta.
  do 4 (apply wlp_skip_bind; intros ? ?).
  apply wlp_bind. apply (hoare_set_bits_rule (fun _ => True)); [|exact I].
  intros mk _ _. apply wlp_never_bind. unfold spin_while.
  apply (hoare_iter_inv
           (fun _ mk => u32 (regs mk SCG_SOSCCSR) .&. SCG_SOSCCSR_SOSCVLD_MASK = 0)
           (fun (_ : unit) _ => False)).
  - intros []. eapply hoare_bind.
    + apply (hoare_rd_rule _ (fun v mk' =>
                                v .&. SCG_SOSCCSR_SOSCVLD_MASK = 0 /\
                                u32 (regs mk' SCG_SOSCCSR) .&. SCG_SOSCCSR_SOSCVLD_MASK = 0)).
      intros mk' H _. split; [exact H|].
      rewrite regs_access_react by reflexivity. apply Hdead.
    + intros v mk' [Hv H]. unfold wlp, ret. rewrite Hv. exact H.
  - rewrite regs_access_react by reflexivity. apply Hdead.
Qed.

(** X27: the time-out of [flagPollTimeout_Set] is measured on timer channel
    2: on hardware where that channel does not count and the flag never
    rises, the poll never returns, however long it is left to run. *)
Theorem flagPollTimeout_Set_blocks_without_timer fuel flagRegister flag_Mask m :
  is_RAMn flagRegister = false ->
  (forall a rs, u32 (react a rs (LPIT0_CVAL 2)) = LPIT_TMR_CVAL_TMR_CUR_VAL_MASK /\
                u32 (react a rs flagRegister) .&. flag_Mask = 0) ->
  value_of (flagPollTimeout_Set fuel flagRegister flag_Mask m) = None.
Proof.
  intros Hreg Hdead.
  cut (wlp (flagPollTimeout_Set fuel flagRegister flag_Mask) (fun _ _ => False) m).
  { unfold wlp, value_of. destruct (flagPollTimeout_Set _ _ _ m); [tauto | reflexivity..]. }
  unfold flagPollTimeout_Set. cbv zeta.
  do 2 (apply wlp_skip_bind; intros ? ?).
  apply wlp_bind. apply (hoare_set_bits_rule (fun _ => True)); [|exact I].
  intros mk _ _.
  set (J := fun mk : Machine =>
              u32 (regs mk (LPIT0_CVAL 2)) = LPIT_TMR_CVAL_TMR_CUR_VAL_MASK /\
              u32 (regs mk flagRegister) .&. flag_Mask = 0).
  assert (HJ : forall a mk, J (access a mk)).
  { intros acc mk0. unfold J. rewrite !regs_access_react by (reflexivity || exact Hreg).
    apply Hdead. }
  apply (hoare_iter_inv (fun delta mk => delta = 0 /\ J mk) (fun (_ : Result) _ => False));
    [|split; [reflexivity | apply HJ]].
  intros delta mk' [-> [Ht Hf]].
  change (0 <? S32K.cycles_timeout) with true. cbv iota.
  apply wlp_bind. apply (hoare_rd_rule (fun mk'' => mk'' = mk')); [|reflexivity].
  intros ? -> _. rewrite Hf. cbn [Z.eqb negb].
  apply wlp_bind. apply (hoare_rd_rule J); [|apply HJ].
  intros mk'' [Ht' _] _. unfold wlp, ret. rewrite Ht'. split; [reflexivity | apply HJ].
Qed.

End Blocking.

(** The node board without a clock is started. *)
Lemma startInterfaceGroup_blocks_without_oscillator_witness :
  value_of (@startInterfaceGroup S32K146_board unclocked 1000 sample_filters 5 nullptr
              (@power_on S32K146_board)) = None.
Proof.
  apply (@startInterfaceGroup_blocks_without_oscillator S32K146_board unclocked).
  intros a rs. reflexivity.
Defined.

(** The low-power acknowledge of instance 0 is polled on the node board
    without a clock. *)
Lemma flagPollTimeout_Set_blocks_without_timer_witness :
  value_of (@flagPollTimeout_Set S32K146_board unclocked 1000 (CAN_MCR 0) CAN_MCR_LPMACK_MASK
              (@power_on S32K146_board)) = None.
Proof.
  apply (@flagPollTimeout_Set_blocks_without_timer S32K146_board unclocked).
  - reflexivity.
  - intros a rs. split; reflexivity.
Defined.

(** ** The unit of the time-out of [select] *)

Section SelectTimeout.

Context {target : Target} {peripherals : Peripherals}.

(** X28: whenever [select] answers SuccessTimeout, either the microsecond
    count of the timeout is zero modulo 2^32, or its last access read timer
    channel 3 and found that at least as many timer ticks had elapsed as
    the timeout has microseconds: the microsecond count is compared with a
    tick count. *)
Theorem select_timeout_counts_ticks fuel timeout ignore_write_available m m' :
  select fuel timeout ignore_write_available m = Done SuccessTimeout m' ->
  u32 (toMicrosecond timeout) = 0 \/
  exists c rest,
    trace m' = Rd (LPIT0_CVAL 3) c :: rest /\
    u32 (toMicrosecond timeout) <= u32 (LPIT_TMR_CVAL_TMR_CUR_VAL_MASK - c).
Proof.
  intros Hrun.
  set (T := u32 (toMicrosecond timeout)).
  cut (SuccessTimeout = SuccessTimeout ->
       T = 0 \/ exists c rest, trace m' = Rd (LPIT0_CVAL 3) c :: rest /\
                               T <= u32 (LPIT_TMR_CVAL_TMR_CUR_VAL_MASK - c)).
  { intros H. now apply H. }
  refine (wlp_elim _ (fun r mk =>
                        r = SuccessTimeout ->
                        T = 0 \/ exists c rest,
                                   trace mk = Rd (LPIT0_CVAL 3) c :: rest /\
                                   T <= u32 (LPIT_TMR_CVAL_TMR_CUR_VAL_MASK - c))
                   _ _ _ _ Hrun).
  unfold select. cbv zeta. fold T.
  do 3 (apply wlp_skip_bind; intros ? ?).
  apply (hoare_iter_inv
           (fun delta mk =>
              delta = 0 \/
              exists c rest, trace mk = Rd (LPIT0_CVAL 3) c :: rest /\
                             delta = u32 (LPIT_TMR_CVAL_TMR_CUR_VAL_MASK - c)));
    [|now left].
  intros delta. destruct (Z.ltb_spec delta T) as [Hlt|Hge].
  - apply (hoare_bind _ (fun found _ => True /\ match found with
                                                | Some x => x = Success
                                                | None => True
                                                end)).
    + eapply hoare_weaken with (P := fun _ => True); [|auto | intros found mk H; exact H].
      apply (hoare_for_until_some (fun _ => True) (fun x => x = Success)).
      intros k. apply hoare_skip_bind. intros empty.
      assert (Hnone : hoare (fun _ => True) (ret (@None Result))
                            (fun found _ => True /\ match found with
                                                    | Some x => x = Success
                                                    | None => True
                                                    end))
        by (intros mk _; now split).
      assert (Hsome : hoare (fun _ => True) (ret (Some Success))
                            (fun found _ => True /\ match found with
                                                    | Some x => x = Success
                                                    | None => True
                                                    end))
        by (intros mk _; now split).
      destruct (negb empty); [exact Hsome|].
      destruct (negb ignore_write_available); [|exact Hnone].
      apply hoare_skip_bind. intros imb. destruct (negb _); [|exact Hnone].
      apply hoare_skip_bind. intros vps. destruct (negb _); [exact Hsome | exact Hnone].
    + intros [Status|].
      * intros mk [_ ->] E. discriminate E.
      * eapply hoare_bind.
        { apply (hoare_rd_rule _ (fun cval mk =>
                                    exists rest, trace mk = Rd (LPIT0_CVAL 3) cval :: rest)).
          intros mk _ _. simpl. eauto. }
        intros cval mk [rest E]. right. eauto.
  - intros mk [->|(c & rest & E & ->)] _.
    + left. pose proof (u32_range (toMicrosecond timeout)) as HT. fold T in HT. lia.
    + right. eauto.
Qed.

End SelectTimeout.

(** Nothing waits on the node board and the caller allows three
    microseconds: [select] gives up at the second reading of the timer,
    0x100000 ticks after the first. *)
Lemma select_timeout_counts_ticks_witness :
  u32 (toMicrosecond 3) = 0 \/
  exists c rest,
    trace (after (@select S32K146_board (sim true) 10 3 true) (@power_on S32K146_board))
    = Rd (LPIT0_CVAL 3) c :: rest /\
    u32 (toMicrosecond 3) <= u32 (LPIT_TMR_CVAL_TMR_CUR_VAL_MASK - c).
Proof.
  apply (@select_timeout_counts_ticks S32K146_board (sim true) 10%nat 3 true
           (@power_on S32K146_board)).
  apply done_after. vm_compute. reflexivity.
Defined.
